(** * chemprop (multi-fidelity fork): graph batching, data loader and the
    end-to-end experiment script

    A shallow embedding of
    - [chemprop/data/v2/dataloader.py]: [collate_graphs] and
      [MoleculeDataLoader];
    - [multifidelity_end2end.py]: [main], [eval_metrics] call sites,
      [str2bool] and [add_args].

    Python values are modelled as the code has them: unbounded [int] as [Z],
    [float] as the kernel's binary64 [float], [str] as [string], lists as
    [list], a dataframe's columns as a finite map from column names to
    columns.  Exceptions are values of [exn]; a computation that may raise
    returns a [result]. *)

From Stdlib Require Import ZArith Lia Bool.
From Stdlib Require Import Ascii Floats.PrimFloat.
From stdpp Require Import base option list gmap strings.

Local Open Scope Z_scope.

(** ** Python runtime: exceptions, sequences, strings *)

Module Py.

(** The exception classes the modelled code raises, itself or through the
    libraries it calls. *)
Inductive exn : Type :=
| ValueError
| TypeError
| IndexError
| KeyError
| ZeroDivisionError
| NotImplementedError
| AttributeError
| UnboundLocalError
| ArgumentTypeError
| SystemExit (code : Z).

Inductive result (A : Type) : Type :=
| Ok (a : A)
| Raise (e : exn).
Arguments Ok {A} a.
Arguments Raise {A} e.

Definition bind {A B} (k : A → result B) (r : result A) : result B :=
  match r with
  | Ok a => k a
  | Raise e => Raise e
  end.

(** [x ← r; k] and ['(a, b) ← r; k] are stdpp's monadic notations. *)
#[global] Instance result_ret : MRet result := @Ok.
#[global] Instance result_bind : MBind result := @bind.
#[global] Instance result_fmap : FMap result :=
  λ A B f r, match r with Ok a => Ok (f a) | Raise e => Raise e end.

Definition is_ok {A} (r : result A) : bool :=
  match r with Ok _ => true | Raise _ => false end.

(** [[f(x) for x in xs]] where [f] may raise: the first exception wins. *)
Fixpoint mapM {A B} (f : A → result B) (xs : list A) : result (list B) :=
  match xs with
  | [] => Ok []
  | x :: xs' => y ← f x; ys ← mapM f xs'; Ok (y :: ys)
  end.

(** A [for] loop threading a state. *)
Fixpoint foldM {A S} (f : S → A → result S) (s : S) (xs : list A) : result S :=
  match xs with
  | [] => Ok s
  | x :: xs' => s' ← f s x; foldM f s' xs'
  end.

(** [range(n)]: empty when [n <= 0]. *)
Definition range (n : Z) : list Z := Z.of_nat <$> seq 0 (Z.to_nat n).

(** [l[i]] on a list (or a one-dimensional array or tensor): a negative
    index counts from the end, an index outside [-len, len) raises
    [IndexError]. *)
Definition getitem {A} (l : list A) (i : Z) : result A :=
  let n := Z.of_nat (length l) in
  let j := if i <? 0 then i + n else i in
  if (j <? 0) || (n <=? j) then Raise IndexError
  else match l !! Z.to_nat j with
       | Some x => Ok x
       | None => Raise IndexError
       end.

(** [len(l)] *)
Definition len {A} (l : list A) : Z := Z.of_nat (length l).

(** [max(1, max(len(x) for x in xs))] style maxima over a non-empty
    sequence; [max] of an empty sequence raises [ValueError]. *)
Definition max_of (xs : list Z) : result Z :=
  match xs with
  | [] => Raise ValueError
  | x :: xs' => Ok (foldl Z.max x xs')
  end.

(** [[x] * k]: the empty list when [k <= 0]. *)
Definition repeat_list {A} (x : A) (k : Z) : list A := replicate (Z.to_nat k) x.

End Py.
Import Py.

(** ** numpy arrays, as far as [collate_graphs] uses them *)

Module Np.

(** An n-dimensional array: its shape and its entries in row-major order. *)
Record ndarray : Type := NdArray {
  shape : list nat;
  data : list float;
}.

Definition ndim (a : ndarray) : nat := length (shape a).

(** [a.shape[0]] ([IndexError] on a zero-dimensional array). *)
Definition shape0 (a : ndarray) : result nat :=
  match shape a with
  | [] => Raise IndexError
  | n :: _ => Ok n
  end.

(** [np.zeros(n)] with an integer [n]: a ONE-dimensional array of [n] zeros. *)
Definition zeros (n : nat) : ndarray :=
  {| shape := [n]; data := replicate n 0%float |}.

(** [np.concatenate(arrs)] (axis 0): the arrays must be at least
    one-dimensional, have the same number of dimensions and agree on every
    dimension but the first; anything else raises [ValueError]. *)
Definition concatenate (arrs : list ndarray) : result ndarray :=
  match arrs with
  | [] => Raise ValueError
  | a :: _ =>
      match shape a with
      | [] => Raise ValueError
      | _ :: rest =>
          if forallb (λ b, bool_decide (tail (shape b) = rest ∧ shape b ≠ [])) arrs
          then Ok {| shape := sum_list (default 0%nat ∘ head ∘ shape <$> arrs) :: rest;
                     data := concat (data <$> arrs) |}
          else Raise ValueError
      end
  end.

(** [a.astype(np.float32)], given the rounding of one value. *)
Definition astype (cast : float → float) (a : ndarray) : ndarray :=
  {| shape := shape a; data := cast <$> data a |}.

(** [a[0]]: the first entry along axis 0, as the list of its values. *)
Definition row0 (a : ndarray) : result (list float) :=
  match shape a with
  | [] => Raise IndexError
  | O :: _ => Raise IndexError
  | S _ :: rest => Ok (take (foldr Nat.mul 1%nat rest) (data a))
  end.

End Np.

(** ** [chemprop/data/v2/dataloader.py]: [collate_graphs] *)

Module Collate.
Import Np.

(** The fields of [chemprop.featurizers.molgraph.MolGraph] that
    [collate_graphs] reads.  [X_v] and [X_e] are numpy arrays (of any shape),
    [a2b] maps an atom to its incoming bonds, [b2a] a bond to its source atom,
    [b2revb] a bond to its reverse bond. *)
Record MolGraph : Type := mkMolGraph {
  n_atoms : Z;
  n_bonds : Z;
  X_v : ndarray;
  X_e : ndarray;
  a2b : list (list Z);
  b2a : list Z;
  b2revb : list Z;
}.

(** The tuple [collate_graphs] returns.  Tensors of dtype [torch.long] are
    lists of [Z]: entries are taken to fit in 64 bits. *)
Record Batch : Type := mkBatch {
  batch_X_v : ndarray;
  batch_X_e : ndarray;
  batch_a2b : list (list Z);
  batch_b2a : list Z;
  batch_b2revb : list Z;
  batch_a_scope : list (Z * Z);
  batch_b_scope : list (Z * Z);
  batch_a2a : list (list Z);
}.

(** The local variables of [collate_graphs] that the loop updates. *)
Record locals : Type := mkLocals {
  l_n_atoms : Z;
  l_n_bonds : Z;
  l_a_scope : list (Z * Z);
  l_b_scope : list (Z * Z);
  l_X_vs : list ndarray;
  l_X_es : list ndarray;
  l_a2b : list (list Z);
  l_b2a : list Z;
  l_b2revb : list Z;
}.

(** Lines 15-25: the state before the loop; [mgs[0]] raises [IndexError] on
    an empty sequence. *)
Definition init_locals (mgs : list MolGraph) : result locals :=
  mg0 ← getitem mgs 0;
  v ← shape0 (X_v mg0);
  e ← shape0 (X_e mg0);
  Ok {| l_n_atoms := 1; l_n_bonds := 1; l_a_scope := []; l_b_scope := [];
        l_X_vs := [zeros v]; l_X_es := [zeros e];
        l_a2b := [[]]; l_b2a := [0]; l_b2revb := [0] |}.

(** Lines 28-46: one iteration of [for mg in mgs]. *)
Definition loop_body (st : locals) (mg : MolGraph) : result locals :=
  let X_vs := l_X_vs st ++ [X_v mg] in
  let X_es := l_X_es st ++ [X_e mg] in
  new_a2b ← mapM (λ a, in_bonds ← getitem (a2b mg) a;
                       Ok ((λ b, b + l_n_bonds st) <$> (in_bonds : list Z)))
                 (range (n_atoms mg));
  new_b2a ← mapM (λ b, a ← getitem (b2a mg) b; Ok (l_n_atoms st + a))
                 (range (n_bonds mg));
  new_b2revb ← mapM (λ b, r ← getitem (b2revb mg) b; Ok (l_n_bonds st + r))
                    (range (n_bonds mg));
  Ok {| l_n_atoms := l_n_atoms st + n_atoms mg;
        l_n_bonds := l_n_bonds st + n_bonds mg;
        l_a_scope := l_a_scope st ++ [(l_n_atoms st, n_atoms mg)];
        l_b_scope := l_b_scope st ++ [(l_n_bonds st, n_bonds mg)];
        l_X_vs := X_vs; l_X_es := X_es;
        l_a2b := l_a2b st ++ new_a2b;
        l_b2a := l_b2a st ++ new_b2a;
        l_b2revb := l_b2revb st ++ new_b2revb |}.

(** [torch.tensor(rows, dtype=torch.long)] on a list of lists: the rows must
    have one length. *)
Definition tensor2 (rows : list (list Z)) : result (list (list Z)) :=
  match rows with
  | [] => Ok []
  | r :: _ =>
      if forallb (λ r', bool_decide (length r' = length r)) rows
      then Ok rows else Raise ValueError
  end.

(** [t[idx]] with a two-dimensional index tensor: every entry of [idx]
    selects an entry of the one-dimensional [t]. *)
Definition index_by (t : list Z) (idx : list (list Z)) : result (list (list Z)) :=
  mapM (mapM (getitem t)) idx.

Section collate.
(** Rounding of one value to single precision, [astype(np.float32)]. *)
Variable to_float32 : float → float.

(** Lines 48-61: what follows the loop. *)
Definition finish (st : locals) : result Batch :=
  X_v' ← astype to_float32 <$> concatenate (l_X_vs st);
  X_e' ← astype to_float32 <$> concatenate (l_X_es st);
  longest ← max_of (len <$> l_a2b st);
  let max_num_bonds := Z.max 1 longest in
  rows ← mapM (λ a, in_bonds ← getitem (l_a2b st) a;
                    Ok (in_bonds ++ repeat_list 0 (max_num_bonds - len in_bonds)))
              (range (l_n_atoms st));
  a2b' ← tensor2 rows;
  let b2a' := l_b2a st in
  let b2revb' := l_b2revb st in
  a2a ← index_by b2a' a2b';
  Ok {| batch_X_v := X_v'; batch_X_e := X_e'; batch_a2b := a2b';
        batch_b2a := b2a'; batch_b2revb := b2revb';
        batch_a_scope := l_a_scope st; batch_b_scope := l_b_scope st;
        batch_a2a := a2a |}.

Definition collate_graphs (mgs : list MolGraph) : result Batch :=
  st0 ← init_locals mgs;
  st ← foldM loop_body st0 mgs;
  finish st.
End collate.

(** A water-like toy graph in chemprop's layout: three atoms with two
    features each ([X_v] of shape 3 x 2), four directed bonds with one
    feature each ([X_e] of shape 4 x 1). *)
Definition mg_2d : MolGraph :=
  {| n_atoms := 3; n_bonds := 4;
     X_v := {| shape := [3; 2]%nat; data := [8; 1; 1; 0; 1; 0]%float |};
     X_e := {| shape := [4; 1]%nat; data := [1; 1; 1; 1]%float |};
     a2b := [[1; 3]; [0]; [2]];
     b2a := [0; 1; 0; 2];
     b2revb := [1; 0; 3; 2] |}.

(** Methane: one heavy atom and no bond; [X_v] has shape 1 x 2 and [X_e]
    shape 0 x 1. *)
Definition mg_single_atom : MolGraph :=
  {| n_atoms := 1; n_bonds := 0;
     X_v := {| shape := [1; 2]%nat; data := [6; 4]%float |};
     X_e := {| shape := [0; 1]%nat; data := [] |};
     a2b := [[]];
     b2a := [];
     b2revb := [] |}.

(** The three-atom graph with one feature per atom and per bond, stored as
    one-dimensional arrays. *)
Definition mg_flat : MolGraph :=
  {| n_atoms := 3; n_bonds := 4;
     X_v := {| shape := [3]%nat; data := [8; 1; 1]%float |};
     X_e := {| shape := [4]%nat; data := [1; 1; 1; 1]%float |};
     a2b := [[1; 3]; [0]; [2]];
     b2a := [0; 1; 0; 2];
     b2revb := [1; 0; 3; 2] |}.

(** A graph without atoms, as the empty SMILES string gives. *)
Definition mg_empty : MolGraph :=
  {| n_atoms := 0; n_bonds := 0;
     X_v := {| shape := [0]%nat; data := [] |};
     X_e := {| shape := [0]%nat; data := [] |};
     a2b := []; b2a := []; b2revb := [] |}.

(** *** The batch in the words of the specification *)

(** A graph whose counts are those of its index lists. *)
Definition well_formed (mg : MolGraph) : Prop :=
  n_atoms mg = len (a2b mg) ∧ n_bonds mg = len (b2a mg) ∧
  n_bonds mg = len (b2revb mg).

(** The (start, count) pairs: the first start is given, each later start is
    the previous start plus the previous count. *)
Fixpoint scopes (start : Z) (counts : list Z) : list (Z * Z) :=
  match counts with
  | [] => []
  | c :: cs => (start, c) :: scopes (start + c) cs
  end.

(** The neighbor lists of all graphs in a row, each bond index shifted by
    the number of bonds before its graph. *)
Fixpoint flat_a2b (bonds_before : Z) (mgs : list MolGraph) : list (list Z) :=
  match mgs with
  | [] => []
  | mg :: rest =>
      ((λ in_bonds : list Z, (λ b, b + bonds_before) <$> in_bonds) <$> a2b mg)
      ++ flat_a2b (bonds_before + n_bonds mg) rest
  end.

(** The source atoms of all bonds, each shifted by the number of atoms
    before its graph. *)
Fixpoint flat_b2a (atoms_before : Z) (mgs : list MolGraph) : list Z :=
  match mgs with
  | [] => []
  | mg :: rest =>
      ((λ a, atoms_before + a) <$> b2a mg) ++ flat_b2a (atoms_before + n_atoms mg) rest
  end.

(** The reverse bonds, shifted like the bonds. *)
Fixpoint flat_b2revb (bonds_before : Z) (mgs : list MolGraph) : list Z :=
  match mgs with
  | [] => []
  | mg :: rest =>
      ((λ r, bonds_before + r) <$> b2revb mg)
      ++ flat_b2revb (bonds_before + n_bonds mg) rest
  end.

(** A neighbor list filled up with zeros to [width] entries. *)
Definition pad (width : Z) (in_bonds : list Z) : list Z :=
  in_bonds ++ repeat_list 0 (width - len in_bonds).

(** The sum of the counts. *)
Definition total (counts : list Z) : Z := foldr Z.add 0 counts.

(** A graph whose indices point into its own lists. *)
Definition in_range (mg : MolGraph) : Prop :=
  Forall (Forall (λ b, 0 ≤ b < n_bonds mg)) (a2b mg) ∧
  Forall (λ a, 0 ≤ a < n_atoms mg) (b2a mg) ∧
  Forall (λ r, 0 ≤ r < n_bonds mg) (b2revb mg).

(** A graph whose feature arrays are one-dimensional. *)
Definition flat_features (mg : MolGraph) : Prop :=
  ndim (X_v mg) = 1%nat ∧ ndim (X_e mg) = 1%nat.

(** A graph in which the reverse of the reverse of a bond is the bond. *)
Definition reverse_involutive (mg : MolGraph) : Prop :=
  ∀ (b : nat) (r : Z), b2revb mg !! b = Some r →
    b2revb mg !! Z.to_nat r = Some (Z.of_nat b).

(** Entry [e] of a one-dimensional tensor, for an index in range. *)
Definition at_index (t : list Z) (e : Z) : Z := default 0 (t !! Z.to_nat e).

(** The width line 52 computes, over the rows after the padding row. *)
Definition widest (rows : list (list Z)) : Z :=
  Z.max 1 (foldl Z.max 0 (len <$> rows)).

End Collate.

(** ** [chemprop/data/v2/dataloader.py]: [MoleculeDataLoader] *)

Module Loader.

(** What the properties read of [self.dataset[i]]: its targets and, when the
    datapoint has them ([hasattr]), its inequality flags. *)
Record Datum : Type := mkDatum {
  d_targets : list float;
  d_gt_targets : option (list (option bool));
  d_lt_targets : option (list (option bool));
}.

(** The sampler objects a loader can hold: the two of
    [chemprop.data.v2.sampler] that [__init__] builds, and the two defaults of
    [torch.utils.data]. *)
Inductive sampler : Type :=
| ClassBalanceSampler (seed : option Z) (shuffle : bool)
| SeededSampler (seed : Z) (shuffle : bool)
| SequentialSampler
| RandomSampler.

(** The attributes of a loader that the properties read.  [sampler] is an
    attribute that may hold [None]. *)
Record MoleculeDataLoader : Type := mkLoader {
  dataset : list Datum;
  class_balance : bool;
  shuffle : bool;
  sampler_attr : option sampler;
}.

(** Lines 96-101: the sampler [__init__] assigns before calling the base
    class. *)
Definition own_sampler (class_balance : bool) (seed : option Z) (shuffle : bool)
  : option sampler :=
  if class_balance then Some (ClassBalanceSampler seed shuffle)
  else match seed with
       | Some s => if shuffle then Some (SeededSampler s shuffle) else None
       | None => None
       end.

(** [torch.utils.data.DataLoader.__init__(dataset, batch_size, shuffle,
    sampler, num_workers=...)] for a map-style dataset, as far as the
    [sampler] attribute goes: a negative [num_workers], a sampler given
    together with [shuffle], or a non-positive [batch_size] raise [ValueError];
    a [None] sampler is replaced by [RandomSampler(dataset)] when [shuffle] and
    by [SequentialSampler(dataset)] otherwise; the constructor then assigns
    [self.sampler = sampler]. *)
Definition DataLoader_init (batch_size : Z) (shuffle : bool) (s : option sampler)
    (num_workers : Z) : result sampler :=
  if num_workers <? 0 then Raise ValueError
  else if bool_decide (is_Some s) && shuffle then Raise ValueError
  else if batch_size <=? 0 then Raise ValueError
  else Ok (match s with
           | Some s' => s'
           | None => if shuffle then RandomSampler else SequentialSampler
           end).

(** Lines 82-110: [MoleculeDataLoader.__init__].  The attribute [sampler] is
    assigned twice: by line 97, 99 or 101, and then by the base class
    constructor that line 103 calls. *)
Definition init (dataset : list Datum) (batch_size num_workers : Z)
    (class_balance : bool) (seed : option Z) (shuffle : bool)
  : result MoleculeDataLoader :=
  let self := {| dataset := dataset; class_balance := class_balance;
                 shuffle := shuffle;
                 sampler_attr := own_sampler class_balance seed shuffle |} in
  s ← DataLoader_init batch_size
        (bool_decide (sampler_attr self = None) && shuffle)
        (sampler_attr self) num_workers;
  Ok {| dataset := dataset; class_balance := class_balance; shuffle := shuffle;
        sampler_attr := Some s |}.

Section properties.
(** The order in which a shuffling or balancing sampler yields indices, and
    its length: code that is not part of [dataloader.py]. *)
Variable random_order : sampler → list Datum → list Z.

(** [iter(self.sampler)]: iterating [None] raises [TypeError]. *)
Definition iter_sampler (dl : MoleculeDataLoader) : result (list Z) :=
  match sampler_attr dl with
  | None => Raise TypeError
  | Some SequentialSampler => Ok (range (len (dataset dl)))
  | Some s => Ok (random_order s (dataset dl))
  end.

(** Lines 112-124 *)
Definition targets (dl : MoleculeDataLoader) : result (list (list float)) :=
  if class_balance dl || shuffle dl then Raise ValueError
  else idx ← iter_sampler dl;
       mapM (λ i, d ← getitem (dataset dl) i; Ok (d_targets d)) idx.

(** [x.attr] on a datapoint that may lack the attribute. *)
Definition getattr {A} (a : option A) : result A :=
  match a with Some v => Ok v | None => Raise AttributeError end.

(** Lines 126-141; the result [None] is returned when the first datapoint
    has no [gt_targets]. *)
Definition gt_targets (dl : MoleculeDataLoader)
  : result (option (list (list (option bool)))) :=
  if class_balance dl || shuffle dl then Raise ValueError
  else d0 ← getitem (dataset dl) 0;
       if bool_decide (d_gt_targets d0 = None) then Ok None
       else idx ← iter_sampler dl;
            Some <$> mapM (λ i, d ← getitem (dataset dl) i; getattr (d_gt_targets d)) idx.

(** Lines 143-158 *)
Definition lt_targets (dl : MoleculeDataLoader)
  : result (option (list (list (option bool)))) :=
  if class_balance dl || shuffle dl then Raise ValueError
  else d0 ← getitem (dataset dl) 0;
       if bool_decide (d_lt_targets d0 = None) then Ok None
       else idx ← iter_sampler dl;
            Some <$> mapM (λ i, d ← getitem (dataset dl) i; getattr (d_lt_targets d)) idx.

(** Lines 160-163: [len(self.sampler)]; [len(None)] raises [TypeError]. *)
Definition iter_size (dl : MoleculeDataLoader) : result Z :=
  match sampler_attr dl with
  | None => Raise TypeError
  | Some SequentialSampler => Ok (len (dataset dl))
  | Some s => Ok (len (random_order s (dataset dl)))
  end.
End properties.

(** A dataset of two molecules with one target each. *)
Definition two_molecules : list Datum :=
  [ {| d_targets := [1.5%float]; d_gt_targets := None; d_lt_targets := None |};
    {| d_targets := [2.5%float]; d_gt_targets := None; d_lt_targets := None |} ].

End Loader.

(** ** [multifidelity_end2end.py] *)

Module EndToEnd.

(** *** Command line *)

(** [str.lower()] on the characters that matter to [str2bool]: the ASCII
    capitals.  (Python also lowers non-ASCII capitals; none of them becomes a
    letter of the words [str2bool] accepts.) *)
Definition lower_ascii (c : ascii) : ascii :=
  let n := nat_of_ascii c in
  if (65 <=? n)%nat && (n <=? 90)%nat then ascii_of_nat (n + 32) else c.

Fixpoint lower (s : string) : string :=
  match s with
  | EmptyString => EmptyString
  | String c s' => String (lower_ascii c) (lower s')
  end.

(** The values argparse hands to [str2bool]: the option's text, or a [bool]. *)
Inductive arg_value : Type :=
| VBool (b : bool)
| VStr (s : string).

Definition truthy : list string := ["yes"; "true"; "t"; "y"; "1"].
Definition falsy : list string := ["no"; "false"; "f"; "n"; "0"].

(** Lines 426-434 *)
Definition str2bool (v : arg_value) : result bool :=
  match v with
  | VBool b => Ok b
  | VStr s =>
      if bool_decide (lower s ∈ truthy) then Ok true
      else if bool_decide (lower s ∈ falsy) then Ok false
      else Raise ArgumentTypeError
  end.

(** The namespace [parse_args] returns. *)
Record Args : Type := mkArgs {
  model_type : string;
  data_file : string;
  hf_col_name : string;
  lf_col_name : string;
  scale_data : bool;
  save_test_plot : bool;
  num_epochs : Z;
  export_train_and_val : bool;
  add_pn_bias_to_make_lf : Z;
  add_constant_bias_to_make_lf : float;
  add_gauss_noise_to_make_lf : float;
  add_descriptor_bias_to_make_lf : float;
  split_type : string;
  lf_hf_size_ratio : Z;
  lf_superset_of_hf : bool;
  seed : Z;
  results_dir : string;
}.

(** The command line, one field per option of [add_args]: [None] when the
    option is absent.  Options with [type=int] or [type=float] are given by
    their value; options with [choices] or [type=str2bool] by their text. *)
Record Argv : Type := mkArgv {
  opt_model_type : option string;
  opt_data_file : option string;
  opt_hf_col_name : option string;
  opt_lf_col_name : option string;
  opt_scale_data : option string;
  opt_save_test_plot : option string;
  opt_num_epochs : option Z;
  opt_export_train_and_val : option string;
  opt_add_pn_bias_to_make_lf : option Z;
  opt_add_constant_bias_to_make_lf : option float;
  opt_add_gauss_noise_to_make_lf : option float;
  opt_add_descriptor_bias_to_make_lf : option float;
  opt_split_type : option string;
  opt_lf_hf_size_ratio : option Z;
  opt_lf_superset_of_hf : option string;
  opt_seed : option Z;
  opt_results_dir : option string;
}.

(** No option given: every default applies. *)
Definition no_options : Argv :=
  mkArgv None None None None None None None None None None None None None None
         None None None.

(** Lines 442-450 and 465: the [choices] of [--model_type] and
    [--split_type]. *)
Definition model_type_choices : list string :=
  ["single_fidelity"; "multi_target"; "multi_fidelity";
   "multi_fidelity_weight_sharing"; "multi_fidelity_non_diff"; "delta_ml";
   "trad_delta_ml"].
Definition split_type_choices : list string :=
  ["random"; "scaffold"; "h298"; "molwt"; "atom"].

(** An option with [choices]: a value outside them makes argparse print its
    usage and exit with status 2. *)
Definition choice (choices : list string) (default : string) (o : option string)
  : result string :=
  match o with
  | None => Ok default
  | Some s => if bool_decide (s ∈ choices) then Ok s else Raise (SystemExit 2)
  end.

(** An option with [type=str2bool]: argparse turns the [ArgumentTypeError]
    into the same exit. *)
Definition flag (default : bool) (o : option string) : result bool :=
  match o with
  | None => Ok default
  | Some s => match str2bool (VStr s) with
              | Ok b => Ok b
              | Raise _ => Raise (SystemExit 2)
              end
  end.

(** Lines 23-25 with [add_args] (lines 437-470): [parser.parse_args()]. *)
Definition parse_args (argv : Argv) : result Args :=
  mt ← choice model_type_choices "single_fidelity" (opt_model_type argv);
  sd ← flag false (opt_scale_data argv);
  stp ← flag false (opt_save_test_plot argv);
  etv ← flag false (opt_export_train_and_val argv);
  st ← choice split_type_choices "random" (opt_split_type argv);
  sup ← flag false (opt_lf_superset_of_hf argv);
  Ok {| model_type := mt;
        data_file := default "/home/temujin/chemprop-mf/tests/data/gdb11_0.001.csv"
                             (opt_data_file argv);
        hf_col_name := default "h298" (opt_hf_col_name argv);
        lf_col_name := default "h298_lf" (opt_lf_col_name argv);
        scale_data := sd;
        save_test_plot := stp;
        num_epochs := default 30 (opt_num_epochs argv);
        export_train_and_val := etv;
        add_pn_bias_to_make_lf := default 0 (opt_add_pn_bias_to_make_lf argv);
        add_constant_bias_to_make_lf :=
          default 0%float (opt_add_constant_bias_to_make_lf argv);
        add_gauss_noise_to_make_lf :=
          default 0%float (opt_add_gauss_noise_to_make_lf argv);
        add_descriptor_bias_to_make_lf :=
          default 0%float (opt_add_descriptor_bias_to_make_lf argv);
        split_type := st;
        lf_hf_size_ratio := default 1 (opt_lf_hf_size_ratio argv);
        lf_superset_of_hf := sup;
        seed := default 0 (opt_seed argv);
        results_dir := default "results" (opt_results_dir argv) |}.

(** Lines 27-36: the two checks at the top of [main]. *)
Definition validate (args : Args) : result unit :=
  if bool_decide (model_type args = "single_fidelity")
     && ((0 <? add_pn_bias_to_make_lf args)
         || (0 <? add_gauss_noise_to_make_lf args)%float
         || (0 <? add_descriptor_bias_to_make_lf args)%float)
  then Raise ValueError
  else if bool_decide (model_type args ∈
            ["multi_fidelity_weight_sharing_non_diff"; "trad_delta_ml"])
  then Raise NotImplementedError
  else Ok ().

(** *** Dataframes *)

(** A pandas dataframe with float columns: the row labels in row order, and
    the columns by name, each as long as the index. *)
Record DataFrame : Type := mkDataFrame {
  index : list string;
  columns : gmap string (list float);
}.

(** [df[c]] *)
Definition getcol (df : DataFrame) (c : string) : result (list float) :=
  match columns df !! c with
  | Some col => Ok col
  | None => Raise KeyError
  end.

(** [df[c] = col], for a column computed from [df]'s own rows. *)
Definition setcol (df : DataFrame) (c : string) (col : list float) : DataFrame :=
  {| index := index df; columns := <[c := col]> (columns df) |}.

(** [df.drop(c, axis=1)] *)
Definition dropcol (df : DataFrame) (c : string) : result DataFrame :=
  match columns df !! c with
  | Some _ => Ok {| index := index df; columns := delete c (columns df) |}
  | None => Raise KeyError
  end.

(** The rows at the given positions, in that order. *)
Definition select {A} (ps : list nat) (l : list A) : list A :=
  omap (λ p, l !! p) ps.

Definition take_rows (ps : list nat) (df : DataFrame) : DataFrame :=
  {| index := select ps (index df); columns := select ps <$> columns df |}.

(** The positions of the rows whose label satisfies [keep]. *)
Definition positions (keep : string → bool) (idx : list string) : list nat :=
  filter (λ i, from_option keep false (idx !! i) = true) (seq 0 (length idx)).

(** [df.drop(index=labels)]: every row carrying one of the labels goes; a
    label that no row carries raises [KeyError]. *)
Definition drop_rows (labels : list string) (df : DataFrame) : result DataFrame :=
  if forallb (λ s, bool_decide (s ∈ index df)) labels
  then Ok (take_rows (positions (λ s, negb (bool_decide (s ∈ labels))) (index df)) df)
  else Raise KeyError.

(** The positions [df.loc[labels]] selects: for each label in turn every row
    that carries it; a label that no row carries raises [KeyError]. *)
Definition loc_positions (labels : list string) (idx : list string) : result (list nat) :=
  (λ pss, concat pss)
    <$> mapM (λ s, match positions (λ s', bool_decide (s' = s)) idx with
                   | [] => Raise KeyError
                   | ps => Ok ps
                   end) labels.

(** [df.loc[labels][[c1, ..., ck]].values]: one row of [k] values per
    selected row. *)
Definition loc_values (df : DataFrame) (labels : list string) (cols : list string)
  : result (list (list float)) :=
  ps ← loc_positions labels (index df);
  cs ← mapM (getcol df) cols;
  Ok ((λ p, omap (λ col : list float, col !! p) (cs : list (list float)))
        <$> (ps : list nat)).

(** [df[c].loc[labels] = v], writing through to [df]. *)
Definition set_at (df : DataFrame) (c : string) (labels : list string) (v : float)
  : result DataFrame :=
  col ← getcol df c;
  ps ← loc_positions labels (index df);
  Ok (setcol df c (foldr (λ p acc, <[p := v]> acc) col (ps : list nat))).

(** [series + array]: numpy broadcasting, then the result must be as long as
    the series. *)
Definition add_array (s a : list float) : result (list float) :=
  if bool_decide (length a = length s) then Ok (zip_with PrimFloat.add s a)
  else match a with
       | [x] => Ok ((λ y, y + x)%float <$> s)
       | _ => Raise ValueError
       end.

(** [series + scalar] *)
Definition add_scalar (s : list float) (x : float) : list float :=
  (λ y, y + x)%float <$> s.

(** [np.polyval(p, xs)]: Horner's scheme from the leading coefficient, on
    every entry of [xs]. *)
Definition polyval (p : list float) (xs : list float) : list float :=
  (λ x, foldl (λ y c, y * x + c)%float 0%float p) <$> xs.

(** *** What the script calls outside itself *)

(** Lines 101-107: the RDKit descriptors of the descriptor bias. *)
Inductive descriptor : Type :=
| qed | MolWt | BalabanJ | BertzCT | HallKierAlpha | Ipc | Kappa1 | Kappa2
| Kappa3 | LabuteASA | TPSA | MolLogP | MolMR.

Definition descriptors : list descriptor :=
  [qed; MolWt; BalabanJ; BertzCT; HallKierAlpha; Ipc; Kappa1; Kappa2; Kappa3;
   LabuteASA; TPSA; MolLogP; MolMR].

(** A datapoint, [data.MoleculeDatapoint(smi, targets, features=...)]. *)
Record MoleculeDatapoint : Type := mkDatapoint {
  smi : string;
  dp_targets : list float;
  dp_features : option (list float);
}.

(** The libraries and the modules of the repository that [main] calls and
    that are not part of the script: numpy's global random generator,
    [noisefunctions], [splitfunctions], pandas' sampling and CSV reader,
    scikit-learn's metrics and scaler, and the training loop. *)
Record externals : Type := mkExternals {
  (** the state of [np.random] *)
  rng : Type;
  (** [np.random.seed(seed)] *)
  np_random_seed : Z → rng;
  (** [np.random.uniform(low, high, size)] *)
  np_random_uniform : float → float → Z → rng → list float * rng;
  (** [gauss_noise(df_len=, std=, seed=)] of [noisefunctions] *)
  gauss_noise : Z → float → Z → list float;
  (** [descriptor_bias(data_df, descriptors_coefficients)] of
      [noisefunctions] *)
  descriptor_bias : DataFrame → list (descriptor * float) → list float;
  (** [pd.read_csv(file, index_col=...)]: the named column becomes the index *)
  read_csv : string → string → result DataFrame;
  (** [datetime.now().strftime(...)] *)
  now : string;
  (** [df.sample(frac=1/d, random_state=seed)], as the positions of the
      sampled rows *)
  df_sample : DataFrame → Z → Z → result (list nat);
  (** [split_by_prop_dict[split_type](df=df)] of [splitfunctions]: the train
      and the test labels *)
  split_by_prop : string → DataFrame → result (list string * list string);
  (** [train_test_split(train_data, test_size=0.11, random_state=seed)] *)
  train_test_split : list MoleculeDatapoint → Z
                     → list MoleculeDatapoint * list MoleculeDatapoint;
  (** lines 196-199: the train, validation and test datapoints as
      [normalize_targets] leaves them *)
  normalize_targets :
    list MoleculeDatapoint * list MoleculeDatapoint * list MoleculeDatapoint
    → list MoleculeDatapoint * list MoleculeDatapoint * list MoleculeDatapoint;
  (** fitting the model on the train and validation loaders and predicting
      on the test loader (lines 192-230): the list [trainer.predict]
      returns, each element as a row of values, after the conversion of line
      269 or 274 for the model types that have one *)
  fit_predict : Args → list MoleculeDatapoint → list MoleculeDatapoint
                → list MoleculeDatapoint → result (list (list float));
  (** [test_scaler.inverse_transform] on rows *)
  inverse_transform : list (list float) → list (list float);
  (** [train_scaler.inverse_transform] on rows *)
  train_inverse_transform : list (list float) → list (list float);
  (** the three scikit-learn calls of [eval_metrics]: MAE, RMSE and R2 *)
  sk_metrics : list float → list float → result (float * float * float);
}.

(** *** Effects *)

(** A column of a CSV file the script writes. *)
Inductive csv_column : Type :=
| Floats (values : list float)
| Strings (values : list string).

(** What a run does to the file system, the random generators and the
    models, in order.  Lines printed to standard output are not recorded. *)
Inductive event : Type :=
| Makedirs (path : string)
| Chdir (path : string)
| Mkdir (path : string)
| DumpArgs (file : string) (args : Args)
| SeedEverything (seed : Z)
| BuildModels
| ReadCsv (file : string) (index_col : string)
| FrameToCsv (file : string) (df : DataFrame)
| ToCsv (file : string) (cols : list (string * csv_column))
| SaveFig (file : string)
| FitAndPredict.

(** A step of [main]: it may raise, and it extends the trace of events; the
    trace up to an exception is kept. *)
Definition M (A : Type) : Type := list event → result A * list event.

#[global] Instance M_ret : MRet M := λ A a t, (Ok a, t).
#[global] Instance M_bind : MBind M := λ A B k m t,
  match m t with
  | (Ok a, t') => k a t'
  | (Raise e, t') => (Raise e, t')
  end.

Definition emit (e : event) : M unit := λ t, (Ok (), t ++ [e]).
Definition lift {A} (r : result A) : M A := λ t, (r, t).

(** Whatever a step does, the events so far stay. *)
Definition extends {A} (m : M A) : Prop :=
  ∀ t, ∃ t', (m t).2 = t ++ t'.

(** *** Synthesizing the low-fidelity column (lines 83-112) *)

Definition is_single (args : Args) : bool :=
  bool_decide (model_type args = "single_fidelity").

(** Lines 84-85 *)
Definition init_lf (args : Args) (df : DataFrame) : result DataFrame :=
  if negb (is_single args)
  then hf ← getcol df (hf_col_name args); Ok (setcol df (lf_col_name args) hf)
  else Ok df.

Section make_lf.
Variable ext : externals.
Variable args : Args.
Let hf := hf_col_name args.
Let lf := lf_col_name args.

(** Lines 87-91 *)
Definition add_pn_bias (st : DataFrame * rng ext) : result (DataFrame * rng ext) :=
  let '(df, g) := st in
  if 0 <? add_pn_bias_to_make_lf args then
    let '(coefficients, g') :=
      np_random_uniform ext (-1)%float 1%float (add_pn_bias_to_make_lf args + 1) g in
    l ← getcol df lf;
    h ← getcol df hf;
    new ← add_array l (polyval coefficients h);
    Ok (setcol df lf new, g')
  else Ok st.

(** Lines 93-95 *)
Definition add_constant_bias (st : DataFrame * rng ext) : result (DataFrame * rng ext) :=
  let '(df, g) := st in
  if negb (add_constant_bias_to_make_lf args =? 0)%float then
    l ← getcol df lf;
    Ok (setcol df lf (add_scalar l (add_constant_bias_to_make_lf args)), g)
  else Ok st.

(** Lines 97-98 *)
Definition add_gauss_noise (st : DataFrame * rng ext) : result (DataFrame * rng ext) :=
  let '(df, g) := st in
  if (0 <? add_gauss_noise_to_make_lf args)%float then
    l ← getcol df lf;
    new ← add_array l (gauss_noise ext (len l) (add_gauss_noise_to_make_lf args)
                                   (seed args));
    Ok (setcol df lf new, g)
  else Ok st.

(** Lines 100-112 *)
Definition add_descriptor_bias (st : DataFrame * rng ext) : result (DataFrame * rng ext) :=
  let '(df, g) := st in
  if negb (add_descriptor_bias_to_make_lf args =? 0)%float then
    let '(u, g') := np_random_uniform ext (-1)%float 1%float (len descriptors) g in
    let coefficients := (λ c, c * add_descriptor_bias_to_make_lf args)%float <$> u in
    let descriptors_coefficients := zip descriptors coefficients in
    l ← getcol df lf;
    new ← add_array l (descriptor_bias ext df descriptors_coefficients);
    Ok (setcol df lf new, g')
  else Ok st.

(** Lines 83-112 *)
Definition make_lf (df : DataFrame) (g : rng ext) : result (DataFrame * rng ext) :=
  df0 ← init_lf args df;
  st1 ← add_pn_bias (df0, g);
  st2 ← add_constant_bias st1;
  st3 ← add_gauss_noise st2;
  add_descriptor_bias st3.
End make_lf.

(** Lines 347-374: [export_and_plot_hf_lf_data] *)
Definition export_and_plot_hf_lf_data (df : DataFrame) (args : Args) : M unit :=
  emit (FrameToCsv "lf_hf_targets.csv" df);;
  _ ← lift (getcol df (lf_col_name args));
  _ ← lift (getcol df (hf_col_name args));
  emit (SaveFig "lf_vs_hf_targets.png").

(** *** Splitting into high- and low-fidelity data (lines 117-187) *)

(** The local variables lines 117-174 leave behind. *)
Record prepared : Type := mkPrepared {
  p_data_df : DataFrame;
  p_train_index : list string;
  p_test_index : list string;
  p_train_t : list (list float);
  p_test_t : list (list float);
  p_train_oracle : list (list float);
  p_test_oracle : list (list float);
}.

Section prepare.
Variable ext : externals.
Variable args : Args.
Let hf := hf_col_name args.
Let lf := lf_col_name args.

(** Lines 132-139: the two frames before their columns are dropped.
    [1 / n] raises [ZeroDivisionError] when [n] is 0. *)
Definition sample_frames (data_df : DataFrame) : result (DataFrame * DataFrame) :=
  if lf_superset_of_hf args then
    if lf_hf_size_ratio args =? 0 then Raise ZeroDivisionError
    else
      let lf_df := data_df in
      ps ← df_sample ext data_df (lf_hf_size_ratio args) (seed args);
      Ok (take_rows ps data_df, lf_df)
  else
    if lf_hf_size_ratio args + 1 =? 0 then Raise ZeroDivisionError
    else
      ps ← df_sample ext data_df (lf_hf_size_ratio args + 1) (seed args);
      let hf_df := take_rows ps data_df in
      lf_df ← drop_rows (index hf_df) data_df;
      Ok (hf_df, lf_df).

(** Lines 132-143 *)
Definition hf_lf_frames (data_df : DataFrame) : result (DataFrame * DataFrame) :=
  '(hf_df, lf_df) ← sample_frames data_df;
  hf_df' ← dropcol hf_df lf;
  lf_df' ← dropcol lf_df hf;
  Ok (hf_df', lf_df').

(** Lines 117-128 *)
Definition prepare_single (data_df : DataFrame) : result prepared :=
  _ ← getcol data_df hf;
  '(hf_train_index, hf_test_index) ← split_by_prop ext (split_type args) data_df;
  let train_index := hf_train_index in
  let test_index := hf_test_index in
  train_t ← loc_values data_df train_index [hf];
  test_t ← loc_values data_df test_index [hf];
  Ok {| p_data_df := data_df;
        p_train_index := train_index; p_test_index := test_index;
        p_train_t := train_t; p_test_t := test_t;
        p_train_oracle := []; p_test_oracle := [] |}.

(** Lines 130-174 *)
Definition prepare_multi (data_df : DataFrame) : result prepared :=
  '(hf_df, lf_df) ← hf_lf_frames data_df;
  '(hf_train_index, hf_test_index) ← split_by_prop ext (split_type args) hf_df;
  '(lf_train_index, lf_test_index) ← split_by_prop ext (split_type args) lf_df;
  let train_index := lf_train_index ++ hf_train_index in
  let test_index := lf_test_index ++ hf_test_index in
  if bool_decide (model_type args = "delta_ml") then
    train_oracle ← loc_values data_df train_index [lf];
    test_oracle ← loc_values data_df test_index [lf];
    train_t ← loc_values data_df train_index [hf];
    test_t ← loc_values data_df test_index [hf];
    Ok {| p_data_df := data_df;
          p_train_index := train_index; p_test_index := test_index;
          p_train_t := train_t; p_test_t := test_t;
          p_train_oracle := train_oracle; p_test_oracle := test_oracle |}
  else
    let lf_not_hf_index :=
      remove_dups (list_difference (lf_train_index ++ lf_test_index)
                                   (hf_train_index ++ hf_test_index)) in
    df1 ← set_at data_df hf lf_not_hf_index nan;
    df2 ← (if negb (lf_superset_of_hf args)
           then set_at df1 lf (hf_train_index ++ hf_test_index) nan
           else Ok df1);
    train_t ← loc_values df2 train_index [lf; hf];
    test_t ← loc_values df2 test_index [lf; hf];
    Ok {| p_data_df := df2;
          p_train_index := train_index; p_test_index := test_index;
          p_train_t := train_t; p_test_t := test_t;
          p_train_oracle := []; p_test_oracle := [] |}.

(** Lines 117-174 *)
Definition prepare (data_df : DataFrame) : result prepared :=
  if is_single args then prepare_single data_df else prepare_multi data_df.

(** Lines 181-187: [zip] stops at the shortest of its arguments. *)
Definition datapoints (index : list string) (t oracle : list (list float))
  : list MoleculeDatapoint :=
  if bool_decide (model_type args = "delta_ml")
  then zip_with (λ smi to, mkDatapoint smi to.1 (Some to.2)) index (zip t oracle)
  else zip_with (λ smi t, mkDatapoint smi t None) index t.

Definition train_data_of (p : prepared) : list MoleculeDatapoint :=
  datapoints (p_train_index p) (p_train_t p) (p_train_oracle p).
Definition test_data_of (p : prepared) : list MoleculeDatapoint :=
  datapoints (p_test_index p) (p_test_t p) (p_test_oracle p).
End prepare.

(** *** Evaluation (lines 232-344) *)

(** The four lists the loop of lines 285-293 fills. *)
Record by_fidelity : Type := mkByFidelity {
  targets_lf : list float;
  targets_hf : list float;
  preds_lf : list float;
  preds_hf : list float;
}.

(** Lines 286-293: the body of [for target, pred in zip(targets, preds)]. *)
Definition collect (acc : by_fidelity) (tp : list float * list float)
  : result by_fidelity :=
  let '(target, pred) := tp in
  t0 ← getitem target 0;
  acc1 ← (if negb (is_nan t0)
          then p0 ← getitem pred 0;
               Ok {| targets_lf := targets_lf acc ++ [t0]; targets_hf := targets_hf acc;
                     preds_lf := preds_lf acc ++ [p0]; preds_hf := preds_hf acc |}
          else Ok acc);
  t1 ← getitem target 1;
  if negb (is_nan t1)
  then p1 ← getitem pred 1;
       Ok {| targets_lf := targets_lf acc1; targets_hf := targets_hf acc1 ++ [t1];
             preds_lf := preds_lf acc1; preds_hf := preds_hf acc1 ++ [p1] |}
  else Ok acc1.

(** Lines 247-248 and 304-305: the one-row frame of metrics. *)
Definition metrics_df (hf lf : float * float * float) : list (string * csv_column) :=
  [("MAE_hf", Floats [hf.1.1]); ("RMSE_hf", Floats [hf.1.2]); ("R2_hf", Floats [hf.2]);
   ("MAE_lf", Floats [lf.1.1]); ("RMSE_lf", Floats [lf.1.2]); ("R2_lf", Floats [lf.2])].

(** [rows[:, j]] on a two-dimensional array; an array without rows is
    one-dimensional and the index raises. *)
Definition column (j : Z) (rows : list (list float)) : result (list float) :=
  match rows with
  | [] => Raise IndexError
  | _ => mapM (λ r, getitem r j) rows
  end.

(** A dict literal: a key given twice keeps its first place and its last
    value. *)
Fixpoint dict_set {V} (k : string) (v : V) (d : list (string * V)) : list (string * V) :=
  match d with
  | [] => [(k, v)]
  | (k', v') :: d' =>
      if bool_decide (k = k') then (k, v) :: d' else (k', v') :: dict_set k v d'
  end.
Definition dict_of {V} (kvs : list (string * V)) : list (string * V) :=
  foldl (λ d kv, dict_set kv.1 kv.2 d) [] kvs.

Definition column_len (c : csv_column) : nat :=
  match c with
  | Floats v => length v
  | Strings v => length v
  end.

(** [pd.DataFrame(dict)]: the columns must have one length. *)
Definition data_frame (d : list (string * csv_column))
  : result (list (string * csv_column)) :=
  match d with
  | [] => Ok []
  | (_, c) :: _ =>
      if forallb (λ kv, bool_decide (column_len kv.2 = column_len c)) d
      then Ok d else Raise ValueError
  end.

(** [min(l)] and [max(l)] of the plot annotations raise on an empty
    sequence. *)
Definition non_empty (l : list float) : result unit :=
  match l with
  | [] => Raise ValueError
  | _ => Ok ()
  end.

Section evaluate.
Variable ext : externals.
Variable args : Args.

(** Lines 415-422: [eval_metrics] *)
Definition eval_metrics (targets preds : list float) : result (float * float * float) :=
  sk_metrics ext targets preds.

(** Lines 234-266: the single-fidelity branch.  [preds] holds one row per
    element of [trainer.predict]'s result. *)
Definition evaluate_single (test_data : list MoleculeDatapoint)
    (preds : list (list float)) : M unit :=
  let test_smis := smi <$> test_data in
  preds ← lift (mapM (λ x, getitem x 0) preds);
  targets ← lift (mapM (λ x, getitem (dp_targets x) 0) test_data);
  let preds := if scale_data args
               then concat (inverse_transform ext ((λ x, [x]) <$> preds)) else preds in
  let targets := if scale_data args
                 then concat (inverse_transform ext ((λ x, [x]) <$> targets)) else targets in
  '(mae, rmse, r2) ← lift (eval_metrics targets preds);
  emit (ToCsv "test_metrics.csv" (metrics_df (mae, rmse, r2) (nan, nan, nan)));;
  (if save_test_plot args
   then lift (non_empty targets);; lift (non_empty preds);;
        emit (SaveFig "mf_test_preds.png")
   else mret ());;
  test_df ← lift (data_frame
                    (dict_of [("smiles", Strings test_smis);
                              (hf_col_name args, Floats targets);
                              (hf_col_name args +:+ "_preds", Floats preds)]));
  emit (ToCsv "mf_test_preds.csv" test_df).

(** Lines 267-339: every other model type. *)
Definition evaluate_multi (test_data : list MoleculeDatapoint)
    (preds : list (list float)) : M unit :=
  let test_smis := smi <$> test_data in
  let targets := dp_targets <$> test_data in
  let preds := if scale_data args then inverse_transform ext preds else preds in
  let targets := if scale_data args then inverse_transform ext targets else targets in
  acc ← lift (foldM collect (mkByFidelity [] [] [] []) (zip targets preds));
  hfm ← lift (eval_metrics (targets_hf acc) (preds_hf acc));
  lfm ← lift (eval_metrics (targets_lf acc) (preds_lf acc));
  emit (ToCsv "test_metrics.csv" (metrics_df hfm lfm));;
  (if save_test_plot args
   then lift (non_empty (targets_hf acc));; lift (non_empty (preds_hf acc));;
        lift (non_empty (targets_lf acc));; lift (non_empty (preds_lf acc));;
        emit (SaveFig "mf_test_preds.png")
   else mret ());;
  t1 ← lift (column 1 targets);
  p1 ← lift (column 1 preds);
  t0 ← lift (column 0 targets);
  p0 ← lift (column 0 preds);
  test_df ← lift (data_frame
                    (dict_of [("smiles", Strings test_smis);
                              (hf_col_name args, Floats t1);
                              (hf_col_name args +:+ "_preds", Floats p1);
                              (lf_col_name args, Floats t0);
                              (lf_col_name args +:+ "_preds", Floats p0)]));
  emit (ToCsv "mf_test_preds.csv" test_df).

(** Lines 234-341 *)
Definition evaluate (test_data : list MoleculeDatapoint) (preds : list (list float))
  : M unit :=
  if is_single args then evaluate_single test_data preds
  else evaluate_multi test_data preds.

(** Lines 377-412: the function [export_train_and_val] (the name without
    suffix is the command-line flag) *)
Definition export_train_and_val_fn (train_data val_data : list MoleculeDatapoint)
  : M unit :=
  let train_smis := smi <$> train_data in
  let val_smis := smi <$> val_data in
  if is_single args then
    train_targets ← lift (mapM (λ x, getitem (dp_targets x) 0) train_data);
    val_targets ← lift (mapM (λ x, getitem (dp_targets x) 0) val_data);
    let unscale (ts : list float) :=
      if scale_data args
      then concat (train_inverse_transform ext ((λ x, [x]) <$> ts))
      else ts in
    train_df ← lift (data_frame
                       (dict_of [("smiles", Strings train_smis);
                                 (hf_col_name args, Floats (unscale train_targets))]));
    val_df ← lift (data_frame
                     (dict_of [("smiles", Strings val_smis);
                               (hf_col_name args, Floats (unscale val_targets))]));
    emit (ToCsv "mf_train.csv" train_df);;
    emit (ToCsv "mf_val.csv" val_df)
  else
    let unscale (ts : list (list float)) :=
      if scale_data args then train_inverse_transform ext ts else ts in
    let train_targets := unscale (dp_targets <$> train_data) in
    let val_targets := unscale (dp_targets <$> val_data) in
    train_lf ← lift (column 0 train_targets);
    val_lf ← lift (column 0 val_targets);
    train_hf ← lift (column 1 train_targets);
    val_hf ← lift (column 1 val_targets);
    train_df ← lift (data_frame
                       (dict_of [("smiles", Strings train_smis);
                                 (lf_col_name args, Floats train_lf);
                                 (hf_col_name args, Floats train_hf)]));
    val_df ← lift (data_frame
                     (dict_of [("smiles", Strings val_smis);
                               (lf_col_name args, Floats val_lf);
                               (hf_col_name args, Floats val_hf)]));
    emit (ToCsv "mf_train.csv" train_df);;
    emit (ToCsv "mf_val.csv" val_df).

(** Lines 343-344: [train_scaler] is bound only when [scale_data] is set. *)
Definition export_if_asked (train_data val_data : list MoleculeDatapoint) : M unit :=
  if export_train_and_val args then
    if scale_data args then export_train_and_val_fn train_data val_data
    else lift (Raise UnboundLocalError)
  else mret ().
End evaluate.

(** *** [main] (lines 22-344) *)

(** Lines 60-74: the keys of [model_dict]. *)
Definition model_dict_keys : list string :=
  ["single_fidelity"; "multi_target"; "multi_fidelity";
   "multi_fidelity_weight_sharing"; "delta_ml"; "trad_ delta_ml"].

(** Line 81 *)
Definition load_data (ext : externals) (args : Args) : M DataFrame :=
  emit (ReadCsv (data_file args) "smiles");;
  lift (read_csv ext (data_file args) "smiles").

(** Lines 38-344: [main] past its two checks. *)
Definition run (ext : externals) (args : Args) : M unit :=
  emit (Makedirs (results_dir args));;
  emit (Chdir (results_dir args));;
  emit (Mkdir (now ext));;
  emit (Chdir (now ext));;
  emit (DumpArgs "args.json" args);;
  emit (SeedEverything (seed args));;
  emit BuildModels;;
  (if bool_decide (model_type args ∈ model_dict_keys) then mret ()
   else lift (Raise KeyError));;
  data_df ← load_data ext args;
  '(data_df, _) ← lift (make_lf ext args data_df (np_random_seed ext (seed args)));
  (if negb (is_single args) then export_and_plot_hf_lf_data data_df args
   else mret ());;
  p ← lift (prepare ext args data_df);
  let train_data := train_data_of args p in
  let test_data := test_data_of args p in
  let '(train_data, val_data) := train_test_split ext train_data (seed args) in
  let '(train_data, val_data, test_data) :=
    if scale_data args then normalize_targets ext (train_data, val_data, test_data)
    else (train_data, val_data, test_data) in
  emit FitAndPredict;;
  preds ← lift (fit_predict ext args train_data val_data test_data);
  evaluate ext args test_data preds;;
  export_if_asked ext args train_data val_data.

(** Lines 22-344 *)
Definition main (ext : externals) (argv : Argv) : M unit :=
  args ← lift (parse_args argv);
  lift (validate args);;
  run ext args.

(** *** A small world to run the script in *)

(** Four molecules with their high-fidelity value. *)
Definition toy_frame : DataFrame :=
  {| index := ["C"; "CC"; "CCC"; "CCO"];
     columns := {[ "h298" := [1; 2; 3; 4]%float ]} |}.

(** Deterministic stand-ins for the libraries: the generator always draws
    0.5, the noise is a constant 0.25, a sample is the first [n / d] rows, a
    split sends the last label to the test set, the model predicts 0. *)
Definition toy_externals : externals :=
  {| rng := unit;
     np_random_seed := λ _, ();
     np_random_uniform := λ _ _ size g, (replicate (Z.to_nat size) 0.5%float, g);
     gauss_noise := λ n _ _, replicate (Z.to_nat n) 0.25%float;
     descriptor_bias := λ df _, replicate (length (index df)) 1%float;
     read_csv := λ _ _, Ok toy_frame;
     now := "2023-01-01_00-00-00.000000";
     df_sample := λ df d _,
       if d <=? 0 then Raise ValueError
       else Ok (seq 0 (Z.to_nat (len (index df) / d)));
     split_by_prop := λ _ df,
       Ok (take (length (index df) - 1) (index df),
           drop (length (index df) - 1) (index df));
     train_test_split := λ l _, (l, []);
     normalize_targets := λ sets, sets;
     fit_predict := λ _ _ _ test, Ok ((λ _, [0; 0]%float) <$> test);
     inverse_transform := λ rows, rows;
     train_inverse_transform := λ rows, rows;
     sk_metrics := λ t _, match t with
                          | [] => Raise ValueError
                          | _ => Ok (0, 0, 1)%float
                          end |}.

(** The command line [--model_type m]. *)
Definition only_model_type (m : string) : Argv :=
  mkArgv (Some m) None None None None None None None None None None None None
         None None None None.

(** *** The low-fidelity column in the words of the specification

    The column starts as a copy [h] of the high-fidelity column; each enabled
    degradation is then added onto the running column [l]. *)
Section synthesized.
Variable ext : externals.
Variable args : Args.

(** the polynomial of the requested order, coefficients uniform in
    [-1, 1], evaluated on the high-fidelity values *)
Definition with_polynomial (g : rng ext) (h l : list float) : list float :=
  if 0 <? add_pn_bias_to_make_lf args
  then zip_with PrimFloat.add l
         (polyval (np_random_uniform ext (-1)%float 1%float
                     (add_pn_bias_to_make_lf args + 1) g).1 h)
  else l.

Definition rng_after_polynomial (g : rng ext) : rng ext :=
  if 0 <? add_pn_bias_to_make_lf args
  then (np_random_uniform ext (-1)%float 1%float
          (add_pn_bias_to_make_lf args + 1) g).2
  else g.

(** the constant *)
Definition with_constant (l : list float) : list float :=
  if negb (add_constant_bias_to_make_lf args =? 0)%float
  then (λ y, y + add_constant_bias_to_make_lf args)%float <$> l
  else l.

(** seeded Gaussian noise of the requested standard deviation *)
Definition with_gauss (l : list float) : list float :=
  if (0 <? add_gauss_noise_to_make_lf args)%float
  then zip_with PrimFloat.add l
         (gauss_noise ext (len l) (add_gauss_noise_to_make_lf args) (seed args))
  else l.

(** the bias of the 13 descriptors, weighted by uniform draws from
    [-1, 1] scaled by the flag *)
Definition with_descriptors (df : DataFrame) (g : rng ext) (l : list float)
  : list float :=
  if negb (add_descriptor_bias_to_make_lf args =? 0)%float
  then zip_with PrimFloat.add l
         (descriptor_bias ext (setcol df (lf_col_name args) l)
            (zip descriptors
               ((λ c, c * add_descriptor_bias_to_make_lf args)%float
                  <$> (np_random_uniform ext (-1)%float 1%float 13 g).1)))
  else l.

Definition synthesized_lf (df : DataFrame) (g : rng ext) (h : list float)
  : list float :=
  with_descriptors df (rng_after_polynomial g)
    (with_gauss (with_constant (with_polynomial g h h))).
End synthesized.

(** What the theorems assume of [noisefunctions]: both functions return one
    value per row. *)
Definition noise_per_row (ext : externals) : Prop :=
  (∀ n std s, length (gauss_noise ext n std s) = Z.to_nat n) ∧
  (∀ df dc, length (descriptor_bias ext df dc) = length (index df)).

(** The command line [--model_type multi_target --add_pn_bias_to_make_lf 2
    --add_constant_bias_to_make_lf 1.5] on the four toy molecules. *)
Definition toy_multi_target : Args :=
  mkArgs "multi_target" "data.csv" "h298" "h298_lf" false false 30 false
         2 1.5%float 0%float 0%float "random" 1 false 0 "results".

(** The same run with [--lf_col_name h298]: the one column is both, and the
    constant lands on the high-fidelity values. *)
Definition toy_same_column : Args :=
  mkArgs "multi_target" "data.csv" "h298" "h298" false false 30 false
         0 1.5%float 0%float 0%float "random" 1 false 0 "results".

(** The positions of the rows a sample leaves behind, in row order. *)
Definition remaining (ps : list nat) (n : nat) : list nat :=
  filter (λ i, i ∉ ps) (seq 0 n).

(** The denominator [d] of the sampled fraction [1 / d] (lines 133, 137). *)
Definition hf_denominator (args : Args) : Z :=
  if lf_superset_of_hf args then lf_hf_size_ratio args
  else lf_hf_size_ratio args + 1.

(** The toy frame once the low-fidelity column has been synthesized. *)
Definition toy_two_columns : DataFrame :=
  setcol toy_frame "h298_lf" [2.5; 3.5; 4.5; 5.5]%float.

(** *** The rows behind the metrics, in the words of the specification *)

(** Entry [j] of a row that has one. *)
Definition entry (j : nat) (r : list float) : float := default 0%float (r !! j).

(** The (target row, prediction row) pairs whose target [j] is not NaN:
    [j = 0] is the low-fidelity target, [j = 1] the high-fidelity one. *)
Definition rows_with (j : nat) (targets preds : list (list float))
  : list (list float * list float) :=
  filter (λ tp, is_nan (entry j tp.1) = false) (zip targets preds).

Definition targets_with (j : nat) (targets preds : list (list float)) : list float :=
  (λ tp, entry j tp.1) <$> rows_with j targets preds.
Definition preds_with (j : nat) (targets preds : list (list float)) : list float :=
  (λ tp, entry j tp.2) <$> rows_with j targets preds.

(** Lines 279-281 *)
Definition unscaled (ext : externals) (args : Args) (rows : list (list float))
  : list (list float) :=
  if scale_data args then inverse_transform ext rows else rows.

(** Lines 238-243: the same for a flat list, through a one-column array. *)
Definition unscaled_flat (ext : externals) (args : Args) (l : list float) : list float :=
  if scale_data args then concat (inverse_transform ext ((λ x, [x]) <$> l)) else l.

(** Whether a run has written the file of that name. *)
Definition wrote (file : string) (t : list event) : bool :=
  existsb (λ ev, match ev with
                 | DumpArgs f _ | FrameToCsv f _ | ToCsv f _ | SaveFig f =>
                     bool_decide (f = file)
                 | _ => false
                 end) t.

(** The test datapoints and predictions of the toy multi-target run. *)
Definition toy_test_data : list MoleculeDatapoint :=
  [mkDatapoint "CCO" [4%float; nan] None; mkDatapoint "CC" [nan; 2%float] None].
Definition toy_preds : list (list float) := [[0; 0]; [0; 0]]%float.

(** *** The datapoints in the words of the script's comments *)

(** The values the row at position [pos] has in the named columns. *)
Definition row_of (df : DataFrame) (pos : nat) (cols : list string) : list float :=
  omap (λ c, columns df !! c ≫= (λ col : list float, col !! pos)) cols.

(** The columns that make up a datapoint's targets (lines 127, 162, 173). *)
Definition target_columns (args : Args) : list string :=
  if is_single args then [hf_col_name args]
  else if bool_decide (model_type args = "delta_ml") then [hf_col_name args]
  else [lf_col_name args; hf_col_name args].

(** The datapoint of the molecule [s] when its row is the one at [pos]:
    the targets, and for delta learning the low-fidelity value as the
    feature. *)
Definition datapoint_of (args : Args) (df : DataFrame) (s : string) (pos : nat)
  : MoleculeDatapoint :=
  mkDatapoint s (row_of df pos (target_columns args))
    (if bool_decide (model_type args = "delta_ml")
     then Some (row_of df pos [lf_col_name args]) else None).

(** A frame whose columns all have one value per row. *)
Definition rectangular (df : DataFrame) : Prop :=
  ∀ c col, columns df !! c = Some col → length col = length (index df).

End EndToEnd.

(** * Properties *)

(** ** Computations that may raise *)

Lemma bind_Ok {A B} (a : A) (k : A → result B) : (Ok a ≫= k) = k a.
Proof. reflexivity. Qed.

Lemma bind_Raise {A B} (e : exn) (k : A → result B) : (Raise e ≫= k) = Raise e.
Proof. reflexivity. Qed.

(** Peel the first statement off a computation that returned. *)
Ltac inv_bind H :=
  match type of H with
  | (?r ≫= _) = Ok _ =>
      let E := fresh "E" in
      destruct r eqn:E; [rewrite bind_Ok in H | rewrite bind_Raise in H; discriminate H]
  end.

(** ** Command line: [str2bool] and the checks at the top of [main] *)

Section command_line.
Import EndToEnd.

Lemma truthy_not_falsy (s : string) : s ∈ truthy → s ∉ falsy.
Proof.
  unfold truthy, falsy. rewrite !elem_of_cons, !elem_of_nil.
  intros H1 H2. intuition (subst; discriminate).
Qed.

Example str2bool_upper : str2bool (VStr "TRUE") = Ok true.
Proof. reflexivity. Qed.

Example str2bool_mixed : str2bool (VStr "No") = Ok false.
Proof. reflexivity. Qed.

Example str2bool_other : str2bool (VStr "maybe") = Raise ArgumentTypeError.
Proof. reflexivity. Qed.

(** C8: [str2bool] returns a bool unchanged; on a string it returns [True]
    exactly when the lower-cased string is one of 'yes', 'true', 't', 'y',
    '1', [False] exactly when it is one of 'no', 'false', 'f', 'n', '0', and
    raises [ArgumentTypeError] on every other string. *)
Theorem str2bool_spec :
  (∀ b : bool, str2bool (VBool b) = Ok b) ∧
  (∀ s : string,
     (str2bool (VStr s) = Ok true ↔ lower s ∈ ["yes"; "true"; "t"; "y"; "1"]) ∧
     (str2bool (VStr s) = Ok false ↔ lower s ∈ ["no"; "false"; "f"; "n"; "0"]) ∧
     (str2bool (VStr s) = Raise ArgumentTypeError ↔
        (lower s ∉ ["yes"; "true"; "t"; "y"; "1"]) ∧
        (lower s ∉ ["no"; "false"; "f"; "n"; "0"]))).
Proof.
  split; [reflexivity|]. intros s.
  change ["yes"; "true"; "t"; "y"; "1"] with truthy.
  change ["no"; "false"; "f"; "n"; "0"] with falsy.
  unfold str2bool.
  destruct (decide (lower s ∈ truthy)) as [Ht|Ht].
  - rewrite (bool_decide_eq_true_2 _ Ht).
    pose proof (truthy_not_falsy _ Ht) as Hf.
    repeat split; intros; try done; tauto.
  - rewrite (bool_decide_eq_false_2 _ Ht).
    destruct (decide (lower s ∈ falsy)) as [Hf|Hf].
    + rewrite (bool_decide_eq_true_2 _ Hf). repeat split; intros; try done; tauto.
    + rewrite (bool_decide_eq_false_2 _ Hf). repeat split; intros; try done; tauto.
Qed.

(** Where [main] stops when parsing or a check fails: nothing has happened
    yet. *)
Lemma main_parse_error ext argv e t :
  parse_args argv = Raise e → main ext argv t = (Raise e, t).
Proof. intros H. unfold main, mbind, M_bind, lift. by rewrite H. Qed.

Lemma main_validate_error ext argv args e t :
  parse_args argv = Ok args → validate args = Raise e →
  main ext argv t = (Raise e, t).
Proof. intros H1 H2. unfold main, mbind, M_bind, lift. by rewrite H1, H2. Qed.

Lemma main_validated ext argv args t :
  parse_args argv = Ok args → validate args = Ok () →
  main ext argv t = run ext args t.
Proof. intros H1 H2. unfold main, mbind, M_bind, lift. by rewrite H1, H2. Qed.

Example parse_args_defaults :
  ∃ args, parse_args no_options = Ok args ∧
          model_type args = "single_fidelity" ∧ lf_col_name args = "h298_lf" ∧
          lf_hf_size_ratio args = 1.
Proof. eexists. split; [reflexivity|]. by repeat split. Qed.


Lemma parse_args_bad_model_type argv m :
  opt_model_type argv = Some m → m ∉ model_type_choices →
  parse_args argv = Raise (SystemExit 2).
Proof.
  intros H Hm. unfold parse_args, choice. rewrite H.
  by rewrite (bool_decide_eq_false_2 _ Hm).
Qed.

(** The two checks where they do their work: a single-fidelity run that
    asks for a polynomial bias, Gaussian noise or a descriptor bias raises
    [ValueError] with no effect performed, and [--model_type trad_delta_ml]
    raises [NotImplementedError] with no effect performed. *)
Theorem main_fails_fast (ext : externals) (argv : Argv) (t : list event) :
  (∀ args, parse_args argv = Ok args →
     model_type args = "single_fidelity" →
     0 < add_pn_bias_to_make_lf args
     ∨ (0 <? add_gauss_noise_to_make_lf args)%float = true
     ∨ (0 <? add_descriptor_bias_to_make_lf args)%float = true →
     main ext argv t = (Raise ValueError, t)) ∧
  (∀ args, parse_args argv = Ok args →
     model_type args = "trad_delta_ml" →
     main ext argv t = (Raise NotImplementedError, t)).
Proof.
  split.
  - intros args Hp Hm Hb. apply (main_validate_error _ _ args); [done|].
    unfold validate. rewrite Hm, bool_decide_eq_true_2 by done. simpl.
    destruct Hb as [Hb|[Hb|Hb]].
    + apply Z.ltb_lt in Hb. by rewrite Hb.
    + rewrite Hb. by rewrite orb_true_r.
    + rewrite Hb. by rewrite orb_true_r.
  - intros args Hp Hm. apply (main_validate_error _ _ args); [done|].
    unfold validate. rewrite Hm. reflexivity.
Qed.

(** The command line
    [--model_type single_fidelity --add_gauss_noise_to_make_lf 0.5]. *)
Lemma main_fails_fast_witness :
  main toy_externals
       (mkArgv (Some "single_fidelity") None None None None None None None None
               None (Some 0.5%float) None None None None None None) []
  = (Raise ValueError, []).
Proof.
  eapply (proj1 (main_fails_fast toy_externals _ [])).
  - reflexivity.
  - reflexivity.
  - right; left. reflexivity.
Defined.

(** C4: the check of lines 32-36 misses the model type it is there for.
    It names [multi_fidelity_weight_sharing_non_diff], the choices of
    [--model_type] spell the non-differentiable model type
    [multi_fidelity_non_diff].  So the name in the check never gets as far as
    the check: the parser exits with status 2, and no [NotImplementedError] is
    raised.  And the name that is a choice passes both checks: the run makes
    its directories, writes [args.json], seeds the generators and builds the
    models, and then raises [KeyError] at [model_dict[args.model_type]]. *)
Theorem main_non_diff_guard_misses (ext : externals) (argv : Argv)
    (t : list event) :
  (opt_model_type argv = Some "multi_fidelity_weight_sharing_non_diff" →
     main ext argv t = (Raise (SystemExit 2), t)) ∧
  (∀ args, parse_args argv = Ok args →
     model_type args = "multi_fidelity_non_diff" →
     main ext argv t =
       (Raise KeyError,
        t ++ [Makedirs (results_dir args); Chdir (results_dir args);
              Mkdir (now ext); Chdir (now ext); DumpArgs "args.json" args;
              SeedEverything (seed args); BuildModels])).
Proof.
  split.
  - intros Hm. apply main_parse_error.
    apply (parse_args_bad_model_type _ _ Hm).
    unfold model_type_choices. rewrite !elem_of_cons, elem_of_nil.
    intros H; intuition discriminate.
  - intros args Hp Hm.
    assert (validate args = Ok ()) as Hv
      by (unfold validate; rewrite Hm; reflexivity).
    rewrite (main_validated ext argv args t Hp Hv).
    unfold run. rewrite Hm.
    unfold mbind, M_bind, emit, lift. cbn. by rewrite <- !app_assoc.
Qed.

(** The command line [--model_type multi_fidelity_weight_sharing_non_diff]. *)
Lemma main_non_diff_guard_misses_witness :
  main toy_externals (only_model_type "multi_fidelity_weight_sharing_non_diff") []
  = (Raise (SystemExit 2), []).
Proof.
  refine (proj1 (main_non_diff_guard_misses toy_externals _ []) _). reflexivity.
Defined.

(** The model type that is a choice, [multi_fidelity_non_diff], passes both
    checks and fails at the lookup in [model_dict], after the results
    directory and [args.json] have been written. *)
Example main_non_diff_choice_runs :
  ∃ t, main toy_externals (only_model_type "multi_fidelity_non_diff") []
       = (Raise KeyError, Makedirs "results" :: t).
Proof. eexists. vm_compute. reflexivity. Qed.



Example constant_bias_without_lf_column :
  ∃ args, parse_args (mkArgv None None None None None None None None None
                              (Some 1.5%float) None None None None None None None)
          = Ok args ∧
          make_lf toy_externals args toy_frame () = Raise KeyError.
Proof. eexists. split; reflexivity. Qed.

End command_line.

(** ** Synthesis of the low-fidelity column *)

Section low_fidelity.
Import EndToEnd.

Lemma getcol_setcol_eq df c x : getcol (setcol df c x) c = Ok x.
Proof. unfold getcol, setcol. simpl. by rewrite lookup_insert_eq. Qed.

Lemma getcol_setcol_ne df c c' x :
  c ≠ c' → getcol (setcol df c x) c' = getcol df c'.
Proof. intros. unfold getcol, setcol. simpl. by rewrite lookup_insert_ne. Qed.

Lemma setcol_setcol df c x y : setcol (setcol df c x) c y = setcol df c y.
Proof. unfold setcol. simpl. by rewrite insert_insert_eq. Qed.

Lemma add_array_same (s a : list float) :
  length a = length s → add_array s a = Ok (zip_with PrimFloat.add s a).
Proof. intros H. unfold add_array. by rewrite bool_decide_eq_true_2. Qed.

Lemma length_polyval p xs : length (polyval p xs) = length xs.
Proof. unfold polyval. by rewrite length_fmap. Qed.

Section steps.
Context (ext : externals) (args : Args).

Lemma length_with_polynomial g (h l : list float) :
  length l = length h → length (with_polynomial ext args g h l) = length h.
Proof.
  intros Hl. unfold with_polynomial. case_match; [|done].
  rewrite length_zip_with, length_polyval. lia.
Qed.

Lemma length_with_constant l : length (with_constant args l) = length l.
Proof. unfold with_constant. case_match; [|done]. by rewrite length_fmap. Qed.

Lemma length_with_gauss l :
  noise_per_row ext → length (with_gauss ext args l) = length l.
Proof.
  intros [Hg _]. unfold with_gauss. case_match; [|done].
  rewrite length_zip_with, Hg. unfold len. lia.
Qed.

(** Each step, run on a frame whose low-fidelity column is [l]. *)
Lemma add_pn_bias_spec df g (h l : list float) :
  hf_col_name args ≠ lf_col_name args →
  columns df !! hf_col_name args = Some h →
  length l = length h →
  add_pn_bias ext args (setcol df (lf_col_name args) l, g)
  = Ok (setcol df (lf_col_name args) (with_polynomial ext args g h l),
        rng_after_polynomial ext args g).
Proof.
  intros Hd Hh Hl. unfold add_pn_bias, with_polynomial, rng_after_polynomial.
  destruct (0 <? add_pn_bias_to_make_lf args); [|done].
  destruct (np_random_uniform _ _ _ _ _) as [coefficients g'].
  rewrite getcol_setcol_eq. simpl.
  rewrite getcol_setcol_ne by done. unfold getcol at 1. rewrite Hh. simpl.
  rewrite add_array_same by (rewrite length_polyval; lia). simpl.
  by rewrite setcol_setcol.
Qed.

Lemma add_constant_bias_spec df g l :
  add_constant_bias ext args (setcol df (lf_col_name args) l, g)
  = Ok (setcol df (lf_col_name args) (with_constant args l), g).
Proof.
  unfold add_constant_bias, with_constant.
  destruct (negb _); [|done].
  rewrite getcol_setcol_eq. simpl. by rewrite setcol_setcol.
Qed.

Lemma add_gauss_noise_spec df g l :
  noise_per_row ext →
  add_gauss_noise ext args (setcol df (lf_col_name args) l, g)
  = Ok (setcol df (lf_col_name args) (with_gauss ext args l), g).
Proof.
  intros [Hg _]. unfold add_gauss_noise, with_gauss.
  destruct (0 <? _)%float; [|done].
  rewrite getcol_setcol_eq. simpl.
  rewrite add_array_same by (rewrite Hg; unfold len; lia). simpl.
  by rewrite setcol_setcol.
Qed.

Lemma add_descriptor_bias_spec df g l :
  noise_per_row ext →
  length l = length (index df) →
  ∃ g', add_descriptor_bias ext args (setcol df (lf_col_name args) l, g)
        = Ok (setcol df (lf_col_name args) (with_descriptors ext args df g l), g').
Proof.
  intros [_ Hb] Hl. unfold add_descriptor_bias, with_descriptors.
  destruct (negb _); [|by eexists].
  change (len descriptors) with 13.
  destruct (np_random_uniform _ _ _ _ _) as [u g']. exists g'.
  rewrite getcol_setcol_eq. simpl.
  rewrite add_array_same by (rewrite Hb; simpl; lia). simpl.
  by rewrite setcol_setcol.
Qed.
End steps.

(** C2, as the code has it: in a run that is not single-fidelity and whose
    two column names differ, the low-fidelity column is first set to a copy
    of the high-fidelity column, and the enabled degradations are then added
    onto it in the order polynomial, constant, Gaussian noise, descriptor
    bias, each under its own condition; the high-fidelity column is what it
    was, and so are the row labels. *)
Theorem make_lf_synthesis (ext : externals) (args : Args) (df : DataFrame)
    (g : rng ext) (h : list float) :
  noise_per_row ext →
  model_type args ≠ "single_fidelity" →
  hf_col_name args ≠ lf_col_name args →
  columns df !! hf_col_name args = Some h →
  length h = length (index df) →
  init_lf args df = Ok (setcol df (lf_col_name args) h) ∧
  ∃ df' g',
    make_lf ext args df g = Ok (df', g') ∧
    columns df' !! lf_col_name args = Some (synthesized_lf ext args df g h) ∧
    columns df' !! hf_col_name args = Some h ∧
    index df' = index df.
Proof.
  intros Hn Hm Hd Hh Hr.
  assert (Hi : init_lf args df = Ok (setcol df (lf_col_name args) h)).
  { unfold init_lf, is_single. rewrite bool_decide_eq_false_2 by done. simpl.
    unfold getcol. by rewrite Hh. }
  split; [done|].
  set (l1 := with_polynomial ext args g h h).
  set (l2 := with_constant args l1).
  set (l3 := with_gauss ext args l2).
  assert (L3 : length l3 = length (index df)).
  { unfold l3, l2, l1.
    rewrite length_with_gauss, length_with_constant, length_with_polynomial; done. }
  destruct (add_descriptor_bias_spec ext args df
              (rng_after_polynomial ext args g) l3 Hn L3) as [g' Hdesc].
  exists (setcol df (lf_col_name args) (synthesized_lf ext args df g h)), g'.
  split; [|split; [|split]].
  - unfold make_lf. rewrite Hi, bind_Ok.
    rewrite (add_pn_bias_spec ext args df g h h Hd Hh eq_refl), bind_Ok.
    rewrite add_constant_bias_spec, bind_Ok.
    rewrite (add_gauss_noise_spec ext args _ _ _ Hn), bind_Ok.
    exact Hdesc.
  - simpl. by rewrite lookup_insert_eq.
  - simpl. by rewrite lookup_insert_ne.
  - reflexivity.
Qed.

Lemma toy_noise_per_row : noise_per_row toy_externals.
Proof.
  split; intros; simpl; by rewrite length_replicate.
Qed.

Lemma make_lf_synthesis_witness :
  init_lf toy_multi_target toy_frame
  = Ok (setcol toy_frame "h298_lf" [1; 2; 3; 4]%float).
Proof.
  refine (proj1 (make_lf_synthesis toy_externals toy_multi_target toy_frame ()
                   [1; 2; 3; 4]%float toy_noise_per_row _ _ _ _)).
  - discriminate.
  - discriminate.
  - reflexivity.
  - reflexivity.
Defined.

(** C2 as stated fails: a run that is not single-fidelity and changes the
    high-fidelity column. *)
Lemma make_lf_same_column_changes_hf :
  model_type toy_same_column ≠ "single_fidelity" ∧
  columns toy_frame !! hf_col_name toy_same_column = Some [1; 2; 3; 4]%float ∧
  ∃ df', make_lf toy_externals toy_same_column toy_frame () = Ok (df', ()) ∧
         columns df' !! hf_col_name toy_same_column
         = Some [2.5; 3.5; 4.5; 5.5]%float.
Proof.
  split; [discriminate|]. split; [reflexivity|].
  eexists. split; [reflexivity|]. vm_compute. reflexivity.
Qed.

End low_fidelity.

(** ** High- and low-fidelity frames *)

Section frames.
Import EndToEnd.

Lemma elem_of_select {A} (ps : list nat) (l : list A) x :
  x ∈ select ps l ↔ ∃ p, p ∈ ps ∧ l !! p = Some x.
Proof. unfold select. apply list_elem_of_omap. Qed.

Lemma select_subseteq {A} (ps : list nat) (l : list A) x :
  x ∈ select ps l → x ∈ l.
Proof.
  rewrite elem_of_select. intros (p & _ & Hp). by eapply list_elem_of_lookup_2.
Qed.

Lemma elem_of_positions keep idx p :
  p ∈ positions keep idx ↔ ∃ s, idx !! p = Some s ∧ keep s = true.
Proof.
  unfold positions. rewrite list_elem_of_filter, elem_of_seq. split.
  - intros [Hk _]. destruct (idx !! p) as [s|]; [|done]. by exists s.
  - intros (s & Hs & Hk). rewrite Hs. split; [done|].
    apply lookup_lt_Some in Hs. lia.
Qed.

Lemma elem_of_select_positions keep idx s :
  s ∈ select (positions keep idx) idx ↔ s ∈ idx ∧ keep s = true.
Proof.
  rewrite elem_of_select. split.
  - intros (p & Hp & Hs). apply elem_of_positions in Hp as (s' & Hs' & Hk).
    rewrite Hs in Hs'. injection Hs' as <-. split; [|done].
    by eapply list_elem_of_lookup_2.
  - intros [Hs Hk]. apply list_elem_of_lookup_1 in Hs as [p Hp].
    exists p. split; [|done]. apply elem_of_positions. by exists s.
Qed.

Lemma filter_ext_in {A} (P Q : A → Prop) `{!∀ x, Decision (P x), !∀ x, Decision (Q x)}
    (l : list A) :
  (∀ x, x ∈ l → P x ↔ Q x) → filter P l = filter Q l.
Proof.
  induction l as [|a l IH]; intros Hext; [done|].
  rewrite !filter_cons.
  assert (P a ↔ Q a) as Ha by (apply Hext; left).
  rewrite IH by (intros x Hx; apply Hext; by right).
  destruct (decide (P a)), (decide (Q a)); tauto.
Qed.

(** With unique labels, dropping the labels of the rows at [ps] leaves the
    rows at the other positions. *)
Lemma positions_not_sampled (idx : list string) (ps : list nat) :
  NoDup idx →
  positions (λ s, negb (bool_decide (s ∈ select ps idx))) idx
  = remaining ps (length idx).
Proof.
  intros Hnd. unfold positions, remaining. apply filter_ext_in.
  intros i Hi. apply elem_of_seq in Hi.
  destruct (lookup_lt_is_Some_2 idx i) as [s Hs]; [lia|]. rewrite Hs. simpl.
  rewrite negb_true_iff, bool_decide_eq_false, elem_of_select. split.
  - intros Hn Hp. apply Hn. by exists i.
  - intros Hn (p & Hp & Hps). apply Hn.
    by rewrite (NoDup_lookup idx i p s Hnd Hs Hps).
Qed.

Lemma drop_rows_select (ps : list nat) (df : DataFrame) :
  drop_rows (select ps (index df)) df
  = Ok (take_rows (positions (λ s, negb (bool_decide (s ∈ select ps (index df))))
                             (index df)) df).
Proof.
  unfold drop_rows.
  replace (forallb _ _) with true; [done|]. symmetry.
  apply forallb_forall. intros s Hs. apply bool_decide_eq_true_2.
  apply list_elem_of_In in Hs. by eapply select_subseteq.
Qed.

Lemma dropcol_present (df : DataFrame) c (col : list float) :
  columns df !! c = Some col →
  dropcol df c = Ok {| index := index df; columns := delete c (columns df) |}.
Proof. intros H. unfold dropcol. by rewrite H. Qed.

Lemma take_rows_column ps df c (col : list float) :
  columns df !! c = Some col →
  columns (take_rows ps df) !! c = Some (select ps col).
Proof. intros H. unfold take_rows. simpl. by rewrite lookup_fmap, H. Qed.

(** C3: given the sample pandas draws, with the fraction 1/(ratio+1)
    without [lf_superset_of_hf] and 1/ratio with it, the high-fidelity frame
    is that sample of the full frame.  Without [lf_superset_of_hf] no label is
    in both frames and every label of the full frame is in one of them, and
    when the SMILES labels are unique the low-fidelity frame is exactly the
    rows that were not sampled.  With [lf_superset_of_hf] the low-fidelity
    frame has all the rows, and every high-fidelity label is one of its
    labels. *)
Theorem hf_lf_frames_partition (ext : externals) (args : Args) (df : DataFrame)
    (ps : list nat) (h l : list float) :
  model_type args ≠ "single_fidelity" →
  columns df !! hf_col_name args = Some h →
  columns df !! lf_col_name args = Some l →
  hf_denominator args ≠ 0 →
  df_sample ext df (hf_denominator args) (seed args) = Ok ps →
  prepare ext args df = prepare_multi ext args df ∧
  ∃ hf_df lf_df,
    hf_lf_frames ext args df = Ok (hf_df, lf_df) ∧
    hf_df = {| index := select ps (index df);
               columns := delete (lf_col_name args) (select ps <$> columns df) |} ∧
    (lf_superset_of_hf args = false →
       (∀ s, ¬ (s ∈ index hf_df ∧ s ∈ index lf_df)) ∧
       (∀ s, s ∈ index df ↔ s ∈ index hf_df ∨ s ∈ index lf_df) ∧
       (NoDup (index df) →
          lf_df = {| index := select (remaining ps (length (index df))) (index df);
                     columns := delete (hf_col_name args)
                                  (select (remaining ps (length (index df)))
                                     <$> columns df) |})) ∧
    (lf_superset_of_hf args = true →
       lf_df = {| index := index df;
                  columns := delete (hf_col_name args) (columns df) |} ∧
       (∀ s, s ∈ index hf_df → s ∈ index lf_df)).
Proof.
  intros Hm Hh Hl Hd Hs. unfold hf_denominator in *.
  split.
  { unfold prepare, is_single. by rewrite bool_decide_eq_false_2. }
  unfold hf_lf_frames, sample_frames.
  destruct (lf_superset_of_hf args) eqn:Hsup.
  - rewrite (proj2 (Z.eqb_neq _ _) Hd), Hs, !bind_Ok.
    rewrite (dropcol_present _ _ _ (take_rows_column ps df _ _ Hl)), bind_Ok.
    rewrite (dropcol_present _ _ _ Hh), bind_Ok.
    eexists _, _. split; [reflexivity|]. split; [reflexivity|].
    split; [done|]. intros _. split; [reflexivity|].
    simpl. intros s. apply select_subseteq.
  - rewrite (proj2 (Z.eqb_neq _ _) Hd), Hs, !bind_Ok.
    change (index (take_rows ps df)) with (select ps (index df)).
    rewrite drop_rows_select, !bind_Ok.
    rewrite (dropcol_present _ _ _ (take_rows_column ps df _ _ Hl)), bind_Ok.
    rewrite (dropcol_present _ _ _ (take_rows_column _ df _ _ Hh)), bind_Ok.
    eexists _, _. split; [reflexivity|]. split; [reflexivity|].
    split; [|done]. intros _. simpl. split; [|split].
    + intros s [H1 H2]. apply elem_of_select_positions in H2 as [_ H2].
      apply negb_true_iff, bool_decide_eq_false in H2. done.
    + intros s. rewrite elem_of_select_positions, negb_true_iff, bool_decide_eq_false.
      split.
      * intros Hin. destruct (decide (s ∈ select ps (index df))); [by left|by right].
      * intros [H|[H _]]; [by eapply select_subseteq|done].
    + intros Hnd. by rewrite positions_not_sampled.
Qed.

(** Two of the four toy molecules are sampled as high-fidelity data. *)
Lemma hf_lf_frames_partition_witness :
  is_ok (hf_lf_frames toy_externals toy_multi_target toy_two_columns) = true.
Proof.
  destruct (hf_lf_frames_partition toy_externals toy_multi_target toy_two_columns
              [0; 1]%nat [1; 2; 3; 4]%float [2.5; 3.5; 4.5; 5.5]%float)
    as (_ & hf_df & lf_df & H & _).
  - discriminate.
  - reflexivity.
  - reflexivity.
  - discriminate.
  - reflexivity.
  - rewrite H. reflexivity.
Defined.

Example hf_lf_frames_toy :
  ∃ hf_df lf_df,
    hf_lf_frames toy_externals toy_multi_target toy_two_columns = Ok (hf_df, lf_df) ∧
    index hf_df = ["C"; "CC"] ∧ index lf_df = ["CCC"; "CCO"].
Proof. eexists _, _. split; [reflexivity|]. split; reflexivity. Qed.

End frames.

(** ** SMILES labels from the CSV file to the datapoints *)

Section smiles.
Import EndToEnd.




Lemma set_at_index df c labels v df' :
  set_at df c labels v = Ok df' → index df' = index df.
Proof.
  unfold set_at. intros H. inv_bind H. inv_bind H. by injection H as <-.
Qed.






Example toy_test_datapoints :
  ∃ df1 p, make_lf toy_externals toy_multi_target toy_frame () = Ok (df1, ()) ∧
           prepare toy_externals toy_multi_target df1 = Ok p ∧
           smi <$> test_data_of toy_multi_target p = ["CCO"; "CC"].
Proof. eexists _, _. split; [reflexivity|]. split; vm_compute; reflexivity. Qed.

End smiles.

(** ** Evaluation and [test_metrics.csv] *)

Section evaluation.
Import EndToEnd.

Lemma getitem_nat {A} (l : list A) (i : nat) x :
  l !! i = Some x → getitem l (Z.of_nat i) = Ok x.
Proof.
  intros H. pose proof (lookup_lt_Some _ _ _ H) as Hlt. unfold getitem.
  replace (Z.of_nat i <? 0) with false by (symmetry; apply Z.ltb_ge; lia).
  replace (Z.of_nat i <? 0) with false by (symmetry; apply Z.ltb_ge; lia).
  replace (Z.of_nat (length l) <=? Z.of_nat i) with false
    by (symmetry; apply Z.leb_gt; lia).
  simpl. by rewrite Nat2Z.id, H.
Qed.

Lemma getitem_entry (r : list float) (j : nat) :
  (j < length r)%nat → getitem r (Z.of_nat j) = Ok (entry j r).
Proof.
  intros H. destruct (lookup_lt_is_Some_2 r j H) as [x Hx].
  unfold entry. rewrite Hx. by apply getitem_nat.
Qed.

Lemma getitem_0 (r : list float) :
  (1 ≤ length r)%nat → getitem r 0 = Ok (entry 0 r).
Proof. exact (getitem_entry r 0). Qed.

Lemma getitem_1 (r : list float) :
  (2 ≤ length r)%nat → getitem r 1 = Ok (entry 1 r).
Proof. exact (getitem_entry r 1). Qed.

Lemma getitem_short {A} (l : list A) (i : nat) :
  (length l ≤ i)%nat → getitem l (Z.of_nat i) = Raise IndexError.
Proof.
  intros H. unfold getitem.
  replace (Z.of_nat i <? 0) with false by (symmetry; apply Z.ltb_ge; lia).
  replace (Z.of_nat i <? 0) with false by (symmetry; apply Z.ltb_ge; lia).
  replace (Z.of_nat (length l) <=? Z.of_nat i) with true
    by (symmetry; apply Z.leb_le; lia).
  reflexivity.
Qed.

Lemma getitem_raises {A} (l : list A) i e : getitem l i = Raise e → e = IndexError.
Proof.
  unfold getitem. destruct (_ || _); [congruence|].
  destruct (l !! _); congruence.
Qed.

(** One round of the loop on a row pair with both entries. *)
Lemma collect_two_entries acc target pred :
  (2 ≤ length target)%nat → (2 ≤ length pred)%nat →
  collect acc (target, pred) =
    Ok {| targets_lf := targets_lf acc ++
                          (if is_nan (entry 0 target) then [] else [entry 0 target]);
          targets_hf := targets_hf acc ++
                          (if is_nan (entry 1 target) then [] else [entry 1 target]);
          preds_lf := preds_lf acc ++
                        (if is_nan (entry 0 target) then [] else [entry 0 pred]);
          preds_hf := preds_hf acc ++
                        (if is_nan (entry 1 target) then [] else [entry 1 pred]) |}.
Proof.
  intros Ht Hp. unfold collect.
  rewrite (getitem_0 target), (getitem_1 target) by lia.
  rewrite !bind_Ok.
  destruct (is_nan (entry 0 target)) eqn:E0, (is_nan (entry 1 target)) eqn:E1;
    simpl; rewrite ?(getitem_0 pred) by lia; rewrite ?bind_Ok, ?E1; simpl;
    rewrite ?(getitem_1 pred) by lia; rewrite ?bind_Ok; simpl;
    rewrite ?app_nil_r; by destruct acc.
Qed.

Lemma filter_map_if {A B} (P : A → bool) (f : A → B) (l : list A) :
  f <$> filter (λ x, P x = false) l
  = concat ((λ x, if P x then [] else [f x]) <$> l).
Proof.
  induction l as [|a l IH]; [done|].
  rewrite fmap_cons, filter_cons. cbn [concat]. rewrite <- IH.
  destruct (P a) eqn:E.
  - by rewrite decide_False by done.
  - by rewrite decide_True by done.
Qed.

(** The loop of lines 285-293 on rows that all have both entries. *)
Lemma foldM_collect pairs acc :
  Forall (λ tp : list float * list float,
            (2 ≤ length tp.1)%nat ∧ (2 ≤ length tp.2)%nat) pairs →
  foldM collect acc pairs =
    Ok {| targets_lf := targets_lf acc ++
            concat ((λ tp, if is_nan (entry 0 tp.1) then [] else [entry 0 tp.1]) <$> pairs);
          targets_hf := targets_hf acc ++
            concat ((λ tp, if is_nan (entry 1 tp.1) then [] else [entry 1 tp.1]) <$> pairs);
          preds_lf := preds_lf acc ++
            concat ((λ tp, if is_nan (entry 0 tp.1) then [] else [entry 0 tp.2]) <$> pairs);
          preds_hf := preds_hf acc ++
            concat ((λ tp, if is_nan (entry 1 tp.1) then [] else [entry 1 tp.2]) <$> pairs) |}.
Proof.
  intros H. revert acc. induction H as [|[target pred] pairs [Ht Hp] _ IH]; intros acc.
  - simpl. rewrite !app_nil_r. by destruct acc.
  - cbn [foldM]. simpl in Ht, Hp. rewrite collect_two_entries, bind_Ok by done.
    rewrite IH. simpl. by rewrite <- !app_assoc.
Qed.

Lemma Forall_zip_rows (targets preds : list (list float)) :
  Forall (λ r, (2 ≤ length r)%nat) targets →
  Forall (λ r, (2 ≤ length r)%nat) preds →
  Forall (λ tp : list float * list float,
            (2 ≤ length tp.1)%nat ∧ (2 ≤ length tp.2)%nat) (zip targets preds).
Proof.
  intros Ht. revert preds. induction Ht as [|r targets Hr _ IH]; intros preds Hp.
  - constructor.
  - destruct Hp as [|q preds Hq Hp]; [constructor|].
    simpl. constructor; [done|]. by apply IH.
Qed.

Lemma foldM_collect_rows targets preds :
  Forall (λ r, (2 ≤ length r)%nat) targets →
  Forall (λ r, (2 ≤ length r)%nat) preds →
  foldM collect (mkByFidelity [] [] [] []) (zip targets preds) =
    Ok {| targets_lf := targets_with 0 targets preds;
          targets_hf := targets_with 1 targets preds;
          preds_lf := preds_with 0 targets preds;
          preds_hf := preds_with 1 targets preds |}.
Proof.
  intros Ht Hp. rewrite foldM_collect by by apply Forall_zip_rows.
  unfold targets_with, preds_with, rows_with. simpl.
  by rewrite !(filter_map_if (λ tp, is_nan (entry _ tp.1))).
Qed.

Lemma mapM_Ok_fmap {A B} (f : A → result B) (g : A → B) xs :
  Forall (λ x, f x = Ok (g x)) xs → mapM f xs = Ok (g <$> xs).
Proof.
  induction 1 as [|x xs Hx _ IH]; [done|].
  simpl. by rewrite Hx, bind_Ok, IH, bind_Ok.
Qed.

Lemma lift_Ok {A B} (a : A) (k : A → M B) t : (lift (Ok a) ≫= k) t = k a t.
Proof. reflexivity. Qed.

Lemma lift_Raise {A B} (e : exn) (k : A → M B) t :
  (lift (Raise e) ≫= k) t = (Raise e, t).
Proof. reflexivity. Qed.

Lemma emit_then {B} (ev : event) (k : unit → M B) t :
  (emit ev ≫= k) t = k () (t ++ [ev]).
Proof. reflexivity. Qed.

Lemma extends_lift {A} (r : result A) : extends (lift r).
Proof. intros t. exists []. simpl. by rewrite app_nil_r. Qed.

Lemma extends_emit ev : extends (emit ev).
Proof. intros t. by exists [ev]. Qed.

Lemma extends_ret {A} (a : A) : extends (mret a : M A).
Proof. intros t. exists []. simpl. by rewrite app_nil_r. Qed.

Lemma extends_bind {A B} (m : M A) (k : A → M B) :
  extends m → (∀ a, extends (k a)) → extends (m ≫= k).
Proof.
  intros Hm Hk t. unfold mbind, M_bind. destruct (Hm t) as [t1 H1].
  destruct (m t) as [[a|e] t0]; simpl in *; subst.
  - destruct (Hk a (t ++ t1)) as [t2 H2]. exists (t1 ++ t2).
    by rewrite H2, app_assoc.
  - by exists t1.
Qed.

(** The file of test metrics where it is written.  A single-fidelity
    evaluation whose rows have a first entry and whose metrics scikit-learn
    computes writes
    [test_metrics.csv] with the six columns, the three low-fidelity ones being
    NaN.  An evaluation of another model type whose target and prediction rows
    have two entries (low fidelity, high fidelity) and whose metrics
    scikit-learn computes writes the six columns, the low-fidelity ones being
    the metrics over the rows whose low-fidelity target is not NaN, and the
    high-fidelity ones those over the rows whose high-fidelity target is not
    NaN. *)
Theorem test_metrics_written (ext : externals) (args : Args)
    (test_data : list MoleculeDatapoint) (preds : list (list float))
    (t : list event) :
  (model_type args = "single_fidelity" →
   Forall (λ dp, (1 ≤ length (dp_targets dp))%nat) test_data →
   Forall (λ r, (1 ≤ length r)%nat) preds →
   ∀ mae rmse r2,
     eval_metrics ext
       (unscaled_flat ext args ((λ dp, entry 0 (dp_targets dp)) <$> test_data))
       (unscaled_flat ext args (entry 0 <$> preds)) = Ok (mae, rmse, r2) →
     ∃ r t', evaluate ext args test_data preds t =
       (r,
        t ++ ToCsv "test_metrics.csv"
               [("MAE_hf", Floats [mae]); ("RMSE_hf", Floats [rmse]);
                ("R2_hf", Floats [r2]); ("MAE_lf", Floats [nan]);
                ("RMSE_lf", Floats [nan]); ("R2_lf", Floats [nan])] :: t')) ∧
  (model_type args ≠ "single_fidelity" →
   Forall (λ r, (2 ≤ length r)%nat) (unscaled ext args (dp_targets <$> test_data)) →
   Forall (λ r, (2 ≤ length r)%nat) (unscaled ext args preds) →
   ∀ hf lf,
     eval_metrics ext
       (targets_with 1 (unscaled ext args (dp_targets <$> test_data))
                       (unscaled ext args preds))
       (preds_with 1 (unscaled ext args (dp_targets <$> test_data))
                     (unscaled ext args preds)) = Ok hf →
     eval_metrics ext
       (targets_with 0 (unscaled ext args (dp_targets <$> test_data))
                       (unscaled ext args preds))
       (preds_with 0 (unscaled ext args (dp_targets <$> test_data))
                     (unscaled ext args preds)) = Ok lf →
     ∃ r t', evaluate ext args test_data preds t =
       (r,
        t ++ ToCsv "test_metrics.csv"
               [("MAE_hf", Floats [hf.1.1]); ("RMSE_hf", Floats [hf.1.2]);
                ("R2_hf", Floats [hf.2]); ("MAE_lf", Floats [lf.1.1]);
                ("RMSE_lf", Floats [lf.1.2]); ("R2_lf", Floats [lf.2])] :: t')).
Proof.
  split.
  - intros Hm Ht Hp mae rmse r2 He.
    unfold evaluate, is_single. rewrite bool_decide_eq_true_2 by done.
    unfold evaluate_single.
    rewrite (mapM_Ok_fmap _ (entry 0) preds), lift_Ok
      by (eapply Forall_impl; [exact Hp|]; intros r Hr; by apply getitem_0).
    rewrite (mapM_Ok_fmap _ (λ dp, entry 0 (dp_targets dp)) test_data), lift_Ok
      by (eapply Forall_impl; [exact Ht|]; intros r Hr; by apply getitem_0).
    unfold unscaled_flat in He. rewrite He, lift_Ok. cbn beta iota.
    rewrite emit_then.
    match goal with
    | |- ∃ r t', ?m ?t0 = _ =>
        assert (extends m) as Hext
    end.
    { apply extends_bind.
      - destruct (save_test_plot args); [|apply extends_ret].
        repeat (apply extends_bind; [apply extends_lift|intros ?]).
        apply extends_emit.
      - intros _. apply extends_bind; [apply extends_lift|intros ?].
        apply extends_emit. }
    match goal with
    | |- ∃ r t', ?m ?t0 = _ => destruct (Hext t0) as [t' Ht']; destruct (m t0) as [r t1]
    end.
    simpl in Ht'. subst t1. exists r, t'. by rewrite <- app_assoc.
  - intros Hm Ht Hp hf lf Hhf Hlf.
    unfold evaluate, is_single. rewrite bool_decide_eq_false_2 by done.
    unfold evaluate_multi. unfold unscaled in *.
    rewrite (foldM_collect_rows _ _ Ht Hp), lift_Ok. cbn [targets_hf preds_hf
      targets_lf preds_lf].
    rewrite Hhf, lift_Ok, Hlf, lift_Ok, emit_then.
    match goal with
    | |- ∃ r t', ?m ?t0 = _ =>
        assert (extends m) as Hext
    end.
    { apply extends_bind.
      - destruct (save_test_plot args); [|apply extends_ret].
        repeat (apply extends_bind; [apply extends_lift|intros ?]).
        apply extends_emit.
      - intros _. repeat (apply extends_bind; [apply extends_lift|intros ?]).
        apply extends_emit. }
    match goal with
    | |- ∃ r t', ?m ?t0 = _ => destruct (Hext t0) as [t' Ht']; destruct (m t0) as [r t1]
    end.
    simpl in Ht'. subst t1. exists r, t'. by rewrite <- app_assoc.
Qed.

(** The toy multi-target run: one low-fidelity and one high-fidelity test
    molecule. *)
Lemma test_metrics_written_witness :
  ∃ r t', evaluate toy_externals toy_multi_target toy_test_data toy_preds [] =
    (r, ToCsv "test_metrics.csv"
          [("MAE_hf", Floats [0%float]); ("RMSE_hf", Floats [0%float]);
           ("R2_hf", Floats [1%float]); ("MAE_lf", Floats [0%float]);
           ("RMSE_lf", Floats [0%float]); ("R2_lf", Floats [1%float])] :: t').
Proof.
  refine (proj2 (test_metrics_written toy_externals toy_multi_target toy_test_data
                   toy_preds []) _ _ _ (0, 0, 1)%float (0, 0, 1)%float _ _).
  - discriminate.
  - repeat constructor.
  - repeat constructor.
  - reflexivity.
  - reflexivity.
Defined.

(** In a delta-learning run the target rows hold the high-fidelity value
    only (line 162). *)
Lemma loc_values_one_column df labels c rows :
  loc_values df labels [c] = Ok rows → Forall (λ r, (length r ≤ 1)%nat) rows.
Proof.
  unfold loc_values. intros H. inv_bind H. inv_bind H. injection H as <-.
  simpl in E0. inv_bind E0. injection E0 as <-.
  apply Forall_fmap, Forall_forall. intros p _. simpl.
  destruct (a1 !! p); simpl; lia.
Qed.

Lemma collect_one_column acc target pred :
  (length target ≤ 1)%nat → collect acc (target, pred) = Raise IndexError.
Proof.
  intros Ht. unfold collect.
  destruct (getitem target 0) as [t0|e] eqn:E0.
  - rewrite bind_Ok. rewrite (getitem_short target 1 Ht : getitem target 1 = _).
    destruct (negb (is_nan t0)).
    + destruct (getitem pred 0) as [p0|e] eqn:Ep; [by rewrite !bind_Ok|].
      rewrite !bind_Raise. by rewrite (getitem_raises _ _ _ Ep).
    + by rewrite bind_Ok.
  - rewrite bind_Raise. by rewrite (getitem_raises _ _ _ E0).
Qed.

(** Every unscaled delta-learning run that comes back from the training with
    a prediction for a test datapoint stops in the loop of line 285 with an
    [IndexError], before any metric is computed or written. *)
Lemma delta_ml_evaluation_raises ext args df p preds t :
  model_type args = "delta_ml" → scale_data args = false →
  prepare ext args df = Ok p →
  test_data_of args p ≠ [] → preds ≠ [] →
  evaluate ext args (test_data_of args p) preds t = (Raise IndexError, t).
Proof.
  intros Hm Hs Hp Hd Hpreds.
  assert (Forall (λ r, (length r ≤ 1)%nat) (p_test_t p)) as Hrows.
  { unfold prepare, is_single in Hp. rewrite Hm in Hp. simpl in Hp.
    unfold prepare_multi in Hp. inv_bind Hp. destruct a as [hf_df lf_df].
    inv_bind Hp. destruct a as [hf_tr hf_te].
    inv_bind Hp. destruct a as [lf_tr lf_te].
    rewrite Hm in Hp. simpl in Hp. do 4 inv_bind Hp. injection Hp as <-. simpl.
    by eapply loc_values_one_column. }
  unfold evaluate, is_single. rewrite Hm. simpl.
  unfold evaluate_multi. rewrite Hs.
  unfold test_data_of, datapoints in *. rewrite Hm in *. simpl in *.
  destruct (p_test_index p) as [|s idx]; [done|].
  destruct (p_test_t p) as [|r rows]; [done|].
  destruct (p_test_oracle p) as [|o os]; [done|].
  destruct preds as [|q preds]; [done|].
  cbn [fmap list_fmap zip_with zip dp_targets foldM fst].
  rewrite collect_one_column by by inversion Hrows.
  reflexivity.
Qed.

(** C7: a delta-learning run reaches the evaluation and writes no
    [test_metrics.csv].  Its target rows hold the high-fidelity value only
    (line 162), the loop of lines 285-293 reads [target[1]], and the run on
    the four toy molecules stops there with an [IndexError]: training and
    prediction are the last thing it has done, and no metrics file has been
    written. *)
Lemma delta_ml_writes_no_test_metrics :
  ∃ t, main toy_externals (only_model_type "delta_ml") [] = (Raise IndexError, t) ∧
       last t = Some FitAndPredict ∧
       wrote "test_metrics.csv" t = false.
Proof. eexists. split; [vm_compute; reflexivity|]. split; reflexivity. Qed.

End evaluation.

(** ** Python sequences *)

Section sequences.

(** [[f(l[i]) for i in range(len(l))]] is [[f(x) for x in l]]. *)
Lemma mapM_getitem_seq {A B} (f : A → B) (pre l : list A) :
  mapM (λ i, x ← getitem (pre ++ l) i; Ok (f x))
       (Z.of_nat <$> seq (length pre) (length l))
  = Ok (f <$> l).
Proof.
  revert pre. induction l as [|a l IH]; intros pre; [done|].
  cbn [length seq fmap list_fmap mapM].
  rewrite (getitem_nat (pre ++ a :: l) (length pre) a)
    by (by rewrite lookup_app_r, Nat.sub_diag by lia).
  rewrite !bind_Ok.
  specialize (IH (pre ++ [a])). rewrite <- app_assoc, length_app in IH.
  cbn [length app] in IH. rewrite Nat.add_1_r in IH.
  change (list_fmap nat Z Z.of_nat) with (fmap (M:=list) Z.of_nat).
  by rewrite IH.
Qed.

Lemma mapM_getitem_range {A B} (f : A → B) (l : list A) :
  mapM (λ i, x ← getitem l i; Ok (f x)) (range (len l)) = Ok (f <$> l).
Proof.
  unfold range, len. rewrite Nat2Z.id. apply (mapM_getitem_seq f [] l).
Qed.

End sequences.

(** ** The data loader's properties *)

Section loader.
Import Loader.

Lemma init_sampler ds bs nw cb sd sh dl :
  init ds bs nw cb sd sh = Ok dl →
  dataset dl = ds ∧ class_balance dl = cb ∧ shuffle dl = sh ∧
  ∃ s, sampler_attr dl = Some s ∧
       (cb = false → sh = false → s = SequentialSampler).
Proof.
  unfold init. intros H. inv_bind H. injection H as <-. simpl.
  repeat split; try done. exists a. split; [done|]. intros -> ->.
  unfold DataLoader_init, own_sampler in E. simpl in E.
  destruct sd; simpl in E; repeat case_match; congruence.
Qed.

(** C5, as the code has it: on a loader that [__init__] has built, the three
    properties raise [ValueError] when class balancing or shuffling is on.
    Otherwise the [sampler] attribute is no longer the [None] of line 101 but
    the sequential sampler the base class put in its place: [targets] returns
    the targets of all datapoints in dataset order, [iter_size] returns the
    size of the dataset, and [gt_targets] and [lt_targets] return [None] when
    the first datapoint has no such attribute. *)
Theorem loader_properties (random_order : sampler → list Datum → list Z)
    (ds : list Datum) (batch_size num_workers : Z) (cb : bool)
    (sd : option Z) (sh : bool) (dl : MoleculeDataLoader) :
  init ds batch_size num_workers cb sd sh = Ok dl →
  (cb || sh = true →
     targets random_order dl = Raise ValueError ∧
     gt_targets random_order dl = Raise ValueError ∧
     lt_targets random_order dl = Raise ValueError) ∧
  (cb || sh = false →
     sampler_attr dl = Some SequentialSampler ∧
     targets random_order dl = Ok (d_targets <$> ds) ∧
     iter_size random_order dl = Ok (len ds) ∧
     (∀ d rest, ds = d :: rest → d_gt_targets d = None →
        gt_targets random_order dl = Ok None) ∧
     (∀ d rest, ds = d :: rest → d_lt_targets d = None →
        lt_targets random_order dl = Ok None)).
Proof.
  intros Hi. apply init_sampler in Hi as (Hds & Hcb & Hsh & s & Hs & Hseq).
  split.
  - intros Hb. unfold targets, gt_targets, lt_targets. by rewrite Hcb, Hsh, Hb.
  - intros Hb. apply orb_false_elim in Hb as [-> ->].
    rewrite (Hseq eq_refl eq_refl) in Hs. split; [done|].
    unfold targets, gt_targets, lt_targets, iter_size, iter_sampler.
    rewrite Hcb, Hsh, Hs, Hds. simpl. split; [|split; [done|split]].
    + apply mapM_getitem_range.
    + intros d rest -> Hd. simpl. by rewrite Hd.
    + intros d rest -> Hd. simpl. by rewrite Hd.
Qed.

(** An unshuffled loader over two molecules. *)
Lemma loader_properties_witness :
  ∃ dl, init two_molecules 50 12 false None false = Ok dl ∧
        sampler_attr dl = Some SequentialSampler.
Proof.
  eexists. split; [reflexivity|].
  refine (proj1 (proj2 (loader_properties (λ _ _, []) two_molecules 50 12 false
                          None false _ _) _)); reflexivity.
Defined.

(** C5 as stated fails: on an unshuffled loader [targets] returns. *)
Lemma unshuffled_loader_targets_return :
  ∃ dl, init two_molecules 50 12 false None false = Ok dl ∧
        targets (λ _ _, []) dl = Ok [[1.5%float]; [2.5%float]] ∧
        iter_size (λ _ _, []) dl = Ok 2.
Proof. eexists. split; [reflexivity|]. split; reflexivity. Qed.

End loader.

(** ** Batching of molecular graphs *)

Section batching.
Import Np Collate.

(** C1: the index bookkeeping of [collate_graphs] never reaches its caller
    on chemprop's graphs.  The padding rows of lines 21-22 are
    one-dimensional ([np.zeros(n)] with [n] the number of rows of the first
    graph), the feature arrays of a graph are matrices, and
    [np.concatenate] refuses to join the two: on the three-atom graph the
    call raises [ValueError] instead of returning a batch. *)
Theorem collate_graphs_raises_on_matrices (to_float32 : float → float) :
  collate_graphs to_float32 [mg_2d] = Raise ValueError.
Proof. reflexivity. Qed.

(** C6: no batch with a null row 0 comes back either; on the single-atom
    graph of the comment of line 51, alone or followed by another graph, the
    call raises [ValueError] at line 48. *)
Theorem collate_graphs_no_null_row (to_float32 : float → float) :
  collate_graphs to_float32 [mg_single_atom] = Raise ValueError ∧
  collate_graphs to_float32 [mg_single_atom; mg_2d] = Raise ValueError.
Proof. split; reflexivity. Qed.

(** With one-dimensional feature arrays the call returns, and the padding
    is as long as the first graph has atoms: when that graph is empty, entry 0
    of the batch's features is the first feature of the next graph. *)
Example collate_graphs_flat_first_entry :
  ∃ b, collate_graphs id [mg_empty; mg_flat] = Ok b ∧
       row0 (batch_X_v b) = Ok [8%float].
Proof. eexists. split; reflexivity. Qed.

(** *** What the loop computes *)

Lemma loop_body_well_formed st mg :
  well_formed mg →
  loop_body st mg =
    Ok {| l_n_atoms := l_n_atoms st + n_atoms mg;
          l_n_bonds := l_n_bonds st + n_bonds mg;
          l_a_scope := l_a_scope st ++ [(l_n_atoms st, n_atoms mg)];
          l_b_scope := l_b_scope st ++ [(l_n_bonds st, n_bonds mg)];
          l_X_vs := l_X_vs st ++ [X_v mg];
          l_X_es := l_X_es st ++ [X_e mg];
          l_a2b := l_a2b st ++ flat_a2b (l_n_bonds st) [mg];
          l_b2a := l_b2a st ++ flat_b2a (l_n_atoms st) [mg];
          l_b2revb := l_b2revb st ++ flat_b2revb (l_n_bonds st) [mg] |}.
Proof.
  intros (Ha & Hb & Hr). unfold loop_body.
  rewrite Ha at 1. rewrite mapM_getitem_range, bind_Ok.
  rewrite Hb at 1. rewrite mapM_getitem_range, bind_Ok.
  rewrite Hr at 1. rewrite mapM_getitem_range, bind_Ok.
  simpl. by rewrite !app_nil_r.
Qed.

Lemma loop_well_formed mgs st :
  Forall well_formed mgs →
  foldM loop_body st mgs =
    Ok {| l_n_atoms := l_n_atoms st + total (n_atoms <$> mgs);
          l_n_bonds := l_n_bonds st + total (n_bonds <$> mgs);
          l_a_scope := l_a_scope st ++ scopes (l_n_atoms st) (n_atoms <$> mgs);
          l_b_scope := l_b_scope st ++ scopes (l_n_bonds st) (n_bonds <$> mgs);
          l_X_vs := l_X_vs st ++ (X_v <$> mgs);
          l_X_es := l_X_es st ++ (X_e <$> mgs);
          l_a2b := l_a2b st ++ flat_a2b (l_n_bonds st) mgs;
          l_b2a := l_b2a st ++ flat_b2a (l_n_atoms st) mgs;
          l_b2revb := l_b2revb st ++ flat_b2revb (l_n_bonds st) mgs |}.
Proof.
  intros H. revert st. induction H as [|mg mgs Hmg _ IH]; intros st.
  - simpl. rewrite !app_nil_r, !Z.add_0_r. by destruct st.
  - cbn [foldM]. rewrite (loop_body_well_formed st mg Hmg), bind_Ok, IH.
    cbn [l_n_atoms l_n_bonds l_a_scope l_b_scope l_X_vs l_X_es l_a2b l_b2a l_b2revb].
    cbn [flat_a2b flat_b2a flat_b2revb scopes total fmap list_fmap foldr].
    rewrite ?app_nil_r, <- ?app_assoc, ?Z.add_assoc. reflexivity.
Qed.

Lemma len_app {A} (l k : list A) : len (l ++ k) = len l + len k.
Proof. unfold len. rewrite length_app. lia. Qed.

Lemma len_flat_a2b k mgs :
  Forall well_formed mgs → len (flat_a2b k mgs) = total (n_atoms <$> mgs).
Proof.
  intros H. revert k. induction H as [|mg mgs (Ha & _) _ IH]; intros k; [done|].
  cbn. rewrite len_app, IH, Ha. unfold len. by rewrite length_fmap.
Qed.

(** The maximum of line 52 is an upper bound that is attained. *)
Lemma foldl_max_spec (xs : list Z) (x : Z) :
  (∀ y, y ∈ x :: xs → y ≤ foldl Z.max x xs) ∧ foldl Z.max x xs ∈ x :: xs.
Proof.
  revert x. induction xs as [|z xs IH]; intros x.
  - simpl. split; [|left]. intros y ->%list_elem_of_singleton. lia.
  - simpl. destruct (IH (Z.max x z)) as [Hub Hin]. split.
    + intros y Hy. assert (Z.max x z ≤ foldl Z.max (Z.max x z) xs) by (apply Hub; left).
      apply elem_of_cons in Hy as [->|Hy]; [lia|].
      apply elem_of_cons in Hy as [->|Hy]; [lia|].
      apply Hub. by right.
    + apply elem_of_cons in Hin as [Heq|Hin].
      * rewrite Heq. destruct (Z.max_spec x z) as [[_ ->]|[_ ->]];
          [right; left|left].
      * right. by right.
Qed.

Lemma length_pad w row : len row ≤ w → len (pad w row) = w.
Proof.
  intros H. unfold pad, repeat_list. rewrite len_app. unfold len in *.
  rewrite length_replicate. lia.
Qed.

Lemma tensor2_Ok rows t : tensor2 rows = Ok t → t = rows.
Proof.
  unfold tensor2. destruct rows; [congruence|]. case_match; congruence.
Qed.

Lemma init_locals_Ok mgs st :
  init_locals mgs = Ok st →
  ∃ v e, st = {| l_n_atoms := 1; l_n_bonds := 1; l_a_scope := []; l_b_scope := [];
                 l_X_vs := [zeros v]; l_X_es := [zeros e];
                 l_a2b := [[]]; l_b2a := [0]; l_b2revb := [0] |}.
Proof.
  unfold init_locals. intros H. do 3 inv_bind H. injection H as <-. by eexists _, _.
Qed.

(** The index arrays of a batch that [collate_graphs] returns: for
    well-formed graphs they are the offset and padded lists, and the scopes
    are the (start, count) pairs from start 1. *)
Theorem collate_graphs_indices (to_float32 : float → float)
    (mgs : list MolGraph) (b : Batch) :
  Forall well_formed mgs →
  collate_graphs to_float32 mgs = Ok b →
  batch_a_scope b = scopes 1 (n_atoms <$> mgs) ∧
  batch_b_scope b = scopes 1 (n_bonds <$> mgs) ∧
  batch_b2a b = 0 :: flat_b2a 1 mgs ∧
  batch_b2revb b = 0 :: flat_b2revb 1 mgs ∧
  ∃ width,
    1 ≤ width ∧
    (∀ in_bonds, in_bonds ∈ flat_a2b 1 mgs → len in_bonds ≤ width) ∧
    (width = 1 ∨ ∃ in_bonds, in_bonds ∈ flat_a2b 1 mgs ∧ len in_bonds = width) ∧
    batch_a2b b = pad width <$> ([] :: flat_a2b 1 mgs) ∧
    Forall (λ row, len row = width) (batch_a2b b).
Proof.
  intros Hwf H. unfold collate_graphs in H.
  inv_bind H. apply init_locals_Ok in E as (v & e & ->).
  rewrite (loop_well_formed mgs _ Hwf), bind_Ok in H.
  cbn [l_n_atoms l_n_bonds l_a_scope l_b_scope l_X_vs l_X_es l_a2b l_b2a l_b2revb
       app] in H.
  unfold finish in H.
  cbn [l_n_atoms l_n_bonds l_a_scope l_b_scope l_X_vs l_X_es l_a2b l_b2a l_b2revb]
    in H.
  do 3 inv_bind H. rename a1 into longest.
  replace (1 + total (n_atoms <$> mgs)) with (len ([] :: flat_a2b 1 mgs)) in H
    by (change ([] :: flat_a2b 1 mgs) with ([[]] ++ flat_a2b 1 mgs);
        rewrite len_app, (len_flat_a2b 1 mgs Hwf); reflexivity).
  rewrite mapM_getitem_range, bind_Ok in H.
  inv_bind H. apply tensor2_Ok in E2 as ->. inv_bind H. injection H as <-.
  cbn [batch_a_scope batch_b_scope batch_b2a batch_b2revb batch_a2b].
  do 4 (split; [reflexivity|]).
  destruct (foldl_max_spec (len <$> flat_a2b 1 mgs) 0) as [Hub Hin].
  set (m := foldl Z.max 0 (len <$> flat_a2b 1 mgs)) in *.
  assert (longest = m) as -> by (simpl in E1; by injection E1).
  assert (Hle : ∀ row, row ∈ flat_a2b 1 mgs → len row ≤ Z.max 1 m).
  { intros row Hrow.
    assert (len row ≤ m) by (apply Hub; right; by apply list_elem_of_fmap_2).
    lia. }
  exists (Z.max 1 m). split; [lia|]. split; [done|]. split; [|split].
  - destruct (Z.max_spec 1 m) as [[Hlt ->]|[_ ->]]; [|by left].
    right. apply elem_of_cons in Hin as [Hm|Hin]; [lia|].
    apply list_elem_of_fmap in Hin as (row & -> & Hrow). by exists row.
  - reflexivity.
  - change (Forall (λ row, len row = Z.max 1 m)
              (pad (Z.max 1 m) <$> ([] :: flat_a2b 1 mgs))).
    apply Forall_fmap, Forall_forall. intros row Hrow. simpl.
    apply length_pad. apply elem_of_cons in Hrow as [->|Hrow]; [|by apply Hle].
    unfold len. simpl. lia.
Qed.

(** Two flat graphs in one batch. *)
Lemma collate_graphs_indices_witness :
  ∃ b, collate_graphs id [mg_flat; mg_flat] = Ok b ∧
       batch_a_scope b = [(1, 3); (4, 3)].
Proof.
  eexists. split; [reflexivity|].
  refine (proj1 (collate_graphs_indices id [mg_flat; mg_flat] _ _ _)).
  - repeat constructor.
  - reflexivity.
Defined.

(** *** Why no batch of feature matrices comes back *)

Lemma loop_features mgs st st' :
  foldM loop_body st mgs = Ok st' →
  l_X_vs st' = l_X_vs st ++ (X_v <$> mgs) ∧
  l_X_es st' = l_X_es st ++ (X_e <$> mgs).
Proof.
  revert st. induction mgs as [|mg mgs IH]; intros st H.
  - injection H as <-. by rewrite !app_nil_r.
  - cbn [foldM] in H. inv_bind H. destruct (IH _ H) as [-> ->].
    unfold loop_body in E. do 3 inv_bind E. injection E as <-. simpl.
    by rewrite <- !app_assoc.
Qed.

Lemma concatenate_zeros_Ok n arrs a :
  concatenate (zeros n :: arrs) = Ok a → Forall (λ x, ndim x = 1%nat) arrs.
Proof.
  unfold concatenate. cbn [shape zeros]. case_match eqn:E; [|done]. intros _.
  cbn [forallb] in E. apply andb_prop in E as [_ E].
  apply Forall_forall. intros x Hx.
  pose proof (proj1 (forallb_forall _ _) E x (proj1 (list_elem_of_In _ _) Hx)) as Hb.
  apply bool_decide_eq_true in Hb as [Ht Hs]. unfold ndim.
  destruct (shape x) as [|k rest]; [done|]. simpl in Ht. by subst.
Qed.

(** [collate_graphs] returns a batch only when every feature array of every
    graph is one-dimensional: a graph with a feature matrix makes it raise. *)
Lemma collate_graphs_returns_only_flat (to_float32 : float → float)
    (mgs : list MolGraph) (b : Batch) :
  collate_graphs to_float32 mgs = Ok b →
  Forall (λ mg, ndim (X_v mg) = 1%nat ∧ ndim (X_e mg) = 1%nat) mgs.
Proof.
  unfold collate_graphs. intros H. inv_bind H.
  apply init_locals_Ok in E as (v & e & ->).
  inv_bind H. apply loop_features in E as [Hv He]. simpl in Hv, He.
  unfold finish in H. rewrite Hv, He in H.
  destruct (concatenate (zeros v :: (X_v <$> mgs))) as [xv|] eqn:Ev; [|done].
  destruct (concatenate (zeros e :: (X_e <$> mgs))) as [xe|] eqn:Ee; [|done].
  apply concatenate_zeros_Ok in Ev, Ee.
  apply Forall_fmap in Ev, Ee. apply Forall_forall. intros mg Hmg. split.
  - by apply (proj1 (Forall_forall _ _) Ev mg).
  - by apply (proj1 (Forall_forall _ _) Ee mg).
Qed.
End batching.

(** ** More on the batch *)

Section batch_shape.
Import Np Collate.

Lemma total_nonneg (f : MolGraph → Z) mgs :
  Forall (λ mg, 0 ≤ f mg) mgs → 0 ≤ total (f <$> mgs).
Proof. induction 1; cbn; [done|]. unfold total in *. lia. Qed.

Lemma well_formed_counts mgs :
  Forall well_formed mgs →
  Forall (λ mg, 0 ≤ n_atoms mg) mgs ∧ Forall (λ mg, 0 ≤ n_bonds mg) mgs.
Proof.
  intros H. split; eapply Forall_impl; try exact H;
    intros mg (Ha & Hb & _); unfold len in *; lia.
Qed.

Lemma len_flat_b2a k mgs :
  Forall well_formed mgs → len (flat_b2a k mgs) = total (n_bonds <$> mgs).
Proof.
  intros H. revert k. induction H as [|mg mgs (_ & Hb & _) _ IH]; intros k; [done|].
  cbn. rewrite len_app, IH, Hb. unfold len. by rewrite length_fmap.
Qed.

Lemma len_flat_b2revb k mgs :
  Forall well_formed mgs → len (flat_b2revb k mgs) = total (n_bonds <$> mgs).
Proof.
  intros H. revert k. induction H as [|mg mgs (_ & _ & Hr) _ IH]; intros k; [done|].
  cbn. rewrite len_app, IH, Hr. unfold len. by rewrite length_fmap.
Qed.

(** The shifted indices of the graphs lie in the window of their batch. *)
Lemma flat_a2b_range k mgs :
  Forall well_formed mgs → Forall in_range mgs →
  Forall (Forall (λ e, k ≤ e < k + total (n_bonds <$> mgs))) (flat_a2b k mgs).
Proof.
  intros Hwf. revert k. induction Hwf as [|mg mgs Hmg Hwf IH]; intros k Hr;
    [constructor|].
  apply Forall_cons in Hr as [(Ha & _) Hr].
  pose proof (proj2 (well_formed_counts mgs Hwf)) as Hnn.
  apply total_nonneg in Hnn.
  destruct Hmg as (_ & Hb & _). assert (0 ≤ n_bonds mg) by (unfold len in Hb; lia).
  cbn. apply Forall_app. split.
  - apply Forall_fmap. eapply Forall_impl; [exact Ha|]. intros row Hrow. simpl.
    apply Forall_fmap. eapply Forall_impl; [exact Hrow|]. intros b Hb'. simpl.
    unfold total in *. lia.
  - eapply Forall_impl; [apply (IH (k + n_bonds mg) Hr)|]. intros row Hrow. simpl in *.
    eapply Forall_impl; [exact Hrow|]. intros e He. simpl in *.
    unfold total in *. lia.
Qed.

Lemma flat_b2a_range k mgs :
  Forall well_formed mgs → Forall in_range mgs →
  Forall (λ e, k ≤ e < k + total (n_atoms <$> mgs)) (flat_b2a k mgs).
Proof.
  intros Hwf. revert k. induction Hwf as [|mg mgs Hmg Hwf IH]; intros k Hr;
    [constructor|].
  apply Forall_cons in Hr as [(_ & Ha & _) Hr].
  pose proof (proj1 (well_formed_counts mgs Hwf)) as Hnn.
  apply total_nonneg in Hnn.
  destruct Hmg as (Hn & _). assert (0 ≤ n_atoms mg) by (unfold len in Hn; lia).
  cbn. apply Forall_app. split.
  - apply Forall_fmap. eapply Forall_impl; [exact Ha|]. intros a Ha'. simpl.
    unfold total in *. lia.
  - eapply Forall_impl; [apply (IH (k + n_atoms mg) Hr)|]. intros e He. simpl in *.
    unfold total in *. lia.
Qed.

Lemma flat_b2revb_range k mgs :
  Forall well_formed mgs → Forall in_range mgs →
  Forall (λ e, k ≤ e < k + total (n_bonds <$> mgs)) (flat_b2revb k mgs).
Proof.
  intros Hwf. revert k. induction Hwf as [|mg mgs Hmg Hwf IH]; intros k Hr;
    [constructor|].
  apply Forall_cons in Hr as [(_ & _ & Ha) Hr].
  pose proof (proj2 (well_formed_counts mgs Hwf)) as Hnn.
  apply total_nonneg in Hnn.
  destruct Hmg as (_ & Hn & _). assert (0 ≤ n_bonds mg) by (unfold len in Hn; lia).
  cbn. apply Forall_app. split.
  - apply Forall_fmap. eapply Forall_impl; [exact Ha|]. intros a Ha'. simpl.
    unfold total in *. lia.
  - eapply Forall_impl; [apply (IH (k + n_bonds mg) Hr)|]. intros e He. simpl in *.
    unfold total in *. lia.
Qed.

Lemma tensor2_rectangular (w : Z) rows :
  Forall (λ row : list Z, len row = w) rows → tensor2 rows = Ok rows.
Proof.
  intros H. unfold tensor2. destruct rows as [|r rows']; [done|].
  replace (forallb _ _) with true; [done|]. symmetry. apply forallb_forall.
  intros r' Hr'. apply bool_decide_eq_true_2.
  apply list_elem_of_In in Hr'.
  pose proof (proj1 (Forall_forall _ _) H r' Hr') as H1.
  pose proof (proj1 (Forall_forall _ _) H r (list_elem_of_here _ _)) as H2.
  unfold len in *. lia.
Qed.

Lemma getitem_at_index (t : list Z) (e : Z) :
  0 ≤ e < len t → getitem t e = Ok (at_index t e).
Proof.
  intros [H0 H1]. unfold at_index, len in *.
  destruct (lookup_lt_is_Some_2 t (Z.to_nat e)) as [x Hx]; [lia|].
  rewrite Hx. simpl. rewrite <- (Z2Nat.id e) at 1 by done. by apply getitem_nat.
Qed.

Lemma index_by_in_range (t : list Z) (rows : list (list Z)) :
  Forall (Forall (λ e, 0 ≤ e < len t)) rows →
  index_by t rows = Ok ((λ row : list Z, at_index t <$> row) <$> rows).
Proof.
  intros H. unfold index_by. apply mapM_Ok_fmap.
  eapply Forall_impl; [exact H|]. intros row Hrow. simpl.
  apply mapM_Ok_fmap. eapply Forall_impl; [exact Hrow|].
  intros e He. by apply getitem_at_index.
Qed.

Lemma widest_bound rows row : row ∈ rows → len row ≤ widest rows.
Proof.
  intros H. unfold widest.
  destruct (foldl_max_spec (len <$> rows) 0) as [Hub _].
  assert (len row ≤ foldl Z.max 0 (len <$> rows))
    by (apply Hub; right; by apply list_elem_of_fmap_2).
  lia.
Qed.

Lemma pad_rows_rectangular rows :
  Forall (λ row, len row = widest rows) (pad (widest rows) <$> ([] :: rows)).
Proof.
  apply Forall_fmap, Forall_forall. intros row Hrow. simpl. apply length_pad.
  apply elem_of_cons in Hrow as [->|Hrow]; [|by apply widest_bound].
  unfold widest, len. simpl. lia.
Qed.

(** What follows the loop, on the state the loop leaves for well-formed
    graphs. *)
Lemma finish_spec to_float32 st rest xv xe :
  concatenate (l_X_vs st) = Ok xv → concatenate (l_X_es st) = Ok xe →
  l_a2b st = [] :: rest → l_n_atoms st = len (l_a2b st) →
  finish to_float32 st =
    (a2a ← index_by (l_b2a st) (pad (widest rest) <$> ([] :: rest));
     Ok {| batch_X_v := astype to_float32 xv; batch_X_e := astype to_float32 xe;
           batch_a2b := pad (widest rest) <$> ([] :: rest);
           batch_b2a := l_b2a st; batch_b2revb := l_b2revb st;
           batch_a_scope := l_a_scope st; batch_b_scope := l_b_scope st;
           batch_a2a := a2a |}).
Proof.
  intros Hv He Ha Hn. unfold finish. rewrite Hv, He, Hn, Ha.
  change (astype to_float32 <$> Ok xv) with (Ok (astype to_float32 xv)).
  change (astype to_float32 <$> Ok xe) with (Ok (astype to_float32 xe)).
  rewrite !bind_Ok.
  change (max_of (len <$> [] :: rest)) with (Ok (foldl Z.max 0 (len <$> rest))).
  rewrite bind_Ok.
  change (Z.max 1 (foldl Z.max 0 (len <$> rest))) with (widest rest).
  rewrite (mapM_getitem_range
             (λ in_bonds, in_bonds ++ repeat_list 0 (widest rest - len in_bonds))
             ([] :: rest)), bind_Ok.
  change (λ in_bonds : list Z, in_bonds ++ repeat_list 0 (widest rest - len in_bonds))
    with (pad (widest rest)).
  by rewrite (tensor2_rectangular _ _ (pad_rows_rectangular rest)), bind_Ok.
Qed.

Lemma init_locals_flat mg mgs :
  flat_features mg →
  ∃ v e, init_locals (mg :: mgs) =
    Ok {| l_n_atoms := 1; l_n_bonds := 1; l_a_scope := []; l_b_scope := [];
          l_X_vs := [zeros v]; l_X_es := [zeros e];
          l_a2b := [[]]; l_b2a := [0]; l_b2revb := [0] |}.
Proof.
  intros [Hv He]. unfold init_locals, shape0, ndim in *.
  change (getitem (mg :: mgs) 0) with (Ok mg). rewrite bind_Ok.
  destruct (shape (X_v mg)) as [|v ?]; [done|].
  destruct (shape (X_e mg)) as [|e ?]; [done|].
  by exists v, e.
Qed.

Lemma concatenate_flat n arrs :
  Forall (λ x, ndim x = 1%nat) arrs →
  concatenate (zeros n :: arrs) =
    Ok {| shape := [sum_list (default 0%nat ∘ head ∘ shape <$> zeros n :: arrs)];
          data := concat (data <$> zeros n :: arrs) |}.
Proof.
  intros H. unfold concatenate. cbn [shape zeros].
  replace (forallb _ _) with true; [done|]. symmetry.
  cbn [forallb]. apply andb_true_intro. split; [by apply bool_decide_eq_true_2|].
  apply forallb_forall. intros x Hx. apply bool_decide_eq_true_2.
  apply list_elem_of_In in Hx.
  pose proof (proj1 (Forall_forall _ _) H x Hx) as H1. unfold ndim in H1.
  destruct (shape x) as [|k [|]]; simpl in *; by try lia.
Qed.

Lemma Forall_pad (P : Z → Prop) w row : P 0 → Forall P row → Forall P (pad w row).
Proof.
  intros H0 Hrow. unfold pad, repeat_list. apply Forall_app. split; [done|].
  by apply Forall_replicate.
Qed.

(** The batch of well-formed, in-range graphs with one-dimensional
    features, field by field. *)
Lemma collate_graphs_flat to_float32 mgs :
  mgs ≠ [] →
  Forall well_formed mgs → Forall in_range mgs → Forall flat_features mgs →
  ∃ xv xe,
    collate_graphs to_float32 mgs =
      Ok {| batch_X_v := xv; batch_X_e := xe;
            batch_a2b := pad (widest (flat_a2b 1 mgs)) <$> ([] :: flat_a2b 1 mgs);
            batch_b2a := 0 :: flat_b2a 1 mgs;
            batch_b2revb := 0 :: flat_b2revb 1 mgs;
            batch_a_scope := scopes 1 (n_atoms <$> mgs);
            batch_b_scope := scopes 1 (n_bonds <$> mgs);
            batch_a2a :=
              (λ row : list Z, at_index (0 :: flat_b2a 1 mgs) <$> row)
                <$> (pad (widest (flat_a2b 1 mgs)) <$> ([] :: flat_a2b 1 mgs)) |}.
Proof.
  intros Hne Hwf Hr Hf. destruct mgs as [|mg rest]; [done|].
  destruct (init_locals_flat mg rest) as (v & e & Hi);
    [by apply Forall_cons in Hf as [? _]|].
  remember (mg :: rest) as mgs eqn:Hmgs. clear Hmgs Hne.
  unfold collate_graphs. rewrite Hi, bind_Ok.
  rewrite (loop_well_formed mgs _ Hwf), bind_Ok.
  cbn [l_n_atoms l_n_bonds l_a_scope l_b_scope l_X_vs l_X_es l_a2b l_b2a l_b2revb app].
  assert (Hv := concatenate_flat v (X_v <$> mgs)).
  assert (He := concatenate_flat e (X_e <$> mgs)).
  specialize (Hv ltac:(apply Forall_fmap; eapply Forall_impl; [exact Hf|];
                        by intros ? [? _])).
  specialize (He ltac:(apply Forall_fmap; eapply Forall_impl; [exact Hf|];
                        by intros ? [_ ?])).
  erewrite (finish_spec to_float32 _ (flat_a2b 1 mgs));
    [|exact Hv|exact He|reflexivity|].
  2:{ cbn [l_n_atoms l_a2b].
      change ([] :: flat_a2b 1 mgs) with ([[]] ++ flat_a2b 1 mgs).
      by rewrite len_app, (len_flat_a2b 1 mgs Hwf). }
  cbn [l_b2a l_b2revb l_a_scope l_b_scope app].
  rewrite index_by_in_range, bind_Ok; [by eexists _, _|].
  assert (len (0 :: flat_b2a 1 mgs) = 1 + total (n_bonds <$> mgs)) as ->.
  { change (0 :: flat_b2a 1 mgs) with ([0] ++ flat_b2a 1 mgs).
    by rewrite len_app, (len_flat_b2a 1 mgs Hwf). }
  pose proof (total_nonneg n_bonds mgs (proj2 (well_formed_counts mgs Hwf))) as Hnn.
  apply Forall_fmap, Forall_forall. intros row Hrow. simpl.
  apply Forall_pad; [cbn beta; lia|].
  apply elem_of_cons in Hrow as [->|Hrow]; [constructor|].
  pose proof (proj1 (Forall_forall _ _) (flat_a2b_range 1 mgs Hwf Hr) row Hrow) as H1.
  eapply Forall_impl; [exact H1|]. intros x Hx. simpl in Hx. lia.
Qed.

Lemma Ok_inj {A} (x y : A) : Ok x = Ok y → x = y.
Proof. congruence. Qed.

Lemma scopes_range k counts :
  Forall (λ c, 0 ≤ c) counts →
  Forall (λ sc : Z * Z, k ≤ sc.1 ∧ 0 ≤ sc.2 ∧ sc.1 + sc.2 ≤ k + total counts)
         (scopes k counts).
Proof.
  intros H. revert k. induction H as [|c cs Hc Hcs IH]; intros k; [constructor|].
  assert (0 ≤ total cs) by (clear IH; induction Hcs; cbn in *; unfold total in *; lia).
  cbn. constructor; [cbn; unfold total in *; lia|].
  eapply Forall_impl; [apply (IH (k + c))|]. intros [s n] Hs. cbn in *.
  unfold total in *. lia.
Qed.

(** The reverse-bond list of the batch undoes itself when every graph's
    does. *)
Lemma flat_b2revb_involutive k mgs (j : nat) (x : Z) :
  Forall well_formed mgs → Forall in_range mgs → Forall reverse_involutive mgs →
  flat_b2revb k mgs !! j = Some x →
  k ≤ x ∧ flat_b2revb k mgs !! Z.to_nat (x - k) = Some (k + Z.of_nat j).
Proof.
  intros Hwf. revert k j. induction Hwf as [|mg mgs Hmg Hwf IH];
    intros k j Hr Hinv Hj; [done|].
  apply Forall_cons in Hr as [Hr0 Hr]. apply Forall_cons in Hinv as [Hinv0 Hinv].
  destruct Hmg as (_ & _ & Hlen). destruct Hr0 as (_ & _ & Hrange).
  cbn in Hj |- *.
  destruct (decide (j < length (b2revb mg))%nat) as [Hlt|Hge].
  - rewrite lookup_app_l in Hj by (by rewrite length_fmap).
    rewrite list_lookup_fmap in Hj.
    destruct (b2revb mg !! j) as [r|] eqn:Er; [|done]. injection Hj as <-.
    pose proof (proj1 (Forall_forall _ _) Hrange r (list_elem_of_lookup_2 _ _ _ Er)) as Hb.
    simpl in Hb. split; [lia|].
    replace (k + r - k) with r by lia.
    rewrite lookup_app_l by (rewrite length_fmap; unfold len in Hlen; lia).
    by rewrite list_lookup_fmap, (Hinv0 j r Er).
  - rewrite lookup_app_r in Hj by (rewrite length_fmap; lia).
    rewrite length_fmap in Hj.
    destruct (IH (k + n_bonds mg) _ Hr Hinv Hj) as [Hle Hx].
    assert (n_bonds mg = Z.of_nat (length (b2revb mg))) as Hn by exact Hlen.
    split; [lia|].
    rewrite lookup_app_r by (rewrite length_fmap; lia).
    rewrite length_fmap.
    replace (Z.to_nat (x - k) - length (b2revb mg))%nat
      with (Z.to_nat (x - (k + n_bonds mg))) by lia.
    rewrite Hx. f_equal. lia.
Qed.

(** No batch without graphs, and none of feature matrices: whenever
    [collate_graphs] returns, the sequence is not empty and every feature
    array of every graph is one-dimensional. *)
Theorem collate_graphs_needs_flat_graphs (to_float32 : float → float)
    (mgs : list MolGraph) (b : Batch) :
  collate_graphs to_float32 mgs = Ok b →
  mgs ≠ [] ∧ Forall flat_features mgs.
Proof.
  intros H. split.
  - intros ->. discriminate H.
  - exact (collate_graphs_returns_only_flat _ _ _ H).
Qed.

Lemma collate_graphs_needs_flat_graphs_witness :
  [mg_flat] ≠ [] ∧ Forall flat_features [mg_flat].
Proof.
  refine (collate_graphs_needs_flat_graphs id [mg_flat] _ _). reflexivity.
Defined.

(** For well-formed, in-range graphs with one-dimensional feature arrays
    [collate_graphs] returns a batch.  Its [a2b] has one row per atom and
    its [b2a] and [b2revb] one entry per bond, each after one padding slot,
    and [a2a] holds, entry by entry, the source atom [b2a[a2b[i][j]]] of the
    incoming bond. *)
Theorem collate_graphs_returns (to_float32 : float → float) (mgs : list MolGraph) :
  mgs ≠ [] →
  Forall well_formed mgs → Forall in_range mgs → Forall flat_features mgs →
  ∃ b, collate_graphs to_float32 mgs = Ok b ∧
       len (batch_a2b b) = 1 + total (n_atoms <$> mgs) ∧
       len (batch_b2a b) = 1 + total (n_bonds <$> mgs) ∧
       len (batch_b2revb b) = 1 + total (n_bonds <$> mgs) ∧
       batch_a2a b = (λ row : list Z, at_index (batch_b2a b) <$> row) <$> batch_a2b b.
Proof.
  intros Hne Hwf Hr Hf.
  destruct (collate_graphs_flat to_float32 mgs Hne Hwf Hr Hf) as (xv & xe & ->).
  eexists. split; [reflexivity|]. cbn [batch_a2b batch_b2a batch_b2revb batch_a2a].
  repeat split.
  - unfold len. rewrite length_fmap. cbn [length].
    pose proof (len_flat_a2b 1 mgs Hwf) as H. unfold len in H. lia.
  - pose proof (len_flat_b2a 1 mgs Hwf) as H. unfold len in *. cbn [length]. lia.
  - pose proof (len_flat_b2revb 1 mgs Hwf) as H. unfold len in *. cbn [length]. lia.
Qed.

Lemma collate_graphs_returns_witness :
  ∃ b, collate_graphs id [mg_flat; mg_flat] = Ok b ∧
       len (batch_a2b b) = 1 + total [3; 3] ∧
       len (batch_b2a b) = 1 + total [4; 4] ∧
       len (batch_b2revb b) = 1 + total [4; 4] ∧
       batch_a2a b = (λ row : list Z, at_index (batch_b2a b) <$> row) <$> batch_a2b b.
Proof.
  refine (collate_graphs_returns id [mg_flat; mg_flat] _ _ _ _).
  - discriminate.
  - repeat constructor.
  - repeat constructor; cbn; lia.
  - repeat constructor.
Defined.

(** In the batch of well-formed, in-range graphs every index stays inside
    the array it points into: the entries of [a2b] index [b2a], the entries of
    [b2a] index the rows of [a2b], the entries of [b2revb] index [b2revb], and
    every scope (start, count) lies behind the padding slot and inside its
    array. *)
Theorem collate_graphs_indices_in_range (to_float32 : float → float)
    (mgs : list MolGraph) (b : Batch) :
  Forall well_formed mgs → Forall in_range mgs → Forall flat_features mgs →
  collate_graphs to_float32 mgs = Ok b →
  Forall (Forall (λ e, 0 ≤ e < len (batch_b2a b))) (batch_a2b b) ∧
  Forall (λ a, 0 ≤ a < len (batch_a2b b)) (batch_b2a b) ∧
  Forall (λ r, 0 ≤ r < len (batch_b2revb b)) (batch_b2revb b) ∧
  Forall (λ sc : Z * Z, 1 ≤ sc.1 ∧ 0 ≤ sc.2 ∧ sc.1 + sc.2 ≤ len (batch_a2b b))
         (batch_a_scope b) ∧
  Forall (λ sc : Z * Z, 1 ≤ sc.1 ∧ 0 ≤ sc.2 ∧ sc.1 + sc.2 ≤ len (batch_b2a b))
         (batch_b_scope b).
Proof.
  intros Hwf Hr Hf H.
  assert (Hne : mgs ≠ []) by (intros ->; discriminate H).
  destruct (collate_graphs_flat to_float32 mgs Hne Hwf Hr Hf) as (xv & xe & E).
  rewrite E in H. apply Ok_inj in H. subst b.
  cbn [batch_a2b batch_b2a batch_b2revb batch_a_scope batch_b_scope].
  destruct (well_formed_counts mgs Hwf) as [Hna Hnb].
  pose proof (total_nonneg n_atoms mgs Hna) as Ta.
  pose proof (total_nonneg n_bonds mgs Hnb) as Tb.
  assert (La : len (pad (widest (flat_a2b 1 mgs)) <$> [] :: flat_a2b 1 mgs)
               = 1 + total (n_atoms <$> mgs)).
  { unfold len. rewrite length_fmap. cbn [length].
    pose proof (len_flat_a2b 1 mgs Hwf) as H. unfold len in H. lia. }
  assert (Lb : len (0 :: flat_b2a 1 mgs) = 1 + total (n_bonds <$> mgs)).
  { pose proof (len_flat_b2a 1 mgs Hwf) as H. unfold len in *. cbn [length]. lia. }
  assert (Lr : len (0 :: flat_b2revb 1 mgs) = 1 + total (n_bonds <$> mgs)).
  { pose proof (len_flat_b2revb 1 mgs Hwf) as H. unfold len in *. cbn [length]. lia. }
  rewrite La, Lb, Lr. split; [|split; [|split; [|split]]].
  - apply Forall_fmap, Forall_forall. intros row Hrow. simpl.
    apply Forall_pad; [cbn beta; lia|].
    apply elem_of_cons in Hrow as [->|Hrow]; [constructor|].
    pose proof (proj1 (Forall_forall _ _) (flat_a2b_range 1 mgs Hwf Hr) row Hrow) as H1.
    eapply Forall_impl; [exact H1|]. intros x Hx. simpl in Hx. lia.
  - constructor; [lia|].
    eapply Forall_impl; [exact (flat_b2a_range 1 mgs Hwf Hr)|].
    intros x Hx. simpl in Hx. lia.
  - constructor; [lia|].
    eapply Forall_impl; [exact (flat_b2revb_range 1 mgs Hwf Hr)|].
    intros x Hx. simpl in Hx. lia.
  - apply scopes_range. by apply Forall_fmap.
  - apply scopes_range. by apply Forall_fmap.
Qed.

Lemma collate_graphs_indices_in_range_witness :
  ∃ b, collate_graphs id [mg_flat; mg_flat] = Ok b ∧
       Forall (λ a, 0 ≤ a < len (batch_a2b b)) (batch_b2a b).
Proof.
  eexists. split; [reflexivity|].
  refine (proj1 (proj2 (collate_graphs_indices_in_range id [mg_flat; mg_flat] _
                          _ _ _ _))).
  - repeat constructor.
  - repeat constructor; cbn; lia.
  - repeat constructor.
  - reflexivity.
Defined.

(** When in every graph the reverse of the reverse of a bond is the bond,
    the same holds in the batch, padding slot included:
    [b2revb[b2revb[i]] = i] for every index [i] of the batch. *)
Theorem collate_graphs_reverse_involutive (to_float32 : float → float)
    (mgs : list MolGraph) (b : Batch) :
  Forall well_formed mgs → Forall in_range mgs → Forall flat_features mgs →
  Forall reverse_involutive mgs →
  collate_graphs to_float32 mgs = Ok b →
  ∀ (i : nat) (r : Z), batch_b2revb b !! i = Some r →
    0 ≤ r ∧ batch_b2revb b !! Z.to_nat r = Some (Z.of_nat i).
Proof.
  intros Hwf Hr Hf Hinv H i r Hi.
  assert (Hne : mgs ≠ []) by (intros ->; discriminate H).
  destruct (collate_graphs_flat to_float32 mgs Hne Hwf Hr Hf) as (xv & xe & E).
  rewrite E in H. apply Ok_inj in H. subst b. cbn [batch_b2revb] in *.
  destruct i as [|j].
  - injection Hi as <-. by split.
  - cbn in Hi.
    destruct (flat_b2revb_involutive 1 mgs j r Hwf Hr Hinv Hi) as [Hle Hx].
    split; [lia|].
    replace (Z.to_nat r) with (S (Z.to_nat (r - 1))) by lia.
    change ((0 :: flat_b2revb 1 mgs) !! S (Z.to_nat (r - 1)))
      with (flat_b2revb 1 mgs !! Z.to_nat (r - 1)).
    rewrite Hx. f_equal. lia.
Qed.

Lemma collate_graphs_reverse_involutive_witness :
  ∃ b, collate_graphs id [mg_flat; mg_flat] = Ok b ∧
       batch_b2revb b !! Z.to_nat 6 = Some 5.
Proof.
  eexists. split; [reflexivity|].
  refine (proj2 (collate_graphs_reverse_involutive id [mg_flat; mg_flat] _ _ _ _ _ _
                   5%nat 6 _)).
  - repeat constructor.
  - repeat constructor; cbn; lia.
  - repeat constructor.
  - repeat constructor; intros [|[|[|[|?]]]] r Hb; cbn in Hb; by simplify_eq.
  - reflexivity.
  - reflexivity.
Defined.
End batch_shape.

(** ** More on the data loader *)

Section loader_more.
Import Loader.

(** [[f(l[i]) for i in range(len(l))]] where [f] may raise. *)
Lemma mapM_getitem_seq_bind {A B} (f : A → result B) (pre l : list A) :
  mapM (λ i, x ← getitem (pre ++ l) i; f x)
       (Z.of_nat <$> seq (length pre) (length l))
  = mapM f l.
Proof.
  revert pre. induction l as [|a l IH]; intros pre; [done|].
  cbn [length seq fmap list_fmap mapM].
  rewrite (getitem_nat (pre ++ a :: l) (length pre) a)
    by (by rewrite lookup_app_r, Nat.sub_diag by lia).
  rewrite bind_Ok.
  specialize (IH (pre ++ [a])). rewrite <- app_assoc, length_app in IH.
  cbn [length app] in IH. rewrite Nat.add_1_r in IH.
  change (list_fmap nat Z Z.of_nat) with (fmap (M:=list) Z.of_nat).
  by rewrite IH.
Qed.

Lemma mapM_getitem_range_bind {A B} (f : A → result B) (l : list A) :
  mapM (λ i, x ← getitem l i; f x) (range (len l)) = mapM f l.
Proof.
  unfold range, len. rewrite Nat2Z.id. apply (mapM_getitem_seq_bind f [] l).
Qed.

Lemma mapM_getattr_all {A B} (g : A → option B) (l : list A) (vs : list B) :
  g <$> l = Some <$> vs → mapM (λ x, getattr (g x)) l = Ok vs.
Proof.
  revert vs. induction l as [|a l IH]; intros [|v vs] H; try done.
  cbn in H. injection H as Ha Hl. cbn [mapM]. rewrite Ha. cbn [getattr].
  by rewrite bind_Ok, (IH vs Hl), bind_Ok.
Qed.

Lemma mapM_getattr_missing {A B} (g : A → option B) (l : list A) (x : A) :
  x ∈ l → g x = None → mapM (λ x, getattr (g x)) l = Raise AttributeError.
Proof.
  intros Hx Hg. induction l as [|a l IH]; [by apply elem_of_nil in Hx|].
  cbn [mapM]. destruct (g a) as [v|] eqn:Ea; [|done].
  cbn [getattr]. rewrite bind_Ok.
  apply elem_of_cons in Hx as [->|Hx]; [congruence|].
  by rewrite (IH Hx), bind_Raise.
Qed.



(** The inequality flags of an unshuffled loader.  On an empty dataset
    [targets] returns an empty array but [gt_targets] and [lt_targets] raise
    [IndexError], for they look at [dataset[0]].  When every datapoint has the
    attribute they return the flags in dataset order.  Only the first
    datapoint is tested with [hasattr]: when it has the attribute and a later
    one lacks it, the property raises [AttributeError]. *)
Theorem inequality_targets_spec (random_order : sampler → list Datum → list Z)
    (ds : list Datum) (batch_size num_workers : Z) (sd : option Z)
    (dl : MoleculeDataLoader) :
  init ds batch_size num_workers false sd false = Ok dl →
  (ds = [] →
     targets random_order dl = Ok [] ∧
     gt_targets random_order dl = Raise IndexError ∧
     lt_targets random_order dl = Raise IndexError) ∧
  (∀ vs, ds ≠ [] → d_gt_targets <$> ds = Some <$> vs →
     gt_targets random_order dl = Ok (Some vs)) ∧
  (∀ vs, ds ≠ [] → d_lt_targets <$> ds = Some <$> vs →
     lt_targets random_order dl = Ok (Some vs)) ∧
  (∀ d0 rest d, ds = d0 :: rest → is_Some (d_gt_targets d0) →
     d ∈ rest → d_gt_targets d = None →
     gt_targets random_order dl = Raise AttributeError) ∧
  (∀ d0 rest d, ds = d0 :: rest → is_Some (d_lt_targets d0) →
     d ∈ rest → d_lt_targets d = None →
     lt_targets random_order dl = Raise AttributeError).
Proof.
  intros Hi. apply init_sampler in Hi as (Hds & Hcb & Hsh & s & Hs & Hseq).
  rewrite (Hseq eq_refl eq_refl) in Hs.
  unfold targets, gt_targets, lt_targets, iter_sampler.
  rewrite Hcb, Hsh, Hs, Hds. cbn [orb]. rewrite !bind_Ok.
  split; [|split; [|split; [|split]]].
  - intros ->. by repeat split.
  - intros vs Hne Hall. destruct ds as [|d0 rest]; [done|].
    change (getitem (d0 :: rest) 0) with (Ok d0). rewrite bind_Ok.
    destruct vs as [|v0 vs']; [done|]. cbn in Hall. injection Hall as H0 Hrest.
    rewrite H0. rewrite bool_decide_eq_false_2 by done.
    rewrite (mapM_getitem_range_bind (λ d, getattr (d_gt_targets d)) (d0 :: rest)).
    rewrite (mapM_getattr_all d_gt_targets (d0 :: rest) (v0 :: vs'));
      [done|cbn; by rewrite H0, Hrest].
  - intros vs Hne Hall. destruct ds as [|d0 rest]; [done|].
    change (getitem (d0 :: rest) 0) with (Ok d0). rewrite bind_Ok.
    destruct vs as [|v0 vs']; [done|]. cbn in Hall. injection Hall as H0 Hrest.
    rewrite H0. rewrite bool_decide_eq_false_2 by done.
    rewrite (mapM_getitem_range_bind (λ d, getattr (d_lt_targets d)) (d0 :: rest)).
    rewrite (mapM_getattr_all d_lt_targets (d0 :: rest) (v0 :: vs'));
      [done|cbn; by rewrite H0, Hrest].
  - intros d0 rest d -> [v0 H0] Hd Hnone.
    change (getitem (d0 :: rest) 0) with (Ok d0). rewrite bind_Ok.
    rewrite H0. rewrite bool_decide_eq_false_2 by done.
    rewrite (mapM_getitem_range_bind (λ d, getattr (d_gt_targets d)) (d0 :: rest)).
    rewrite (mapM_getattr_missing d_gt_targets (d0 :: rest) d); [done| |done].
    by right.
  - intros d0 rest d -> [v0 H0] Hd Hnone.
    change (getitem (d0 :: rest) 0) with (Ok d0). rewrite bind_Ok.
    rewrite H0. rewrite bool_decide_eq_false_2 by done.
    rewrite (mapM_getitem_range_bind (λ d, getattr (d_lt_targets d)) (d0 :: rest)).
    rewrite (mapM_getattr_missing d_lt_targets (d0 :: rest) d); [done| |done].
    by right.
Qed.

(** A loader over no molecule at all. *)
Lemma inequality_targets_spec_witness :
  ∃ dl, init [] 50 12 false None false = Ok dl ∧
        targets (λ _ _, []) dl = Ok [] ∧
        gt_targets (λ _ _, []) dl = Raise IndexError ∧
        lt_targets (λ _ _, []) dl = Raise IndexError.
Proof.
  eexists. split; [reflexivity|].
  refine (proj1 (inequality_targets_spec (λ _ _, []) [] 50 12 None _ _) _);
    reflexivity.
Defined.
End loader_more.

(** ** More on the command line *)

Section command_line_more.
Import EndToEnd.

Lemma lower_ascii_idemp (c : ascii) : lower_ascii (lower_ascii c) = lower_ascii c.
Proof. by destruct c as [[] [] [] [] [] [] [] []]. Qed.

Lemma lower_idemp (s : string) : lower (lower s) = lower s.
Proof.
  induction s as [|c s IH]; [done|]. cbn [lower]. by rewrite lower_ascii_idemp, IH.
Qed.

(** [str2bool] does not see the case of its argument: lower-casing a string
    first changes nothing, and two strings that differ in case only get the
    same answer. *)
Theorem str2bool_ignores_case :
  (∀ s, str2bool (VStr (lower s)) = str2bool (VStr s)) ∧
  (∀ s s', lower s = lower s' → str2bool (VStr s) = str2bool (VStr s')).
Proof.
  split.
  - intros s. unfold str2bool. by rewrite lower_idemp.
  - intros s s' H. unfold str2bool. by rewrite H.
Qed.

Lemma flag_raises d o e : flag d o = Raise e → e = SystemExit 2.
Proof.
  unfold flag. destruct o as [s|]; [|done].
  destruct (str2bool _); congruence.
Qed.

Lemma choice_raises cs d o e : choice cs d o = Raise e → e = SystemExit 2.
Proof.
  unfold choice. destruct o as [s|]; [|done].
  destruct (bool_decide _); congruence.
Qed.

Lemma choice_Ok cs d o s : d ∈ cs → choice cs d o = Ok s → s ∈ cs.
Proof.
  intros Hd. unfold choice. destruct o as [s'|]; [|congruence].
  destruct (bool_decide_reflect (s' ∈ cs)); congruence.
Qed.

(** Peel the first statement off a computation that raised. *)
Ltac inv_bind_raise H :=
  match type of H with
  | (?r ≫= _) = Raise _ =>
      let E := fresh "E" in
      destruct r eqn:E; [rewrite bind_Ok in H | rewrite bind_Raise in H]
  end.

(** The only way [parse_args] fails is argparse's exit with status 2, and
    the namespace it returns has its [model_type] and its [split_type] among
    the choices of [add_args]. *)
Theorem parse_args_outcomes (argv : Argv) :
  (∀ e, parse_args argv = Raise e → e = SystemExit 2) ∧
  (∀ args, parse_args argv = Ok args →
     model_type args ∈ model_type_choices ∧ split_type args ∈ split_type_choices).
Proof.
  split.
  - intros e H. unfold parse_args in H.
    inv_bind_raise H; [|injection H as <-; by eapply choice_raises].
    inv_bind_raise H; [|injection H as <-; by eapply flag_raises].
    inv_bind_raise H; [|injection H as <-; by eapply flag_raises].
    inv_bind_raise H; [|injection H as <-; by eapply flag_raises].
    inv_bind_raise H; [|injection H as <-; by eapply choice_raises].
    inv_bind_raise H; [|injection H as <-; by eapply flag_raises].
    discriminate H.
  - intros args H. unfold parse_args in H. do 6 inv_bind H. injection H as <-.
    cbn [model_type split_type]. split.
    + eapply choice_Ok; [|exact E]. unfold model_type_choices. set_solver.
    + eapply choice_Ok; [|exact E3]. unfold split_type_choices. set_solver.
Qed.

(** The command line [--model_type delta_ml --split_type scaffold
    --scale_data YES]. *)
Lemma parse_args_outcomes_witness :
  ∃ args, parse_args (mkArgv (Some "delta_ml") None None None (Some "YES") None
                             None None None None None None (Some "scaffold")
                             None None None None) = Ok args ∧
          model_type args ∈ model_type_choices ∧
          split_type args ∈ split_type_choices.
Proof.
  eexists. split; [reflexivity|].
  refine (proj2 (parse_args_outcomes
                   (mkArgv (Some "delta_ml") None None None (Some "YES") None
                           None None None None None None (Some "scaffold")
                           None None None None)) _ _).
  reflexivity.
Defined.


End command_line_more.

(** ** What the synthesis leaves alone *)

Section low_fidelity_more.
Import EndToEnd.

(** Each step either hands the frame on or assigns its low-fidelity
    column. *)
Lemma init_lf_frame args df df' :
  init_lf args df = Ok df' →
  df' = df ∨ ∃ x, df' = setcol df (lf_col_name args) x.
Proof.
  unfold init_lf. destruct (negb _); [|intros [= <-]; by left].
  intros H. inv_bind H. injection H as <-. right. by eexists.
Qed.

Lemma add_pn_bias_frame ext args df g df' g' :
  add_pn_bias ext args (df, g) = Ok (df', g') →
  (df' = df ∨ ∃ x, df' = setcol df (lf_col_name args) x) ∧
  (add_pn_bias_to_make_lf args ≤ 0 → g' = g).
Proof.
  unfold add_pn_bias. destruct (Z.ltb_spec 0 (add_pn_bias_to_make_lf args)) as [Hlt|Hle].
  - destruct (np_random_uniform _ _ _ _ _). intros H. do 3 inv_bind H.
    injection H as <- <-. split; [right; by eexists|lia].
  - intros [= <- <-]. split; [by left|done].
Qed.

Lemma add_constant_bias_frame ext args df g df' g' :
  add_constant_bias ext args (df, g) = Ok (df', g') →
  (df' = df ∨ ∃ x, df' = setcol df (lf_col_name args) x) ∧ g' = g.
Proof.
  unfold add_constant_bias. destruct (negb _).
  - intros H. inv_bind H. injection H as <- <-. split; [right; by eexists|done].
  - intros [= <- <-]. split; [by left|done].
Qed.

Lemma add_gauss_noise_frame ext args df g df' g' :
  add_gauss_noise ext args (df, g) = Ok (df', g') →
  (df' = df ∨ ∃ x, df' = setcol df (lf_col_name args) x) ∧ g' = g.
Proof.
  unfold add_gauss_noise. destruct (0 <? _)%float.
  - intros H. do 2 inv_bind H. injection H as <- <-.
    split; [right; by eexists|done].
  - intros [= <- <-]. split; [by left|done].
Qed.

Lemma add_descriptor_bias_frame ext args df g df' g' :
  add_descriptor_bias ext args (df, g) = Ok (df', g') →
  (df' = df ∨ ∃ x, df' = setcol df (lf_col_name args) x) ∧
  ((add_descriptor_bias_to_make_lf args =? 0)%float = true → g' = g).
Proof.
  unfold add_descriptor_bias.
  destruct (add_descriptor_bias_to_make_lf args =? 0)%float; cbn [negb].
  - intros [= <- <-]. split; [by left|done].
  - destruct (np_random_uniform _ _ _ _ _). intros H. do 2 inv_bind H.
    injection H as <- <-. split; [right; by eexists|done].
Qed.

Lemma frame_step df1 df2 df3 c :
  (df2 = df1 ∨ ∃ x, df2 = setcol df1 c x) →
  (df3 = df2 ∨ ∃ x, df3 = setcol df2 c x) →
  df3 = df1 ∨ ∃ x, df3 = setcol df1 c x.
Proof.
  intros [->|[x ->]] [->|[y ->]]; eauto.
  right. exists y. apply setcol_setcol.
Qed.

Lemma make_lf_frame ext args df g df' g' :
  make_lf ext args df g = Ok (df', g') →
  df' = df ∨ ∃ x, df' = setcol df (lf_col_name args) x.
Proof.
  unfold make_lf. intros H.
  inv_bind H. rename a into d0. apply init_lf_frame in E.
  inv_bind H. destruct a as [d1 g1]. apply add_pn_bias_frame in E0 as [E0 _].
  inv_bind H. destruct a as [d2 g2]. apply add_constant_bias_frame in E1 as [E1 _].
  inv_bind H. destruct a as [d3 g3]. apply add_gauss_noise_frame in E2 as [E2 _].
  apply add_descriptor_bias_frame in H as [H _].
  eauto using frame_step.
Qed.

(** The synthesis writes to the low-fidelity column and to nothing else:
    when [make_lf] returns, the row labels and every other column of the
    frame are what they were.  The script itself draws from the global
    generator only for the polynomial and for the descriptor bias: with these
    two and the noise function of [noisefunctions] off, the generator is left
    in the state it was given. *)
Theorem make_lf_touches_only_lf (ext : externals) (args : Args)
    (df : DataFrame) (g : rng ext)
    (df' : DataFrame) (g' : rng ext) :
  make_lf ext args df g = Ok (df', g') →
  index df' = index df ∧
  (∀ c, c ≠ lf_col_name args → columns df' !! c = columns df !! c) ∧
  (add_pn_bias_to_make_lf args ≤ 0 →
   (0 <? add_gauss_noise_to_make_lf args)%float = false →
   (add_descriptor_bias_to_make_lf args =? 0)%float = true → g' = g).
Proof.
  intros H. pose proof (make_lf_frame _ _ _ _ _ _ H) as Hf. split; [|split].
  - by destruct Hf as [->|[x ->]].
  - intros c Hc. destruct Hf as [->|[x ->]]; [done|].
    unfold setcol. cbn [columns]. by rewrite lookup_insert_ne.
  - intros Hpn _ Hd. unfold make_lf in H.
    inv_bind H. rename a into d0.
    inv_bind H. destruct a as [d1 g1]. apply add_pn_bias_frame in E0 as [_ E0].
    inv_bind H. destruct a as [d2 g2]. apply add_constant_bias_frame in E1 as [_ E1].
    inv_bind H. destruct a as [d3 g3]. apply add_gauss_noise_frame in E2 as [_ E2].
    apply add_descriptor_bias_frame in H as [_ H].
    rewrite (H Hd), E2, E1. by apply E0.
Qed.

(** The two ends of the synthesis.  A run that is not single-fidelity on a
    frame without the high-fidelity column raises [KeyError] at the copy of
    line 85.  A single-fidelity run that has passed the checks, with no
    constant and no descriptor bias, returns the frame and the generator it
    was given. *)
Theorem make_lf_ends (ext : externals) (args : Args) (df : DataFrame)
    (g : rng ext) :
  (is_single args = false → columns df !! hf_col_name args = None →
     make_lf ext args df g = Raise KeyError) ∧
  (is_single args = true → validate args = Ok () →
     (add_constant_bias_to_make_lf args =? 0)%float = true →
     (add_descriptor_bias_to_make_lf args =? 0)%float = true →
     make_lf ext args df g = Ok (df, g)).
Proof.
  split.
  - intros Hs Hh. unfold make_lf, init_lf, getcol. by rewrite Hs, Hh.
  - intros Hs Hv Hc Hd. unfold validate in Hv. unfold is_single in Hs.
    rewrite Hs in Hv. cbn [andb] in Hv.
    destruct (0 <? add_pn_bias_to_make_lf args) eqn:Hpn; [done|].
    destruct (0 <? add_gauss_noise_to_make_lf args)%float eqn:Hg; [done|].
    unfold make_lf, init_lf, is_single. rewrite Hs. cbn [negb]. rewrite bind_Ok.
    unfold add_pn_bias. rewrite Hpn, bind_Ok.
    unfold add_constant_bias. rewrite Hc. cbn [negb]. rewrite bind_Ok.
    unfold add_gauss_noise. rewrite Hg, bind_Ok.
    unfold add_descriptor_bias. by rewrite Hd.
Qed.

Lemma make_lf_touches_only_lf_witness :
  ∃ df', make_lf toy_externals toy_multi_target toy_frame () = Ok (df', ()) ∧
         index df' = ["C"; "CC"; "CCC"; "CCO"].
Proof.
  eexists. split; [reflexivity|].
  refine (proj1 (make_lf_touches_only_lf toy_externals toy_multi_target toy_frame
                   () _ () _)); reflexivity.
Defined.

Lemma make_lf_ends_witness :
  make_lf toy_externals
    (mkArgs "multi_target" "data.csv" "h299" "h298_lf" false false 30 false
            0 0%float 0%float 0%float "random" 1 false 0 "results")
    toy_frame () = Raise KeyError.
Proof.
  refine (proj1 (make_lf_ends toy_externals _ _ _) _ _); reflexivity.
Defined.
End low_fidelity_more.

(** ** The SMILES label as the key of a datapoint *)

Section keyed_rows.
Import EndToEnd.

Lemma filter_eq_seq_above (p a n : nat) :
  (p < a)%nat → filter (λ i, i = p) (seq a n) = [].
Proof.
  revert a. induction n as [|n IH]; intros a Hp; [done|].
  cbn [seq]. rewrite filter_cons_False by lia. apply IH. lia.
Qed.

Lemma filter_eq_seq (p a n : nat) :
  (a ≤ p < a + n)%nat → filter (λ i, i = p) (seq a n) = [p].
Proof.
  revert a. induction n as [|n IH]; intros a Hp; [lia|].
  cbn [seq]. destruct (decide (a = p)) as [->|Hne].
  - rewrite filter_cons_True by done. by rewrite filter_eq_seq_above by lia.
  - rewrite filter_cons_False by done. apply IH. lia.
Qed.

(** With unique labels [.loc] finds one row per label. *)
Lemma positions_unique (idx : list string) (p : nat) (s : string) :
  NoDup idx → idx !! p = Some s →
  positions (λ s', bool_decide (s' = s)) idx = [p].
Proof.
  intros Hnd Hp. unfold positions.
  rewrite <- (filter_eq_seq p 0 (length idx))
    by (apply lookup_lt_Some in Hp; lia).
  apply filter_ext_in. intros i Hi. apply elem_of_seq in Hi.
  destruct (lookup_lt_is_Some_2 idx i) as [s' Hs']; [lia|]. rewrite Hs'. simpl.
  rewrite bool_decide_eq_true. split.
  - intros ->. by eapply NoDup_lookup.
  - intros ->. congruence.
Qed.

Lemma loc_positions_aligned (labels idx : list string) (ps : list nat) :
  NoDup idx → loc_positions labels idx = Ok ps →
  Forall2 (λ s p, idx !! p = Some s) labels ps.
Proof.
  intros Hnd. unfold loc_positions. revert ps.
  induction labels as [|s labels IH]; intros ps H.
  - injection H as <-. constructor.
  - cbn [mapM] in H.
    destruct (positions (λ s', bool_decide (s' = s)) idx) as [|q qs] eqn:Eq;
      [done|].
    assert (q ∈ positions (λ s', bool_decide (s' = s)) idx) as Hq
      by (rewrite Eq; left).
    apply elem_of_positions in Hq as (s' & Hs' & Heq).
    apply bool_decide_eq_true in Heq as ->.
    rewrite (positions_unique idx q s Hnd Hs') in Eq. injection Eq as <-.
    rewrite bind_Ok in H.
    destruct (mapM _ labels) as [pss|e] eqn:E; [|done].
    rewrite bind_Ok in H. apply Ok_inj in H. subst ps. cbn [concat app].
    constructor; [done|]. by apply IH.
Qed.

Lemma row_of_columns (df : DataFrame) (cols : list string)
    (cs : list (list float)) (p : nat) :
  mapM (getcol df) cols = Ok cs →
  omap (λ col : list float, col !! p) cs = row_of df p cols.
Proof.
  revert cs. induction cols as [|c cols IH]; intros cs H.
  - by injection H as <-.
  - cbn [mapM] in H. inv_bind H. rename a into col. inv_bind H.
    rename a into cs'. injection H as <-. unfold getcol in E.
    destruct (columns df !! c) as [col'|] eqn:Ec; [|done]. injection E as ->.
    change (row_of df p (c :: cols))
      with (match columns df !! c ≫= (λ col : list float, col !! p) with
            | Some y => y :: row_of df p cols
            | None => row_of df p cols
            end).
    change (omap (λ col : list float, col !! p) (col :: cs'))
      with (match col !! p with
            | Some y => y :: omap (λ col : list float, col !! p) cs'
            | None => omap (λ col : list float, col !! p) cs'
            end).
    rewrite Ec. cbn [mbind option_bind]. by rewrite (IH cs').
Qed.

(** With unique labels, [df.loc[labels][cols].values] has one row per label:
    the values of the row that carries the label. *)
Lemma loc_values_aligned (df : DataFrame) (labels cols : list string)
    (rows : list (list float)) :
  NoDup (index df) → loc_values df labels cols = Ok rows →
  Forall2 (λ s row, ∃ pos, index df !! pos = Some s ∧ row = row_of df pos cols)
          labels rows.
Proof.
  intros Hnd H. unfold loc_values in H. inv_bind H. inv_bind H.
  injection H as <-. apply (loc_positions_aligned _ _ _ Hnd) in E.
  apply Forall2_fmap_r. eapply Forall2_impl; [exact E|].
  intros s p Hp. exists p. split; [done|]. by apply row_of_columns.
Qed.

Lemma datapoints_lookup (args : Args) (df : DataFrame) (labels : list string)
    (t oracle : list (list float)) :
  NoDup (index df) →
  Forall2 (λ s row, ∃ pos, index df !! pos = Some s
                           ∧ row = row_of df pos (target_columns args)) labels t →
  (model_type args = "delta_ml" →
   Forall2 (λ s row, ∃ pos, index df !! pos = Some s
                            ∧ row = row_of df pos [lf_col_name args])
           labels oracle) →
  ∀ k s, labels !! k = Some s →
    ∃ pos, index df !! pos = Some s ∧
           datapoints args labels t oracle !! k = Some (datapoint_of args df s pos).
Proof.
  intros Hnd Ht Ho k s Hk.
  destruct (Forall2_lookup_l _ _ _ _ _ Ht Hk) as (row & Hrow & pos & Hpos & ->).
  exists pos. split; [done|]. unfold datapoints, datapoint_of.
  destruct (bool_decide_reflect (model_type args = "delta_ml")) as [Hm|Hm].
  - destruct (Forall2_lookup_l _ _ _ _ _ (Ho Hm) Hk)
      as (orow & Horow & pos' & Hpos' & ->).
    assert (pos' = pos) as -> by (by eapply NoDup_lookup).
    apply lookup_zip_with_Some. eexists s, (_, _). split; [done|].
    split; [done|]. apply lookup_zip_with_Some. by eexists _, _.
  - apply lookup_zip_with_Some. by eexists _, _.
Qed.

(** The SMILES label is the key of the data: in a frame with unique labels,
    whenever the preparation of lines 117-174 returns, the k-th train (test)
    datapoint carries the k-th train (test) label of the split, the label is
    that of one row of the frame, and the targets of the datapoint (for delta
    learning also its feature) are the values of that row in the frame the
    preparation leaves behind. *)
Theorem datapoints_follow_labels (ext : externals) (args : Args)
    (df : DataFrame) (p : prepared) :
  NoDup (index df) →
  prepare ext args df = Ok p →
  index (p_data_df p) = index df ∧
  (∀ k s, p_train_index p !! k = Some s →
     ∃ pos, index df !! pos = Some s ∧
            train_data_of args p !! k = Some (datapoint_of args (p_data_df p) s pos)) ∧
  (∀ k s, p_test_index p !! k = Some s →
     ∃ pos, index df !! pos = Some s ∧
            test_data_of args p !! k = Some (datapoint_of args (p_data_df p) s pos)).
Proof.
  intros Hnd Hp. unfold prepare in Hp. unfold train_data_of, test_data_of.
  destruct (is_single args) eqn:Hs.
  - assert (model_type args ≠ "delta_ml") as Hm.
    { unfold is_single in Hs. apply bool_decide_eq_true in Hs. rewrite Hs.
      discriminate. }
    unfold prepare_single in Hp. inv_bind Hp. inv_bind Hp.
    destruct a0 as [tr te]. do 2 inv_bind Hp. injection Hp as <-.
    cbn [p_data_df p_train_index p_test_index p_train_t p_test_t
         p_train_oracle p_test_oracle].
    split; [done|].
    split; apply datapoints_lookup; try done;
      unfold target_columns; rewrite Hs; by apply loc_values_aligned.
  - unfold prepare_multi in Hp. inv_bind Hp. destruct a as [hf_df lf_df].
    inv_bind Hp. destruct a as [hf_tr hf_te].
    inv_bind Hp. destruct a as [lf_tr lf_te].
    destruct (bool_decide_reflect (model_type args = "delta_ml")) as [Hm|Hm].
    + do 4 inv_bind Hp. injection Hp as <-.
      cbn [p_data_df p_train_index p_test_index p_train_t p_test_t
           p_train_oracle p_test_oracle].
      split; [done|].
      split; apply datapoints_lookup; try done;
        try (intros _; by apply loc_values_aligned);
        unfold target_columns; rewrite Hs, bool_decide_eq_true_2 by done;
        by apply loc_values_aligned.
    + inv_bind Hp. rename a into df1. inv_bind Hp. rename a into df2.
      assert (index df2 = index df) as Hidx.
      { apply set_at_index in E2. rewrite <- E2.
        destruct (negb _); [by eapply set_at_index|by injection E3 as <-]. }
      do 2 inv_bind Hp. injection Hp as <-.
      cbn [p_data_df p_train_index p_test_index p_train_t p_test_t
           p_train_oracle p_test_oracle].
      split; [done|]. rewrite <- Hidx in Hnd |- *.
      split; apply datapoints_lookup; try done;
        unfold target_columns; rewrite Hs, bool_decide_eq_false_2 by done;
        by apply loc_values_aligned.
Qed.

(** The toy multi-target run: the first test molecule is the last row. *)
Lemma datapoints_follow_labels_witness :
  ∃ p, prepare toy_externals toy_multi_target toy_two_columns = Ok p ∧
       ∃ pos, index toy_two_columns !! pos = Some "CCO" ∧
              test_data_of toy_multi_target p !! 0%nat
              = Some (datapoint_of toy_multi_target (p_data_df p) "CCO" pos).
Proof.
  eexists. split; [vm_compute; reflexivity|].
  refine (proj2 (proj2 (datapoints_follow_labels toy_externals toy_multi_target
                          toy_two_columns _ _ _)) 0%nat "CCO" _).
  - apply (bool_decide_unpack _). by vm_compute.
  - vm_compute. reflexivity.
  - reflexivity.
Defined.
End keyed_rows.

(** ** The targets of a datapoint, fidelity by fidelity *)

Section fidelity_rows.
Import EndToEnd.

Lemma loc_positions_lt (labels idx : list string) (ps : list nat) :
  loc_positions labels idx = Ok ps → Forall (λ p, (p < length idx)%nat) ps.
Proof.
  unfold loc_positions. revert ps.
  induction labels as [|s labels IH]; intros ps H.
  - injection H as <-. constructor.
  - cbn [mapM] in H.
    destruct (positions (λ s', bool_decide (s' = s)) idx) as [|q qs] eqn:Eq;
      [done|].
    rewrite bind_Ok in H.
    destruct (mapM _ labels) as [pss|e] eqn:E; [|done].
    rewrite bind_Ok in H. apply Ok_inj in H. subst ps. cbn [concat].
    apply Forall_app. split; [|by apply IH].
    apply Forall_forall. intros x Hx. rewrite <- Eq in Hx.
    apply elem_of_positions in Hx as (s' & Hs' & _).
    by eapply lookup_lt_Some.
Qed.

Lemma mapM_getcol_rectangular (df : DataFrame) (cols : list string)
    (cs : list (list float)) :
  rectangular df → mapM (getcol df) cols = Ok cs →
  length cs = length cols ∧
  Forall (λ col, length col = length (index df)) cs.
Proof.
  intros Hr. revert cs. induction cols as [|c cols IH]; intros cs H.
  - injection H as <-. by split.
  - cbn [mapM] in H. inv_bind H. rename a into col. inv_bind H.
    rename a into cs'. injection H as <-. destruct (IH cs' eq_refl) as [Hl Hf].
    split; [cbn; by rewrite Hl|]. constructor; [|done].
    unfold getcol in E. destruct (columns df !! c) eqn:Ec; [|done].
    injection E as ->. by eapply Hr.
Qed.

Lemma length_omap_lookup (cs : list (list float)) (p n : nat) :
  (p < n)%nat → Forall (λ col, length col = n) cs →
  length (omap (λ col : list float, col !! p) cs) = length cs.
Proof.
  intros Hp. induction 1 as [|col cs Hc _ IH]; [done|].
  destruct (lookup_lt_is_Some_2 col p) as [y Hy]; [lia|].
  change (omap (λ col : list float, col !! p) (col :: cs))
    with (match col !! p with
          | Some y => y :: omap (λ col : list float, col !! p) cs
          | None => omap (λ col : list float, col !! p) cs
          end).
  rewrite Hy. cbn [length]. by rewrite IH.
Qed.

(** On a rectangular frame every row [.loc] returns has one value per
    requested column. *)
Lemma loc_values_width (df : DataFrame) (labels cols : list string)
    (rows : list (list float)) :
  rectangular df → loc_values df labels cols = Ok rows →
  Forall (λ r, length r = length cols) rows.
Proof.
  intros Hr H. unfold loc_values in H. inv_bind H. rename a into ps.
  inv_bind H. rename a into cs. injection H as <-.
  apply loc_positions_lt in E.
  destruct (mapM_getcol_rectangular df cols cs Hr E0) as [Hl Hf].
  apply Forall_fmap. eapply Forall_impl; [exact E|].
  intros p Hp. cbn beta. rewrite <- Hl.
  exact (length_omap_lookup cs p (length (index df)) Hp Hf).
Qed.

Lemma length_foldr_insert (v : float) (col : list float) (ps : list nat) :
  length (foldr (λ p acc, <[p := v]> acc) col ps) = length col.
Proof.
  induction ps as [|p ps IH]; [done|]. cbn [foldr]. by rewrite length_insert.
Qed.

Lemma set_at_rectangular (df : DataFrame) (c : string) (labels : list string)
    (v : float) (df' : DataFrame) :
  rectangular df → set_at df c labels v = Ok df' → rectangular df'.
Proof.
  intros Hr H. unfold set_at in H. inv_bind H. rename a into col.
  inv_bind H. injection H as <-. unfold getcol in E.
  destruct (columns df !! c) eqn:Ec; [|done]. injection E as ->.
  intros c' col'. unfold setcol. cbn [columns index].
  destruct (decide (c' = c)) as [->|Hne].
  - rewrite lookup_insert_eq. intros [= <-]. rewrite length_foldr_insert.
    by eapply Hr.
  - rewrite lookup_insert_ne by done. apply Hr.
Qed.

Lemma datapoints_targets (args : Args) (idx : list string)
    (t oracle : list (list float)) (dp : MoleculeDatapoint) :
  dp ∈ datapoints args idx t oracle →
  dp_targets dp ∈ t ∧
  (if bool_decide (model_type args = "delta_ml")
   then ∃ o, o ∈ oracle ∧ dp_features dp = Some o
   else dp_features dp = None).
Proof.
  unfold datapoints. destruct (bool_decide _).
  - intros H. apply list_elem_of_lookup_1 in H as [i Hi].
    apply lookup_zip_with_Some in Hi as (s & [r o] & -> & _ & Hz).
    apply lookup_zip_with_Some in Hz as (r' & o' & [= <- <-] & Hr & Ho).
    cbn. split; [by eapply list_elem_of_lookup_2|].
    exists o. split; [by eapply list_elem_of_lookup_2|done].
  - intros H. apply list_elem_of_lookup_1 in H as [i Hi].
    apply lookup_zip_with_Some in Hi as (s & r & -> & _ & Hr).
    cbn. split; [by eapply list_elem_of_lookup_2|done].
Qed.

(** How many targets a datapoint has.  On a rectangular frame, whenever the
    preparation returns, every train and test datapoint of a single-fidelity
    run has one target, every datapoint of a delta-learning run has one target
    and a feature of one value, and every datapoint of another model type has
    two targets and no feature. *)
Theorem datapoint_widths (ext : externals) (args : Args) (df : DataFrame)
    (p : prepared) :
  rectangular df →
  prepare ext args df = Ok p →
  Forall (λ dp,
            if is_single args
            then length (dp_targets dp) = 1%nat ∧ dp_features dp = None
            else if bool_decide (model_type args = "delta_ml")
            then length (dp_targets dp) = 1%nat ∧
                 ∃ o, dp_features dp = Some o ∧ length o = 1%nat
            else length (dp_targets dp) = 2%nat ∧ dp_features dp = None)
         (train_data_of args p ++ test_data_of args p).
Proof.
  intros Hr Hp. unfold prepare in Hp. unfold train_data_of, test_data_of.
  apply Forall_forall. intros dp Hdp.
  destruct (is_single args) eqn:Hs.
  - assert (model_type args ≠ "delta_ml") as Hm.
    { unfold is_single in Hs. apply bool_decide_eq_true in Hs. rewrite Hs.
      discriminate. }
    unfold prepare_single in Hp. inv_bind Hp. inv_bind Hp.
    destruct a0 as [tr te]. do 2 inv_bind Hp. injection Hp as <-.
    cbn [p_train_index p_test_index p_train_t p_test_t
         p_train_oracle p_test_oracle] in Hdp.
    apply (loc_values_width _ _ _ _ Hr) in E1, E2.
    apply elem_of_app in Hdp as [Hdp|Hdp];
      apply datapoints_targets in Hdp as [Ht Hf];
      rewrite bool_decide_eq_false_2 in Hf by done; split; try done.
    + by apply (proj1 (Forall_forall _ _) E1).
    + by apply (proj1 (Forall_forall _ _) E2).
  - unfold prepare_multi in Hp. inv_bind Hp. destruct a as [hf_df lf_df].
    inv_bind Hp. destruct a as [hf_tr hf_te].
    inv_bind Hp. destruct a as [lf_tr lf_te].
    destruct (bool_decide_reflect (model_type args = "delta_ml")) as [Hm|Hm].
    + do 4 inv_bind Hp. injection Hp as <-.
      cbn [p_train_index p_test_index p_train_t p_test_t
           p_train_oracle p_test_oracle] in Hdp.
      apply (loc_values_width _ _ _ _ Hr) in E2, E3, E4, E5.
      apply elem_of_app in Hdp as [Hdp|Hdp];
        apply datapoints_targets in Hdp as [Ht Hf];
        rewrite bool_decide_eq_true_2 in Hf by done;
        destruct Hf as (o & Ho & Hf).
      * split; [by apply (proj1 (Forall_forall _ _) E4)|].
        exists o. split; [done|]. by apply (proj1 (Forall_forall _ _) E2).
      * split; [by apply (proj1 (Forall_forall _ _) E5)|].
        exists o. split; [done|]. by apply (proj1 (Forall_forall _ _) E3).
    + inv_bind Hp. rename a into df1. inv_bind Hp. rename a into df2.
      assert (rectangular df2) as Hr2.
      { apply (set_at_rectangular _ _ _ _ _ Hr) in E2.
        destruct (negb _); [by eapply set_at_rectangular|by injection E3 as <-]. }
      do 2 inv_bind Hp. injection Hp as <-.
      cbn [p_train_index p_test_index p_train_t p_test_t
           p_train_oracle p_test_oracle] in Hdp.
      apply (loc_values_width _ _ _ _ Hr2) in E4, E5.
      apply elem_of_app in Hdp as [Hdp|Hdp];
        apply datapoints_targets in Hdp as [Ht Hf];
        rewrite bool_decide_eq_false_2 in Hf by done; split; try done.
      * by apply (proj1 (Forall_forall _ _) E4).
      * by apply (proj1 (Forall_forall _ _) E5).
Qed.

Lemma toy_two_columns_rectangular : rectangular toy_two_columns.
Proof.
  intros c col. unfold toy_two_columns, toy_frame, setcol. cbn [columns index].
  destruct (decide (c = "h298_lf")) as [->|Hne].
  - rewrite lookup_insert_eq. by intros [= <-].
  - rewrite lookup_insert_ne by done.
    destruct (decide (c = "h298")) as [->|Hne'].
    + rewrite lookup_singleton_eq. by intros [= <-].
    + by rewrite lookup_singleton_ne.
Qed.

(** The toy multi-target run. *)
Lemma datapoint_widths_witness :
  ∃ p, prepare toy_externals toy_multi_target toy_two_columns = Ok p ∧
       Forall (λ dp, length (dp_targets dp) = 2%nat ∧ dp_features dp = None)
              (train_data_of toy_multi_target p ++ test_data_of toy_multi_target p).
Proof.
  eexists. split; [vm_compute; reflexivity|].
  refine (datapoint_widths toy_externals toy_multi_target toy_two_columns _
            toy_two_columns_rectangular _).
  vm_compute. reflexivity.
Defined.
End fidelity_rows.

(** ** The fidelity a molecule lacks is NaN *)

Section masked_targets.
Import EndToEnd.

Lemma foldr_insert_lookup (v : float) (col : list float) (ps : list nat)
    (pos : nat) :
  (pos < length col)%nat →
  foldr (λ p acc, <[p := v]> acc) col ps !! pos
  = if bool_decide (pos ∈ ps) then Some v else col !! pos.
Proof.
  intros Hpos. induction ps as [|p ps IH].
  - by rewrite bool_decide_eq_false_2 by apply not_elem_of_nil.
  - cbn [foldr]. destruct (decide (p = pos)) as [->|Hne].
    + rewrite list_lookup_insert_eq by by rewrite length_foldr_insert.
      by rewrite bool_decide_eq_true_2 by left.
    + rewrite list_lookup_insert_ne by done. rewrite IH.
      apply (f_equal (λ b : bool, if b then Some v else col !! pos)).
      apply bool_decide_ext. rewrite elem_of_cons.
      split; [by right|intros [Heq|?]; [by destruct Hne|done]].
Qed.

(** [df[c].loc[labels] = v] on a frame with unique labels: the rows that
    carry one of the labels get [v] in column [c], and nothing else
    changes. *)
Lemma set_at_lookup (df : DataFrame) (c : string) (labels : list string)
    (v : float) (df' : DataFrame) (col : list float) :
  NoDup (index df) → columns df !! c = Some col →
  length col = length (index df) →
  set_at df c labels v = Ok df' →
  index df' = index df ∧
  (∀ c', c' ≠ c → columns df' !! c' = columns df !! c') ∧
  ∃ col', columns df' !! c = Some col' ∧ length col' = length col ∧
    ∀ pos s, index df !! pos = Some s →
      col' !! pos = if bool_decide (s ∈ labels) then Some v else col !! pos.
Proof.
  intros Hnd Hc Hl H. unfold set_at, getcol in H. rewrite Hc, bind_Ok in H.
  inv_bind H. rename a into ps. injection H as <-.
  apply (loc_positions_aligned _ _ _ Hnd) in E.
  split; [done|]. split.
  - intros c' Hne. unfold setcol. cbn [columns]. by rewrite lookup_insert_ne.
  - eexists. split; [unfold setcol; cbn [columns]; by rewrite lookup_insert_eq|].
    split; [by rewrite length_foldr_insert|].
    intros pos s Hpos. rewrite foldr_insert_lookup
      by (apply lookup_lt_Some in Hpos; lia).
    apply (f_equal (λ b : bool, if b then Some v else col !! pos)).
    apply bool_decide_ext. split.
    + intros [k Hk]%list_elem_of_lookup_1.
      destruct (Forall2_lookup_r _ _ _ _ _ E Hk) as (s' & Hs' & Hidx).
      rewrite Hpos in Hidx. injection Hidx as <-.
      by eapply list_elem_of_lookup_2.
    + intros [k Hk]%list_elem_of_lookup_1.
      destruct (Forall2_lookup_l _ _ _ _ _ E Hk) as (p & Hp & Hidx).
      rewrite <- (NoDup_lookup _ _ _ _ Hnd Hidx Hpos).
      by eapply list_elem_of_lookup_2.
Qed.

Lemma row_of_two (df : DataFrame) (pos : nat) (c1 c2 : string)
    (col1 col2 : list float) (x y : float) :
  columns df !! c1 = Some col1 → columns df !! c2 = Some col2 →
  col1 !! pos = Some x → col2 !! pos = Some y →
  row_of df pos [c1; c2] = [x; y].
Proof.
  intros H1 H2 Hx Hy. unfold row_of. simpl. rewrite H1. simpl. rewrite Hx.
  rewrite H2. simpl. by rewrite Hy.
Qed.

Lemma datapoints_rows (args : Args) (idx : list string)
    (t oracle : list (list float)) (dp : MoleculeDatapoint) :
  model_type args ≠ "delta_ml" →
  dp ∈ datapoints args idx t oracle →
  ∃ k, idx !! k = Some (smi dp) ∧ t !! k = Some (dp_targets dp).
Proof.
  intros Hm. unfold datapoints. rewrite bool_decide_eq_false_2 by done.
  intros H. apply list_elem_of_lookup_1 in H as [k Hk].
  apply lookup_zip_with_Some in Hk as (s & r & -> & Hs & Hr). by exists k.
Qed.

(** The layout of the two targets in a multi-fidelity run (lines 164-174)
    on a frame with unique labels.  A datapoint of a molecule in the
    high-fidelity split carries its high-fidelity value, and as its
    low-fidelity target NaN, or with [lf_superset_of_hf] its low-fidelity
    value.  A datapoint of any other molecule carries its low-fidelity value
    and NaN as its high-fidelity target. *)
Theorem fidelity_masks (ext : externals) (args : Args) (df : DataFrame)
    (p : prepared) (hf_df lf_df : DataFrame)
    (hf_tr hf_te lf_tr lf_te : list string) (h l : list float) :
  is_single args = false →
  model_type args ≠ "delta_ml" →
  hf_col_name args ≠ lf_col_name args →
  NoDup (index df) →
  columns df !! hf_col_name args = Some h →
  columns df !! lf_col_name args = Some l →
  length h = length (index df) →
  length l = length (index df) →
  hf_lf_frames ext args df = Ok (hf_df, lf_df) →
  split_by_prop ext (split_type args) hf_df = Ok (hf_tr, hf_te) →
  split_by_prop ext (split_type args) lf_df = Ok (lf_tr, lf_te) →
  prepare ext args df = Ok p →
  ∀ dp, dp ∈ train_data_of args p ++ test_data_of args p →
    ∃ pos lv hv,
      index df !! pos = Some (smi dp) ∧ l !! pos = Some lv ∧ h !! pos = Some hv ∧
      dp_targets dp =
        if bool_decide (smi dp ∈ hf_tr ++ hf_te)
        then [if lf_superset_of_hf args then lv else nan; hv]
        else [lv; nan].
Proof.
  intros Hs Hm Hne Hnd Hh Hl Hlh Hll Hfr Hsh Hsl Hp dp Hdp.
  unfold prepare in Hp. rewrite Hs in Hp. unfold prepare_multi in Hp.
  rewrite Hfr, bind_Ok in Hp. cbn beta iota in Hp.
  rewrite Hsh, bind_Ok in Hp. cbn beta iota in Hp.
  rewrite Hsl, bind_Ok in Hp. cbn beta iota in Hp.
  rewrite bool_decide_eq_false_2 in Hp by done.
  inv_bind Hp. rename a into df1. inv_bind Hp. rename a into df2.
  do 2 inv_bind Hp. rename a into train_t. rename a0 into test_t.
  injection Hp as <-.
  (* the high-fidelity column after line 167 *)
  destruct (set_at_lookup _ _ _ _ _ _ Hnd Hh Hlh E)
    as (Hi1 & Ho1 & h1 & Hh1 & Hlh1 & Hv1).
  assert (columns df1 !! lf_col_name args = Some l) as Hl1
    by (rewrite Ho1 by done; exact Hl).
  (* both columns after lines 168-169 *)
  assert (index df2 = index df ∧ columns df2 !! hf_col_name args = Some h1 ∧
          ∃ l2, columns df2 !! lf_col_name args = Some l2 ∧
                ∀ pos s, index df !! pos = Some s →
                  l2 !! pos = if negb (lf_superset_of_hf args)
                                 && bool_decide (s ∈ hf_tr ++ hf_te)
                              then Some nan else l !! pos)
    as (Hi2 & Hh2 & l2 & Hl2 & Hv2).
  { destruct (lf_superset_of_hf args); cbn [negb andb] in *.
    - injection E0 as <-. split; [done|]. split; [done|]. by exists l.
    - rewrite <- Hi1 in Hnd, Hll.
      destruct (set_at_lookup _ _ _ _ _ _ Hnd Hl1 Hll E0)
        as (Hi & Ho & l2 & Hl2 & _ & Hv).
      split; [congruence|]. split; [by rewrite Ho|].
      exists l2. split; [done|]. intros pos s Hpos. apply Hv. by rewrite Hi1. }
  (* the row of the datapoint *)
  assert (∃ k idx t, idx !! k = Some (smi dp) ∧ t !! k = Some (dp_targets dp) ∧
                     (idx = lf_tr ++ hf_tr ∨ idx = lf_te ++ hf_te) ∧
                     loc_values df2 idx [lf_col_name args; hf_col_name args] = Ok t)
    as (k & idx & t & Hk & Ht & Hidx & Hloc).
  { unfold train_data_of, test_data_of in Hdp.
    cbn [p_train_index p_test_index p_train_t p_test_t
         p_train_oracle p_test_oracle] in Hdp.
    apply elem_of_app in Hdp as [Hdp|Hdp];
      apply datapoints_rows in Hdp as (k & Hk & Ht); try done;
      eexists k, _, _; eauto. }
  assert (NoDup (index df2)) as Hnd2 by by rewrite Hi2.
  pose proof (loc_values_aligned _ _ _ _ Hnd2 Hloc) as Hal.
  destruct (Forall2_lookup_l _ _ _ _ _ Hal Hk) as (row & Hrow & pos & Hpos & ->).
  rewrite Ht in Hrow. injection Hrow as Hrow. rewrite Hi2 in Hpos.
  assert (pos < length (index df))%nat as Hlt by by eapply lookup_lt_Some.
  destruct (lookup_lt_is_Some_2 l pos) as [lv Hlv]; [lia|].
  destruct (lookup_lt_is_Some_2 h pos) as [hv Hhv]; [lia|].
  exists pos, lv, hv. split; [done|]. split; [done|]. split; [done|].
  rewrite Hrow. specialize (Hv1 pos _ Hpos). specialize (Hv2 pos _ Hpos).
  assert (smi dp ∈ lf_tr ++ lf_te ∨ smi dp ∈ hf_tr ++ hf_te) as Hin.
  { apply list_elem_of_lookup_2 in Hk. destruct Hidx as [-> | ->];
      apply elem_of_app in Hk as [Hk|Hk]; [left|right|left|right];
      apply elem_of_app; auto. }
  destruct (bool_decide_reflect (smi dp ∈ hf_tr ++ hf_te)) as [Hhf|Hhf].
  - rewrite bool_decide_eq_false_2 in Hv1
      by (rewrite elem_of_remove_dups, list_elem_of_difference; tauto).
    rewrite andb_true_r in Hv2.
    destruct (lf_superset_of_hf args); cbn [negb] in Hv2;
      by eapply row_of_two; eauto; congruence.
  - rewrite bool_decide_eq_true_2 in Hv1
      by (rewrite elem_of_remove_dups, list_elem_of_difference; tauto).
    rewrite andb_false_r in Hv2.
    eapply row_of_two; eauto; congruence.
Qed.

(** The toy multi-target run: "CC" is a high-fidelity test molecule. *)
Lemma fidelity_masks_witness :
  ∃ p, prepare toy_externals toy_multi_target toy_two_columns = Ok p ∧
       ∀ dp, dp ∈ train_data_of toy_multi_target p
                  ++ test_data_of toy_multi_target p →
         ∃ pos lv hv,
           index toy_two_columns !! pos = Some (smi dp) ∧
           [2.5; 3.5; 4.5; 5.5]%float !! pos = Some lv ∧
           [1; 2; 3; 4]%float !! pos = Some hv ∧
           dp_targets dp =
             if bool_decide (smi dp ∈ ["C"] ++ ["CC"])
             then [if lf_superset_of_hf toy_multi_target then lv else nan; hv]
             else [lv; nan].
Proof.
  eexists. split; [vm_compute; reflexivity|].
  refine (fidelity_masks toy_externals toy_multi_target toy_two_columns _
            _ _ ["C"] ["CC"] _ _ [1; 2; 3; 4]%float [2.5; 3.5; 4.5; 5.5]%float
            _ _ _ _ _ _ _ _ _ _ _ _).
  - reflexivity.
  - discriminate.
  - discriminate.
  - apply (bool_decide_unpack _). by vm_compute.
  - reflexivity.
  - reflexivity.
  - reflexivity.
  - reflexivity.
  - vm_compute. reflexivity.
  - vm_compute. reflexivity.
  - vm_compute. reflexivity.
  - vm_compute. reflexivity.
Defined.
End masked_targets.

(** ** The loop over targets and predictions *)

Section collected.
Import EndToEnd.

(** One round of the loop of lines 285-293 adds to each fidelity's lists
    nothing, or one target that is not NaN together with one prediction. *)
Lemma collect_step acc tp acc' :
  collect acc tp = Ok acc' →
  ((targets_lf acc' = targets_lf acc ∧ preds_lf acc' = preds_lf acc) ∨
   ∃ t p, is_nan t = false ∧ targets_lf acc' = targets_lf acc ++ [t]
          ∧ preds_lf acc' = preds_lf acc ++ [p]) ∧
  ((targets_hf acc' = targets_hf acc ∧ preds_hf acc' = preds_hf acc) ∨
   ∃ t p, is_nan t = false ∧ targets_hf acc' = targets_hf acc ++ [t]
          ∧ preds_hf acc' = preds_hf acc ++ [p]).
Proof.
  destruct tp as [target pred]. unfold collect. intros H.
  inv_bind H. rename a into t0. inv_bind H. rename a into acc1.
  inv_bind H. rename a into t1.
  assert ((targets_lf acc1 = targets_lf acc ∧ preds_lf acc1 = preds_lf acc) ∨
          ∃ t p, is_nan t = false ∧ targets_lf acc1 = targets_lf acc ++ [t]
                 ∧ preds_lf acc1 = preds_lf acc ++ [p]) as Hlf.
  { destruct (is_nan t0) eqn:En; cbn [negb] in E0.
    - injection E0 as <-. by left.
    - inv_bind E0. injection E0 as <-. right. by eexists _, _. }
  assert (targets_hf acc1 = targets_hf acc ∧ preds_hf acc1 = preds_hf acc)
    as [Hth Hph].
  { destruct (is_nan t0); cbn [negb] in E0.
    - by injection E0 as <-.
    - inv_bind E0. by injection E0 as <-. }
  destruct (is_nan t1) eqn:En; cbn [negb] in H.
  - injection H as <-. split; [done|]. by left.
  - inv_bind H. injection H as <-. cbn. split; [done|].
    right. rewrite Hth, Hph. by eexists _, _.
Qed.

Lemma foldM_collect_invariant pairs acc acc' (n : nat) :
  foldM collect acc pairs = Ok acc' →
  length (targets_lf acc) = length (preds_lf acc) →
  length (targets_hf acc) = length (preds_hf acc) →
  Forall (λ x, is_nan x = false) (targets_lf acc) →
  Forall (λ x, is_nan x = false) (targets_hf acc) →
  (length (targets_lf acc) ≤ n)%nat → (length (targets_hf acc) ≤ n)%nat →
  length (targets_lf acc') = length (preds_lf acc') ∧
  length (targets_hf acc') = length (preds_hf acc') ∧
  Forall (λ x, is_nan x = false) (targets_lf acc') ∧
  Forall (λ x, is_nan x = false) (targets_hf acc') ∧
  (length (targets_lf acc') ≤ n + length pairs)%nat ∧
  (length (targets_hf acc') ≤ n + length pairs)%nat.
Proof.
  revert acc n. induction pairs as [|tp pairs IH]; intros acc n H Hl Hh Fl Fh Bl Bh.
  - injection H as <-. repeat split; try done; lia.
  - cbn [foldM] in H. inv_bind H. rename a into acc1.
    apply collect_step in E as [Hlf Hhf].
    cbn [length]. replace (n + S (length pairs))%nat with (S n + length pairs)%nat by lia.
    apply (IH acc1 (S n) H).
    + destruct Hlf as [[-> ->]|(t & p & _ & -> & ->)]; [done|].
      rewrite !length_app. cbn. lia.
    + destruct Hhf as [[-> ->]|(t & p & _ & -> & ->)]; [done|].
      rewrite !length_app. cbn. lia.
    + destruct Hlf as [[-> _]|(t & p & Ht & -> & _)]; [done|].
      apply Forall_app. split; [done|]. by constructor.
    + destruct Hhf as [[-> _]|(t & p & Ht & -> & _)]; [done|].
      apply Forall_app. split; [done|]. by constructor.
    + destruct Hlf as [[-> _]|(t & p & _ & -> & _)]; [lia|].
      rewrite length_app. cbn. lia.
    + destruct Hhf as [[-> _]|(t & p & _ & -> & _)]; [lia|].
      rewrite length_app. cbn. lia.
Qed.

(** What the metrics are computed from.  Whenever the loop of lines 285-293
    runs through, each fidelity has as many collected predictions as
    collected targets, no collected target is NaN, and no fidelity has more
    of them than there are test rows. *)
Theorem collected_targets_paired (targets preds : list (list float))
    (acc : by_fidelity) :
  foldM collect (mkByFidelity [] [] [] []) (zip targets preds) = Ok acc →
  length (targets_lf acc) = length (preds_lf acc) ∧
  length (targets_hf acc) = length (preds_hf acc) ∧
  Forall (λ x, is_nan x = false) (targets_lf acc) ∧
  Forall (λ x, is_nan x = false) (targets_hf acc) ∧
  (length (targets_lf acc) ≤ length targets)%nat ∧
  (length (targets_hf acc) ≤ length targets)%nat.
Proof.
  intros H.
  destruct (foldM_collect_invariant _ _ _ 0 H) as (H1 & H2 & H3 & H4 & H5 & H6);
    try done.
  pose proof (length_zip_with pair targets preds) as Hz.
  change (zip_with pair targets preds) with (zip targets preds) in Hz.
  repeat split; try done; lia.
Qed.

Lemma collected_targets_paired_witness :
  ∃ acc, foldM collect (mkByFidelity [] [] [] [])
               (zip (dp_targets <$> toy_test_data) toy_preds) = Ok acc ∧
         length (targets_lf acc) = length (preds_lf acc).
Proof.
  eexists. split; [reflexivity|].
  refine (proj1 (collected_targets_paired (dp_targets <$> toy_test_data)
                   toy_preds _ _)).
  reflexivity.
Defined.

(** An unscaled delta-learning run on the toy molecules with their two
    columns. *)
Lemma delta_ml_evaluation_raises_witness :
  ∃ p, prepare toy_externals
         (mkArgs "delta_ml" "data.csv" "h298" "h298_lf" false false 30 false
                 0 0%float 0%float 0%float "random" 1 false 0 "results")
         toy_two_columns = Ok p ∧
       evaluate toy_externals
         (mkArgs "delta_ml" "data.csv" "h298" "h298_lf" false false 30 false
                 0 0%float 0%float 0%float "random" 1 false 0 "results")
         (test_data_of
            (mkArgs "delta_ml" "data.csv" "h298" "h298_lf" false false 30 false
                    0 0%float 0%float 0%float "random" 1 false 0 "results") p)
         [[0%float]] [] = (Raise IndexError, []).
Proof.
  eexists. split; [vm_compute; reflexivity|].
  refine (delta_ml_evaluation_raises toy_externals _ toy_two_columns _ _ [] _ _ _ _ _).
  - reflexivity.
  - reflexivity.
  - vm_compute. reflexivity.
  - vm_compute. discriminate.
  - discriminate.
Defined.
End collected.

(** ** What a run that returns has done *)

Section traces.
Import EndToEnd.

Lemma ret_then {A B} (a : A) (k : A → M B) t : (mret a ≫= k) t = k a t.
Proof. reflexivity. Qed.

Lemma M_bind_Ok {A B} (m : M A) (k : A → M B) t b t' :
  (m ≫= k) t = (Ok b, t') → ∃ a t1, m t = (Ok a, t1) ∧ k a t1 = (Ok b, t').
Proof.
  unfold mbind, M_bind. destruct (m t) as [[a|e] t1]; [eauto|done].
Qed.

Lemma emit_Ok ev t u t' : emit ev t = (Ok u, t') → t' = t ++ [ev].
Proof. unfold emit. by intros [= _ <-]. Qed.

(** Run the first statement of a step that returned. *)
Ltac run_step H :=
  first
    [ rewrite emit_then in H
    | rewrite ret_then in H
    | match type of H with
      | (lift ?r ≫= _) _ = _ =>
          let E := fresh "E" in
          destruct r eqn:E;
          [rewrite lift_Ok in H | rewrite lift_Raise in H; discriminate H]
      end ].

Lemma export_and_plot_Ok df args t u t' :
  export_and_plot_hf_lf_data df args t = (Ok u, t') →
  t' = t ++ [FrameToCsv "lf_hf_targets.csv" df; SaveFig "lf_vs_hf_targets.png"].
Proof.
  unfold export_and_plot_hf_lf_data. intros H. do 3 run_step H.
  apply emit_Ok in H. by rewrite <- app_assoc in H.
Qed.

Lemma evaluate_Ok ext args test_data preds t u t' :
  evaluate ext args test_data preds t = (Ok u, t') →
  ∃ metrics test_df,
    t' = t ++ [ToCsv "test_metrics.csv" metrics]
           ++ (if save_test_plot args then [SaveFig "mf_test_preds.png"] else [])
           ++ [ToCsv "mf_test_preds.csv" test_df].
Proof.
  unfold evaluate. destruct (is_single args).
  - unfold evaluate_single. intros H. do 3 run_step H.
    destruct a1 as [[mae rmse] r2]. cbn beta iota in H. run_step H.
    destruct (save_test_plot args).
    + apply M_bind_Ok in H as ([] & t1 & Hplot & H).
      do 2 run_step Hplot. apply emit_Ok in Hplot. subst t1.
      run_step H. apply emit_Ok in H. subst t'.
      eexists _, _. by rewrite <- !app_assoc.
    + do 2 run_step H. apply emit_Ok in H. subst t'.
      eexists _, _. by rewrite <- !app_assoc.
  - unfold evaluate_multi. intros H. do 4 run_step H.
    destruct (save_test_plot args).
    + apply M_bind_Ok in H as ([] & t1 & Hplot & H).
      do 4 run_step Hplot. apply emit_Ok in Hplot. subst t1.
      do 5 run_step H. apply emit_Ok in H. subst t'.
      eexists _, _. by rewrite <- !app_assoc.
    + do 6 run_step H. apply emit_Ok in H. subst t'.
      eexists _, _. by rewrite <- !app_assoc.
Qed.

Lemma export_train_and_val_Ok ext args train_data val_data t u t' :
  export_train_and_val_fn ext args train_data val_data t = (Ok u, t') →
  ∃ train_df val_df,
    t' = t ++ [ToCsv "mf_train.csv" train_df; ToCsv "mf_val.csv" val_df].
Proof.
  unfold export_train_and_val_fn. destruct (is_single args).
  - intros H. do 5 run_step H. apply emit_Ok in H. subst t'.
    eexists _, _. by rewrite <- !app_assoc.
  - intros H. do 7 run_step H. apply emit_Ok in H. subst t'.
    eexists _, _. by rewrite <- !app_assoc.
Qed.

Lemma export_if_asked_Ok ext args train_data val_data t u t' :
  export_if_asked ext args train_data val_data t = (Ok u, t') →
  (export_train_and_val args = true → scale_data args = true) ∧
  ∃ train_df val_df,
    t' = t ++ (if export_train_and_val args
               then [ToCsv "mf_train.csv" train_df; ToCsv "mf_val.csv" val_df]
               else []).
Proof.
  unfold export_if_asked. destruct (export_train_and_val args).
  - destruct (scale_data args); [|done].
    intros (a & b & ->)%export_train_and_val_Ok. split; [done|]. by exists a, b.
  - intros [= <-]. split; [done|]. exists [], []. by rewrite app_nil_r.
Qed.

(** The files of a run that returns, in the order they are written.  The
    command line was parsed and passed both checks, and the model type is a
    key of [model_dict].  The run made and entered the results directory and
    the time-stamped directory in it, wrote [args.json], seeded the
    generators, built the models and read the CSV file; unless
    single-fidelity it wrote [lf_hf_targets.csv] and the plot of the two
    targets; it trained and predicted, wrote [test_metrics.csv], with
    [save_test_plot] the plot of the predictions, and [mf_test_preds.csv];
    with [export_train_and_val] it then wrote [mf_train.csv] and
    [mf_val.csv], which takes [scale_data].  Nothing else was written. *)
Theorem main_returns_trace (ext : externals) (argv : Argv) (t t' : list event) :
  main ext argv t = (Ok (), t') →
  ∃ args df metrics test_df train_df val_df,
    parse_args argv = Ok args ∧ validate args = Ok () ∧
    model_type args ∈ model_dict_keys ∧
    (export_train_and_val args = true → scale_data args = true) ∧
    t' = t ++ [Makedirs (results_dir args); Chdir (results_dir args);
               Mkdir (now ext); Chdir (now ext); DumpArgs "args.json" args;
               SeedEverything (seed args); BuildModels;
               ReadCsv (data_file args) "smiles"]
           ++ (if is_single args then []
               else [FrameToCsv "lf_hf_targets.csv" df;
                     SaveFig "lf_vs_hf_targets.png"])
           ++ [FitAndPredict; ToCsv "test_metrics.csv" metrics]
           ++ (if save_test_plot args then [SaveFig "mf_test_preds.png"] else [])
           ++ [ToCsv "mf_test_preds.csv" test_df]
           ++ (if export_train_and_val args
               then [ToCsv "mf_train.csv" train_df; ToCsv "mf_val.csv" val_df]
               else []).
Proof.
  intros H. unfold main in H. run_step H. rename a into args.
  run_step H. destruct a. unfold run in H. do 7 run_step H.
  destruct (bool_decide_reflect (model_type args ∈ model_dict_keys)) as [Hk|Hk];
    [|by rewrite lift_Raise in H].
  run_step H. unfold load_data in H.
  apply M_bind_Ok in H as (df0 & t1 & Hload & H).
  run_step Hload. unfold lift in Hload. injection Hload as Hr <-.
  run_step H. destruct a as [df g]. cbn beta iota in H.
  apply M_bind_Ok in H as ([] & t2 & Hexp & H).
  run_step H. rename a into p.
  destruct (train_test_split ext _ _) as [train_data val_data].
  destruct (if scale_data args then _ else _) as [[train' val'] test'].
  do 2 run_step H.
  apply M_bind_Ok in H as ([] & t3 & Hev & H).
  apply evaluate_Ok in Hev as (metrics & test_df & ->).
  apply export_if_asked_Ok in H as (Hsc & train_df & val_df & ->).
  exists args, df, metrics, test_df, train_df, val_df.
  split; [done|]. split; [done|]. split; [done|]. split; [done|].
  destruct (is_single args); cbn [negb] in Hexp.
  - injection Hexp as <-. rewrite <- !app_assoc. reflexivity.
  - apply export_and_plot_Ok in Hexp as ->. rewrite <- !app_assoc. reflexivity.
Qed.

(** The toy run without options, a single-fidelity one. *)
Lemma main_returns_trace_witness :
  ∃ t', main toy_externals no_options [] = (Ok (), t') ∧
        ∃ args, parse_args no_options = Ok args ∧
                model_type args ∈ model_dict_keys.
Proof.
  eexists. split; [vm_compute; reflexivity|].
  destruct (main_returns_trace toy_externals no_options [] _ eq_refl)
    as (args & _ & _ & _ & _ & _ & Hp & _ & Hk & _).
  by exists args.
Defined.

Lemma length_mapM {A B} (f : A → result B) (xs : list A) (ys : list B) :
  mapM f xs = Ok ys → length ys = length xs.
Proof.
  revert ys. induction xs as [|x xs IH]; intros ys H.
  - by injection H as <-.
  - cbn [mapM] in H. do 2 inv_bind H. injection H as <-. cbn. by rewrite (IH a0).
Qed.

Lemma column_Ok (j : Z) (rows : list (list float)) (c : list float) :
  column j rows = Ok c → length c = length rows ∧ rows ≠ [].
Proof.
  unfold column. destruct rows as [|r rows]; [done|].
  intros H%length_mapM. by split.
Qed.

Lemma dict_set_fresh {V} (k : string) (v : V) (d : list (string * V)) :
  k ∉ d.*1 → dict_set k v d = d ++ [(k, v)].
Proof.
  induction d as [|[k' v'] d IH]; intros Hk; [done|].
  cbn [dict_set]. cbn in Hk. apply not_elem_of_cons in Hk as [Hne Hk].
  rewrite bool_decide_eq_false_2 by done. cbn. by rewrite IH.
Qed.

Lemma foldl_dict_set {V} (acc kvs : list (string * V)) :
  NoDup ((acc ++ kvs).*1) →
  foldl (λ d kv, dict_set kv.1 kv.2 d) acc kvs = acc ++ kvs.
Proof.
  revert acc. induction kvs as [|[k v] kvs IH]; intros acc Hnd.
  - by rewrite app_nil_r.
  - cbn [foldl fst snd]. rewrite dict_set_fresh.
    + rewrite IH by (by rewrite <- app_assoc). by rewrite <- app_assoc.
    + rewrite fmap_app in Hnd. apply NoDup_app in Hnd as (_ & Hd & _).
      intros Hk. apply (Hd k Hk). cbn. left.
Qed.

(** A dict literal with distinct keys is the list of its items. *)
Lemma dict_of_NoDup {V} (kvs : list (string * V)) :
  NoDup (kvs.*1) → dict_of kvs = kvs.
Proof. intros H. unfold dict_of. by rewrite foldl_dict_set. Qed.

Lemma data_frame_Ok (k : string) (c : csv_column) d d' :
  data_frame ((k, c) :: d) = Ok d' →
  Forall (λ kv, column_len kv.2 = column_len c) d.
Proof.
  unfold data_frame. destruct (forallb _ _) eqn:F; [|done]. intros _.
  cbn [forallb] in F. apply andb_true_iff in F as [_ F].
  apply Forall_forall. intros kv Hkv. rewrite forallb_forall in F.
  eapply bool_decide_eq_true_1. apply F. by apply list_elem_of_In.
Qed.

(** [mf_test_preds.csv] takes one prediction per test molecule.  With
    distinct column names and without scaling, an evaluation that returns was
    given as many predictions as there are test datapoints; and an evaluation
    of a model type other than single-fidelity that returns had at least one
    test datapoint. *)
Theorem evaluate_returns_paired (ext : externals) (args : Args)
    (test_data : list MoleculeDatapoint) (preds : list (list float))
    (t t' : list event) :
  scale_data args = false →
  NoDup ["smiles"; hf_col_name args; hf_col_name args +:+ "_preds";
         lf_col_name args; lf_col_name args +:+ "_preds"] →
  evaluate ext args test_data preds t = (Ok (), t') →
  length preds = length test_data ∧
  (is_single args = false → test_data ≠ []).
Proof.
  intros Hsc Hnd. unfold evaluate. destruct (is_single args).
  - unfold evaluate_single. rewrite Hsc. intros H. do 3 run_step H.
    destruct a1 as [[mae rmse] r2]. cbn beta iota in H. run_step H.
    apply M_bind_Ok in H as ([] & t1 & _ & H). run_step H.
    rewrite dict_of_NoDup in E2.
    2: { change (NoDup (["smiles"; hf_col_name args;
                          hf_col_name args +:+ "_preds"]
                         ++ [lf_col_name args; lf_col_name args +:+ "_preds"]))
           in Hnd.
         by apply NoDup_app in Hnd as [Hnd _]. }
    apply data_frame_Ok in E2.
    apply Forall_cons in E2 as [E2 E3]. apply Forall_cons in E3 as [E3 _].
    cbn [column_len snd] in E2, E3. apply length_mapM in E, E0.
    rewrite length_fmap in E2. rewrite length_fmap in E3. split; [lia|done].
  - unfold evaluate_multi. rewrite Hsc. intros H. do 4 run_step H.
    apply M_bind_Ok in H as ([] & t1 & _ & H). do 5 run_step H.
    rewrite dict_of_NoDup in E6 by exact Hnd.
    apply data_frame_Ok in E6.
    apply Forall_cons in E6 as [E6 E7]. apply Forall_cons in E7 as [E7 _].
    cbn [column_len snd] in E6, E7.
    apply column_Ok in E2 as [E2 Hne], E3 as [E3 _].
    rewrite length_fmap in E2. rewrite length_fmap in E6.
    rewrite length_fmap in E7. split; [lia|].
    intros _ ->. by apply Hne.
Qed.

Lemma evaluate_returns_paired_witness :
  ∃ t', evaluate toy_externals toy_multi_target toy_test_data toy_preds [] = (Ok (), t') ∧
        length toy_preds = length toy_test_data.
Proof.
  eexists. split; [vm_compute; reflexivity|].
  refine (proj1 (evaluate_returns_paired toy_externals toy_multi_target
                   toy_test_data toy_preds [] _ _ _ _)).
  - reflexivity.
  - apply (bool_decide_unpack _). by vm_compute.
  - vm_compute. reflexivity.
Defined.

(** Lines 133 and 137 divide by the size ratio, or by the ratio plus one:
    a run that is not single-fidelity with [--lf_superset_of_hf] and ratio 0,
    or without it and ratio -1, raises [ZeroDivisionError] before it samples
    or splits anything. *)
Theorem zero_denominator_raises (ext : externals) (args : Args) (df : DataFrame) :
  is_single args = false →
  hf_denominator args = 0 →
  prepare ext args df = Raise ZeroDivisionError.
Proof.
  intros Hs Hd. unfold prepare. rewrite Hs.
  unfold prepare_multi, hf_lf_frames, sample_frames. unfold hf_denominator in Hd.
  destruct (lf_superset_of_hf args); apply Z.eqb_eq in Hd; by rewrite Hd.
Qed.

(** The run [--model_type multi_target --lf_hf_size_ratio -1]. *)
Lemma zero_denominator_raises_witness :
  prepare toy_externals
    (mkArgs "multi_target" "data.csv" "h298" "h298_lf" false false 30 false
            0 0%float 0%float 0%float "random" (-1) false 0 "results")
    toy_two_columns = Raise ZeroDivisionError.
Proof.
  refine (zero_denominator_raises toy_externals _ toy_two_columns _ _);
    reflexivity.
Defined.
End traces.
